(** * EngiDitherer: palette lookup and Floyd-Steinberg error diffusion

    A shallow embedding of [src/palette.py], [src/image_utils.py] and
    [src/dithering.py], and of the palette extraction of
    [extract_colors.py]; the properties of the design document that
    concern them, and further properties of the code.

    Conventions of the embedding.
    - Python exceptions are values of [exn]; a function that may raise
      returns a [result].
    - A finite binary64 value is represented by the rational number it
      denotes.  The arithmetic of the colour conversion (division by
      255.0, the CIELab transform of colorspacious, the float subtraction,
      squaring, summation and square root of the distance) rounds, and is
      taken from the interface [Float64Ops]; nothing is assumed about it.
      The arithmetic of the diffusion sweep is exact in binary64: every
      value it handles is a multiple of 1/16 of magnitude below 512
      (see [working_buffer_exact]), so it is written with the exact
      operations of [Q].
    - PIL images are mutable objects: they live in a [heap], and the
      functions that take or return an image take or return its location.
      What PIL computes from pixels (the LANCZOS filter of [thumbnail] and
      [resize], the conversion between modes of [paste]) is taken from
      the interfaces [PILOps] and [PILResizeOps]; nothing is assumed about
      it, and each of these operations may raise.
    - A character of a string is a code point below 256. *)

From Stdlib Require Import ZArith QArith Qround Qminmax Qabs Lqa Lia List String Ascii Bool.
From Stdlib.Strings Require Byte.
From stdpp Require Import base option list gmap strings pretty.
Import ListNotations.

Local Open Scope nat_scope.

(** ** Exceptions and results *)

Inductive exn : Type :=
| ValueError (msg : string)
| AttributeError (msg : string)
| TypeError (msg : string)
| IndexError (msg : string)
| ZeroDivisionError (msg : string).

Inductive result (A : Type) : Type :=
| Ok (a : A)
| Raise (e : exn).
Arguments Ok {A} a.
Arguments Raise {A} e.

#[global] Instance result_ret : MRet result := fun A a => Ok a.
#[global] Instance result_bind : MBind result := fun A B f m =>
  match m with
  | Ok a => f a
  | Raise e => Raise e
  end.

Definition is_ok {A} (r : result A) : bool :=
  match r with Ok _ => true | Raise _ => false end.

(** [for b in l: a = f(a, b)], stopping at the first exception. *)
Fixpoint foldM {A B} (f : A -> B -> result A) (l : list B) (a : A) : result A :=
  match l with
  | [] => Ok a
  | b :: l' => a' ← f a b; foldM f l' a'
  end.

(** [[f(b) for b in l]], stopping at the first exception. *)
Fixpoint mapM {A B} (f : A -> result B) (l : list A) : result (list B) :=
  match l with
  | [] => Ok []
  | a :: l' => b ← f a; bs ← mapM f l'; Ok (b :: bs)
  end.

(** Python's [range(n)]. *)
Definition range (n : nat) : list nat := seq 0 n.

(** Indexing of a Python sequence by an integer: a negative index counts
    from the end, an index outside [-n, n) raises [IndexError]. *)
Definition py_index (n : nat) (i : Z) : result nat :=
  if (0 <=? i)%Z then
    if (i <? Z.of_nat n)%Z then Ok (Z.to_nat i)
    else Raise (IndexError "index out of range")
  else
    if (- Z.of_nat n <=? i)%Z then Ok (Z.to_nat (i + Z.of_nat n))
    else Raise (IndexError "index out of range").

Definition getitem {A} (l : list A) (i : Z) : result A :=
  k ← py_index (length l) i;
  match l !! k with
  | Some a => Ok a
  | None => Raise (IndexError "index out of range")
  end.

Definition setitem {A} (l : list A) (i : Z) (a : A) : result (list A) :=
  k ← py_index (length l) i;
  Ok (<[k := a]> l).

(** ** Colours and binary64 arithmetic *)

Definition RGB : Type := Z * Z * Z.
Definition Lab : Type := Q * Q * Q.
Definition floats3 : Type := Q * Q * Q.

(** The rounding operations of numpy and the conversion of colorspacious. *)
Class Float64Ops : Type := {
  fadd : Q -> Q -> Q;
  fsub : Q -> Q -> Q;
  fmul : Q -> Q -> Q;
  fdiv : Q -> Q -> Q;
  np_sqrt : Q -> Q;
  (** [cspace_convert(v, "sRGB1", "CIELab")] *)
  cspace_convert : floats3 -> Lab
}.

(** ** palette.py *)

Module MinecraftPalette.

(** The class attribute [CARPET_COLORS]: the 61 default carpet colours. *)
Definition CARPET_COLORS : list string :=
  [ "#DC0000"; "#A3292A"; "#842C2C"; "#8A4243"; "#7A3327"; "#600100"; "#4F1519";
    "#BA6D2C"; "#A0721F"; "#89461F"; "#6F4A2A"; "#7B663E"; "#58412C"; "#825E42";
    "#745C54"; "#B4988A"; "#BA967E"; "#D5C98C"; "#C5C52C"; "#D7CD42"; "#6D9930";
    "#6DB015"; "#58642D"; "#586D2C"; "#414624"; "#006A00"; "#00BB32"; "#6D9081";
    "#119B72"; "#327A78"; "#126C73"; "#416D84"; "#5884BA"; "#3F6EDC"; "#3737DC";
    "#2C4199"; "#4FBCB7"; "#8A8ADC"; "#8D909E"; "#605D77"; "#41354F"; "#9941BA";
    "#6D3699"; "#D06D8E"; "#7F3653"; "#804B5D"; "#693E4B"; "#4A2535"; "#DCDCDC";
    "#DCD9D3"; "#ABABAB"; "#909090"; "#848484"; "#606060"; "#565656"; "#4B4F4F";
    "#414141"; "#151515"; "#1F120D"; "#31231E"; "#412B1E" ]%string.

(** An instance of the class.  [CARPET_COLORS] is the instance attribute
    when one was assigned, else the class attribute.  ([color_names] is
    used by [get_color_info] only and is left out.) *)
Record t : Type := {
  carpet_colors : list string;
  colors_rgb : list RGB;
  colors_lab : list Lab
}.

Definition hex_digit (c : ascii) : option Z :=
  let n := nat_of_ascii c in
  if (48 <=? n) && (n <=? 57) then Some (Z.of_nat (n - 48))
  else if (65 <=? n) && (n <=? 70) then Some (Z.of_nat (n - 55))
  else if (97 <=? n) && (n <=? 102) then Some (Z.of_nat (n - 87))
  else None.

(** The blanks that [int] skips around a literal: tab, line feed, vertical
    tab, form feed, carriage return and space, and of the code points
    above 126 the blanks of Unicode, which below 256 are NEL and the
    no-break space. *)
Definition is_space (c : ascii) : bool :=
  let n := nat_of_ascii c in
  ((9 <=? n) && (n <=? 13)) || (n =? 32) || (n =? 133) || (n =? 160).

Fixpoint skip_spaces (s : string) : string :=
  match s with
  | String c s' => if is_space c then skip_spaces s' else s
  | EmptyString => s
  end.

(** The sign of the literal, if it has one: whether it is negative, and
    the rest. *)
Definition skip_sign (s : string) : bool * string :=
  match s with
  | String c s' =>
      if Ascii.eqb c "+" then (false, s')
      else if Ascii.eqb c "-" then (true, s')
      else (false, s)
  | EmptyString => (false, s)
  end.

(** The prefix [0x] or [0X], if it is there, and one underscore after it. *)
Definition skip_prefix (s : string) : string :=
  match s with
  | String c (String x s') =>
      if Ascii.eqb c "0" && (Ascii.eqb x "x" || Ascii.eqb x "X") then
        match s' with
        | String u s'' => if Ascii.eqb u "_" then s'' else s'
        | EmptyString => s'
        end
      else s
  | _ => s
  end.

(** The digits of the literal, with single underscores between them: their
    value after [acc], and what follows them.  Two underscores in a row
    and an underscore after the last digit are refused. *)
Fixpoint scan_digits (acc : Z) (after_underscore : bool) (s : string)
  : option (Z * string) :=
  match s with
  | String c s' =>
      if Ascii.eqb c "_" then
        if after_underscore then None else scan_digits acc true s'
      else
        match hex_digit c with
        | Some d => scan_digits (16 * acc + d)%Z false s'
        | None => if after_underscore then None else Some (acc, s)
        end
  | EmptyString => if after_underscore then None else Some (acc, s)
  end.

Definition invalid_literal : result Z :=
  Raise (ValueError "invalid literal for int() with base 16").

(** [int(s, 16)] on a string of code points below 256: blanks, a sign, the
    prefix [0x], then at least one hexadecimal digit, the first character
    after the prefix being a digit, then blanks up to the end. *)
Definition int16 (s : string) : result Z :=
  let '(negative, s) := skip_sign (skip_spaces s) in
  let s := skip_prefix s in
  match s with
  | String c _ =>
      match hex_digit c with
      | Some _ =>
          match scan_digits 0 false s with
          | Some (v, rest) =>
              match skip_spaces rest with
              | EmptyString => Ok (if negative then - v else v)%Z
              | String _ _ => invalid_literal
              end
          | None => invalid_literal
          end
      | None => invalid_literal
      end
  | EmptyString => invalid_literal
  end.

(** [hex_color.lstrip('#')] *)
Fixpoint lstrip_hash (s : string) : string :=
  match s with
  | String "#" s' => lstrip_hash s'
  | _ => s
  end.

Definition hex_to_rgb (hex_color : string) : result RGB :=
  let hex_color := lstrip_hash hex_color in
  r ← int16 (substring 0 2 hex_color);
  g ← int16 (substring 2 2 hex_color);
  b ← int16 (substring 4 2 hex_color);
  Ok (r, g, b).

Section WithFloats.
Context `{Float64Ops}.

Definition rgb_to_lab (rgb : RGB) : Lab :=
  let '(r, g, b) := rgb in
  let rgb_normalized :=
    (fdiv (inject_Z r) 255, fdiv (inject_Z g) 255, fdiv (inject_Z b) 255) in
  cspace_convert rgb_normalized.

(** [__init__], reading the colour list [colors] that [self.CARPET_COLORS]
    resolves to. *)
Definition init (colors : list string) : result t :=
  match colors with
  | [] => Raise (ValueError "Color palette cannot be empty")
  | _ =>
      rgbs ← mapM hex_to_rgb colors;
      Ok {| carpet_colors := colors;
            colors_rgb := rgbs;
            colors_lab := map rgb_to_lab rgbs |}
  end.

(** [np.argmin] on a one-dimensional float array without NaN: the scan
    keeps the running minimum [mp] and its index, and replaces them when
    the element is not [>= mp]. *)
Fixpoint argmin_scan (mp : Q) (min_ind i : nat) (ip : list Q) : nat :=
  match ip with
  | [] => min_ind
  | d :: rest =>
      if Qle_bool mp d then argmin_scan mp min_ind (S i) rest
      else argmin_scan d i (S i) rest
  end.

Definition np_argmin (a : list Q) : result nat :=
  match a with
  | [] => Raise (ValueError "attempt to get argmin of an empty sequence")
  | d :: rest => Ok (argmin_scan d 0 1 rest)
  end.

(** [np.sqrt(np.sum((self.colors_rgb - target) ** 2, axis=1))]: integer
    arithmetic up to the square root. *)
Definition rgb_distance (target c : RGB) : Q :=
  let '(tr, tg, tb) := target in
  let '(cr, cg, cb) := c in
  np_sqrt (inject_Z ((cr - tr) ^ 2 + (cg - tg) ^ 2 + (cb - tb) ^ 2)%Z).

Definition rgb_distances (p : t) (target_rgb : RGB) : list Q :=
  map (rgb_distance target_rgb) (colors_rgb p).

(** [np.sqrt(np.sum((self.colors_lab - target_lab) ** 2, axis=1))] *)
Definition lab_distance (target c : Lab) : Q :=
  let '(tl, ta, tb) := target in
  let '(cl, ca, cb) := c in
  let dl := fsub cl tl in
  let da := fsub ca ta in
  let db := fsub cb tb in
  np_sqrt (fadd (fadd (fmul dl dl) (fmul da da)) (fmul db db)).

Definition lab_distances (p : t) (target_rgb : RGB) : list Q :=
  map (lab_distance (rgb_to_lab target_rgb)) (colors_lab p).

Definition closest_entry (p : t) (closest_idx : nat) : result (nat * RGB * string) :=
  closest_rgb ← getitem (colors_rgb p) (Z.of_nat closest_idx);
  closest_hex ← getitem (carpet_colors p) (Z.of_nat closest_idx);
  Ok (closest_idx, closest_rgb, closest_hex).

Definition find_closest_color_rgb (p : t) (target_rgb : RGB)
  : result (nat * RGB * string) :=
  closest_idx ← np_argmin (rgb_distances p target_rgb);
  closest_entry p closest_idx.

Definition find_closest_color_lab (p : t) (target_rgb : RGB)
  : result (nat * RGB * string) :=
  closest_idx ← np_argmin (lab_distances p target_rgb);
  closest_entry p closest_idx.

(** [str.lower] on ASCII letters. *)
Definition lower_ascii (c : ascii) : ascii :=
  let n := nat_of_ascii c in
  if (65 <=? n) && (n <=? 90) then ascii_of_nat (n + 32) else c.

Fixpoint lower (s : string) : string :=
  match s with
  | EmptyString => EmptyString
  | String c s' => String (lower_ascii c) (lower s')
  end.

Definition find_closest_color (p : t) (target_rgb : RGB) (method : string)
  : result (nat * RGB * string) :=
  if String.eqb (lower method) "lab" then find_closest_color_lab p target_rgb
  else find_closest_color_rgb p target_rgb.

(** The distances the chosen method compares. *)
Definition distances (p : t) (target_rgb : RGB) (method : string) : list Q :=
  if String.eqb (lower method) "lab" then lab_distances p target_rgb
  else rgb_distances p target_rgb.

End WithFloats.
End MinecraftPalette.

(** ** numpy arrays *)

(** An array of shape (height, width, 3); a cell holds the three channels
    of a pixel.  [np.array(None)] is the zero-dimensional [Array0]. *)
Record array3 (A : Type) : Type := {
  height : nat;
  width : nat;
  cells : list (list A)
}.
Arguments height {A} a.
Arguments width {A} a.
Arguments cells {A} a.

Inductive ndarray (A : Type) : Type :=
| Array0
| Array3 (a : array3 A).
Arguments Array0 {A}.
Arguments Array3 {A} a.

(** [a[y, x]] and [a[y, x] = v], with numpy's index rules. *)
Definition get2 {A} (a : array3 A) (y x : Z) : result A :=
  row ← getitem (cells a) y;
  getitem row x.

Definition set2 {A} (a : array3 A) (y x : Z) (v : A) : result (array3 A) :=
  row ← getitem (cells a) y;
  row' ← setitem row x v;
  cells' ← setitem (cells a) y row';
  Ok {| height := height a; width := width a; cells := cells' |}.

(** [np.zeros_like(a, dtype=np.uint8)] *)
Definition zeros_like {A} (a : array3 A) : array3 RGB :=
  {| height := height a; width := width a;
     cells := map (map (fun _ => (0, 0, 0)%Z)) (cells a) |}.

(** [np.clip(v, 0, 255)] = [minimum(maximum(v, 0), 255)] *)
Definition np_clip (v : Q) : Q := Qmin (Qmax v 0) 255.

(** The cast of a float to [int]: truncation toward zero. *)
Definition astype_int (v : Q) : Z := Z.quot (Qnum v) (Z.pos (Qden v)).

(** The cast of an integer to [uint8]. *)
Definition uint8 (v : Z) : Z := (v mod 256)%Z.

Definition uint8_rgb (c : RGB) : RGB :=
  let '(r, g, b) := c in (uint8 r, uint8 g, uint8 b).

Definition is_uint8 (v : Z) : Prop := (0 <= v <= 255)%Z.

Definition rgb_uint8 (c : RGB) : Prop :=
  is_uint8 c.1.1 /\ is_uint8 c.1.2 /\ is_uint8 c.2.

Definition float_of_rgb (c : RGB) : floats3 :=
  let '(r, g, b) := c in (inject_Z r, inject_Z g, inject_Z b).

Definition int_of_floats (v : floats3) : RGB :=
  let '(r, g, b) := v in (astype_int r, astype_int g, astype_int b).

(** ** PIL images *)

(** An image of three 8-bit bands (mode RGB, YCbCr, HSV or LAB): its
    mode, its size (width, height) and its rows of pixels, a pixel being
    its three bands.  The pixel data of other band layouts is not
    modelled; of such an image only the header is read
    ([validate_image_for_processing]). *)
Record Image : Type := {
  mode : string;
  size : nat * nat;
  pixels : list (list RGB)
}.

Definition loc : Type := positive.
Abbreviation heap := (gmap positive Image).

(** A computation on the heap of images; the heap that an exception leaves
    behind is kept. *)
Definition M (A : Type) : Type := heap -> result A * heap.

Definition retM {A} (a : A) : M A := fun h => (Ok a, h).
Definition raiseM {A} (e : exn) : M A := fun h => (Raise e, h).
Definition bindM {A B} (m : M A) (k : A -> M B) : M B := fun h =>
  match m h with
  | (Ok a, h') => k a h'
  | (Raise e, h') => (Raise e, h')
  end.
Definition liftM {A} (r : result A) : M A := fun h => (r, h).

Notation "x <~ m ;; k" := (bindM m (fun x => k))
  (at level 100, m at next level, right associativity).

Definition alloc (img : Image) : M loc := fun h =>
  let l := fresh (dom h) in (Ok l, <[l := img]> h).

Definition deref (l : loc) : M Image := fun h =>
  match h !! l with
  | Some img => (Ok img, h)
  | None => (Raise (ValueError "operation on a closed image"), h)
  end.

Definition store (l : loc) (img : Image) : M unit := fun h =>
  (Ok tt, <[l := img]> h).

(** The part of PIL that computes pixels.  Either operation may raise. *)
Class PILOps : Type := {
  (** what [thumbnail] with the LANCZOS filter makes of an image that does
      not fit in the size given, once the aspect ratio is computed *)
  resample : Image -> nat * nat -> result Image;
  (** [im.convert(mode)] *)
  convert : Image -> string -> result Image
}.

(** What PIL stores in an 8-bit band for an integer of a colour given to
    [Image.new] or to [putpixel]: the integer clamped to [0, 255]. *)
Definition clip8 (v : Z) : Z := Z.min (Z.max v 0) 255.

Definition ink (c : RGB) : RGB :=
  let '(r, g, b) := c in (clip8 r, clip8 g, clip8 b).

Module PIL.
Section WithPIL.
Context `{PILOps}.

(** [image.copy()]; [image] may be [None]. *)
Definition copy (image : option loc) : M loc :=
  match image with
  | None => raiseM (AttributeError "'NoneType' object has no attribute 'copy'")
  | Some l => img <~ deref l ;; alloc img
  end.

(** [Image.new(mode, size, color)] *)
Definition blank (mode : string) (size : nat * nat) (color : RGB) : Image :=
  {| mode := mode; size := size;
     pixels := map (fun _ => map (fun _ => ink color) (range size.1))
                   (range size.2) |}.

Definition new (mode : string) (size : nat * nat) (color : RGB) : M loc :=
  alloc (blank mode size color).

(** [image.thumbnail(size, LANCZOS)]: in place.  An image that fits in
    [size] is left as it is.  For one that does not, the aspect ratio
    [width / height] is computed and compared with [size[0] / size[1]]:
    both divisions raise ZeroDivisionError on a zero divisor. *)
Definition thumbnail_image (img : Image) (sz : nat * nat) : result Image :=
  if (img.(size).1 <=? sz.1) && (img.(size).2 <=? sz.2) then Ok img
  else if (img.(size).2 =? 0) || (sz.2 =? 0)
  then Raise (ZeroDivisionError "division by zero")
  else resample img sz.

Definition thumbnail (l : loc) (sz : nat * nat) : M unit :=
  img <~ deref l ;;
  reduced <~ liftM (thumbnail_image img sz) ;;
  store l reduced.

(** The pixel of [src] that [paste] at offset [box] puts at (i, j), if any. *)
Definition pasted (src : Image) (box : Z * Z) (i j : nat) : option RGB :=
  let sx := (Z.of_nat i - box.1)%Z in
  let sy := (Z.of_nat j - box.2)%Z in
  if (0 <=? sx)%Z && (sx <? Z.of_nat src.(size).1)%Z
     && (0 <=? sy)%Z && (sy <? Z.of_nat src.(size).2)%Z
  then row ← src.(pixels) !! Z.to_nat sy; row !! Z.to_nat sx
  else None.

(** [dest.paste(src, box)]: in place on [dest], clipped to it; what is
    stored in the 8-bit bands of [dest] is a byte. *)
Definition paste_image (dest src : Image) (box : Z * Z) : Image :=
  {| mode := dest.(mode); size := dest.(size);
     pixels :=
       imap (fun j row =>
         imap (fun i px =>
           match pasted src box i j with
           | Some c => uint8_rgb c
           | None => px
           end) row) dest.(pixels) |}.

(** The source as [paste] reads it: converted to the mode of the
    destination when its mode is another.  (The modes that [paste] takes
    as they are on an RGB destination have two or four bands.) *)
Definition converted (src : Image) (mode_dest : string) : result Image :=
  if String.eqb (mode src) mode_dest then Ok src else convert src mode_dest.

Definition paste (dest src : loc) (box : Z * Z) : M unit :=
  s <~ deref src ;;
  d <~ deref dest ;;
  s <~ liftM (converted s (mode d)) ;;
  store dest (paste_image d s box).

(** [np.array(image)]: a fresh array holding a copy of the pixels. *)
Definition array_of (img : Image) : array3 RGB :=
  {| height := img.(size).2; width := img.(size).1; cells := img.(pixels) |}.

Definition np_array (image : option loc) : M (ndarray RGB) :=
  match image with
  | None => retM Array0
  | Some l => img <~ deref l ;; retM (Array3 (array_of img))
  end.

(** [Image.fromarray(array, 'RGB')] of a uint8 array: a new image. *)
Definition image_of (a : array3 RGB) : Image :=
  {| mode := "RGB"; size := (width a, height a); pixels := cells a |}.

Definition fromarray (a : array3 RGB) : M loc := alloc (image_of a).

End WithPIL.
End PIL.

(** ** image_utils.py *)

Module ImageProcessor.

Definition MINECRAFT_MAP_SIZE : nat * nat := (128, 128).

Section WithPIL.
Context `{PILOps}.

Definition resize_for_minecraft (image : option loc) (map_size : option (nat * nat))
  : M loc :=
  let map_size := default MINECRAFT_MAP_SIZE map_size in
  image_copy <~ PIL.copy image ;;
  _ <~ PIL.thumbnail image_copy map_size ;;
  final_image <~ PIL.new "RGB" map_size (0, 0, 0)%Z ;;
  copied <~ deref image_copy ;;
  let x := ((Z.of_nat map_size.1 - Z.of_nat copied.(size).1) `div` 2)%Z in
  let y := ((Z.of_nat map_size.2 - Z.of_nat copied.(size).2) `div` 2)%Z in
  _ <~ PIL.paste final_image image_copy (x, y) ;;
  retM final_image.

Definition image_to_array (image : option loc) : M (ndarray RGB) :=
  PIL.np_array image.

(** [np.clip(array, 0, 255).astype(np.uint8)] on an integer array *)
Definition clip_uint8 (c : RGB) : RGB :=
  let '(r, g, b) := c in
  (uint8 (Z.min (Z.max r 0) 255), uint8 (Z.min (Z.max g 0) 255),
   uint8 (Z.min (Z.max b 0) 255)).

Definition clipped (array : array3 RGB) : array3 RGB :=
  {| height := height array; width := width array;
     cells := map (map clip_uint8) (cells array) |}.

Definition array_to_image (array : array3 RGB) : M loc :=
  let array := clipped array in
  PIL.fromarray array.

(** [validate_image_for_processing]: reads the header of the image. *)
Definition validate_image_for_processing (image : option Image) : bool * string :=
  match image with
  | None => (false, "Image is None"%string)
  | Some image =>
      if (image.(size).1 =? 0) || (image.(size).2 =? 0)
      then (false, "Image has zero dimensions"%string)
      else if negb (bool_decide (image.(mode) ∈ ["RGB"; "RGBA"; "L"; "P"]%string))
      then (false, ("Unsupported image mode: " ++ image.(mode))%string)
      else
        let total_pixels := (Z.of_nat image.(size).1 * Z.of_nat image.(size).2)%Z in
        if (4194304 <? total_pixels)%Z
        then (false, "Image is too large (max 2048x2048)"%string)
        else (true, "Image is valid for processing"%string)
  end.

End WithPIL.
End ImageProcessor.

(** ** dithering.py *)

Module MinecraftDitherer.

(** The observer registered with [set_progress_callback]; it may raise. *)
Definition callback : Type := nat -> nat -> result unit.

Record t : Type := {
  palette : MinecraftPalette.t;
  error_matrix : list (list Q);
  processed_pixels : nat;
  total_pixels : nat;
  progress_callback : option callback
}.

(** The Floyd-Steinberg matrix of [__init__]. *)
Definition floyd_steinberg : list (list Q) :=
  [ [ 0; 0; 7 # 16 ];
    [ 3 # 16; 5 # 16; 1 # 16 ] ]%Q.

Definition set_processed (self : t) (n : nat) : t :=
  {| palette := palette self; error_matrix := error_matrix self;
     processed_pixels := n; total_pixels := total_pixels self;
     progress_callback := progress_callback self |}.

Definition set_total (self : t) (n : nat) : t :=
  {| palette := palette self; error_matrix := error_matrix self;
     processed_pixels := processed_pixels self; total_pixels := n;
     progress_callback := progress_callback self |}.

Definition set_progress_callback (self : t) (cb : callback) : t :=
  {| palette := palette self; error_matrix := error_matrix self;
     processed_pixels := processed_pixels self; total_pixels := total_pixels self;
     progress_callback := Some cb |}.

Definition _update_progress (self : t) : result unit :=
  match progress_callback self with
  | Some cb => cb (processed_pixels self) (total_pixels self)
  | None => Ok tt
  end.

(** The working buffer: float64 channels. *)
Definition add3 (a b : floats3) : floats3 :=
  let '(a0, a1, a2) := a in
  let '(b0, b1, b2) := b in
  (a0 + b0, a1 + b1, a2 + b2)%Q.

Definition sub3 (a b : floats3) : floats3 :=
  let '(a0, a1, a2) := a in
  let '(b0, b1, b2) := b in
  (a0 - b0, a1 - b1, a2 - b2)%Q.

Definition scale3 (a : floats3) (w : Q) : floats3 :=
  let '(a0, a1, a2) := a in (a0 * w, a1 * w, a2 * w)%Q.

Definition clip3 (a : floats3) : floats3 :=
  let '(a0, a1, a2) := a in (np_clip a0, np_clip a1, np_clip a2).

(** The coordinates of the neighbour that entry (dy, dx) of the matrix
    addresses from pixel (x, y). *)
Definition neighbor (x y dy dx : nat) : Z * Z :=
  ((Z.of_nat x + Z.of_nat dx - 1)%Z, (Z.of_nat y + Z.of_nat dy + 1)%Z).

Definition in_bounds {A} (a : array3 A) (nx ny : Z) : bool :=
  (0 <=? nx)%Z && (nx <? Z.of_nat (width a))%Z
  && (0 <=? ny)%Z && (ny <? Z.of_nat (height a))%Z.

(** The body of the channel loop at neighbour (nx, ny): each channel gets
    its share of the error and is clamped at once. *)
Definition add_error (image_array : array3 floats3) (nx ny : Z)
    (weighted_error : floats3) : result (array3 floats3) :=
  old ← get2 image_array ny nx;
  set2 image_array ny nx (clip3 (add3 old weighted_error)).

(** The body of the two matrix loops for entry (dy, dx). *)
Definition diffuse_entry (self : t) (x y : nat) (error : floats3)
    (image_array : array3 floats3) (d : nat * nat) : result (array3 floats3) :=
  let '(dy, dx) := d in
  let '(nx, ny) := neighbor x y dy dx in
  if in_bounds image_array nx ny then
    row ← getitem (error_matrix self) (Z.of_nat dy);
    weight ← getitem row (Z.of_nat dx);
    if Qlt_le_dec 0 weight then
      let weighted_error := scale3 error weight in
      add_error image_array nx ny weighted_error
    else Ok image_array
  else Ok image_array.

(** The index pairs (dy, dx) in the order of the two loops over the shape
    of the matrix. *)
Definition matrix_entries (m : list (list Q)) : list (nat * nat) :=
  dy ← range (length m);
  dx ← range (length (default [] (head m)));
  [(dy, dx)].

Definition _apply_error_diffusion (self : t) (image_array : array3 floats3)
    (x y : nat) (error : floats3) : result (array3 floats3) :=
  foldM (diffuse_entry self x y error) (matrix_entries (error_matrix self))
        image_array.

(** The pixels in the order of the loops [for y ...: for x ...]. *)
Definition pixel_order (height width : nat) : list (nat * nat) :=
  y ← range height;
  x ← range width;
  [(x, y)].

Section WithFloats.
Context `{Float64Ops}.

(** [__init__]: [custom_colors] is [None] or a list of hex colours. *)
Definition init (custom_colors : option (list string)) : result t :=
  palette ← MinecraftPalette.init MinecraftPalette.CARPET_COLORS;
  palette ←
    match custom_colors with
    | Some (c :: cs) => MinecraftPalette.init (c :: cs)
    | Some [] | None => Ok palette
    end;
  Ok {| palette := palette; error_matrix := floyd_steinberg;
        processed_pixels := 0; total_pixels := 0; progress_callback := None |}.

Definition _find_closest_color (self : t) (rgb : RGB)
  : result (nat * RGB * floats3) :=
  '(idx, closest_rgb, _) ← MinecraftPalette.find_closest_color (palette self) rgb "lab";
  let error := sub3 (float_of_rgb rgb) (float_of_rgb closest_rgb) in
  Ok (idx, closest_rgb, error).

(** The state of the sweep: the ditherer, the working buffer and the
    output buffer. *)
Record sweep : Type := {
  self : t;
  image_array : array3 floats3;
  output_array : array3 RGB
}.

(** The colour handed to the palette for pixel (x, y). *)
Definition current_rgb (image_array : array3 floats3) (x y : nat) : result RGB :=
  v ← get2 image_array (Z.of_nat y) (Z.of_nat x);
  Ok (int_of_floats v).

(** The body of the pixel loop. *)
Definition process_pixel (st : sweep) (xy : nat * nat) : result sweep :=
  let '(x, y) := xy in
  rgb ← current_rgb (image_array st) x y;
  '(idx, closest_rgb, error) ← _find_closest_color (self st) rgb;
  output_array ← set2 (output_array st) (Z.of_nat y) (Z.of_nat x) (uint8_rgb closest_rgb);
  image_array ← _apply_error_diffusion (self st) (image_array st) x y error;
  let self := set_processed (self st) (processed_pixels (self st) + 1) in
  _ ← (if processed_pixels self mod 1000 =? 0 then _update_progress self else Ok tt);
  Ok {| self := self; image_array := image_array; output_array := output_array |}.

(** The state in which the pixel loop is entered: the working buffer is
    the source as float64, the counters are reset, the output is zero. *)
Definition start (self0 : t) (source : array3 RGB) : sweep :=
  let image_array :=
    {| height := height source; width := width source;
       cells := map (map float_of_rgb) (cells source) |} in
  let self0 := set_total self0 (height source * width source) in
  let self0 := set_processed self0 0 in
  {| self := self0; image_array := image_array;
     output_array := zeros_like image_array |}.

(** The sweep over a buffer, from the start of progress tracking to the
    final progress update. *)
Definition dither_array (self0 : t) (source : array3 RGB) : result sweep :=
  st ← foldM process_pixel (pixel_order (height source) (width source))
          (start self0 source);
  _ ← _update_progress (self st);
  Ok st.

Section WithPIL.
Context `{PILOps}.

(** [height, width = image_array.shape[:2]] *)
Definition unpack_shape {A} (a : ndarray A) : result (array3 A) :=
  match a with
  | Array0 => Raise (ValueError "not enough values to unpack (expected 2, got 0)")
  | Array3 a => Ok a
  end.

(** [dither_image]; returns the result image and the ditherer as the call
    leaves it. *)
Definition dither_image (self0 : t) (image : option loc) (resize_for_minecraft : bool)
  : M (loc * t) :=
  image <~ (if resize_for_minecraft
            then l <~ ImageProcessor.resize_for_minecraft image None ;; retM (Some l)
            else retM image) ;;
  a <~ ImageProcessor.image_to_array image ;;
  source <~ liftM (unpack_shape a) ;;
  st <~ liftM (dither_array self0 source) ;;
  result_image <~ ImageProcessor.array_to_image (output_array st) ;;
  retM (result_image, self st).

(** The body of the pixel loop of [_create_quantized_image]. *)
Definition quantize_pixel (self0 : t) (image_array : array3 RGB)
    (output_array : array3 RGB) (xy : nat * nat) : result (array3 RGB) :=
  let '(x, y) := xy in
  current ← get2 image_array (Z.of_nat y) (Z.of_nat x);
  '(_, closest_rgb, _) ← MinecraftPalette.find_closest_color (palette self0) current "lab";
  set2 output_array (Z.of_nat y) (Z.of_nat x) (uint8_rgb closest_rgb).

Definition quantize_array (self0 : t) (image_array : array3 RGB) : result (array3 RGB) :=
  foldM (quantize_pixel self0 image_array)
        (pixel_order (height image_array) (width image_array))
        (zeros_like image_array).

Definition _create_quantized_image (self0 : t) (image : option loc) : M loc :=
  a <~ ImageProcessor.image_to_array image ;;
  image_array <~ liftM (unpack_shape a) ;;
  output_array <~ liftM (quantize_array self0 image_array) ;;
  ImageProcessor.array_to_image output_array.

(** [dither_with_comparison]: the original, the quantized and the dithered
    image, and the ditherer as the call leaves it. *)
Definition dither_with_comparison (self0 : t) (image : option loc)
    (resize_for_minecraft : bool) : M (loc * loc * loc * t) :=
  original <~ (if resize_for_minecraft
               then ImageProcessor.resize_for_minecraft image None
               else PIL.copy image) ;;
  quantized <~ _create_quantized_image self0 (Some original) ;;
  r <~ dither_image self0 (Some original) false ;;
  retM (original, quantized, r.1, r.2).

End WithPIL.
End WithFloats.
End MinecraftDitherer.

(** ** Notions used by the statements *)

(** Cell (i, j) of an array: column [i] of row [j]. *)
Definition cell {A} (a : array3 A) (i j : nat) : option A :=
  row ← cells a !! j; row !! i.

(** The cells of an array agree with its shape. *)
Definition wf_array {A} (a : array3 A) : Prop :=
  length (cells a) = height a /\ Forall (fun row => length row = width a) (cells a).

Definition same_shape {A B} (a : array3 A) (b : array3 B) : Prop :=
  height a = height b /\ width a = width b.

(** Equality of float triples as numbers, and their sum. *)
Definition eq3 (a b : floats3) : Prop :=
  (a.1.1 == b.1.1 /\ a.1.2 == b.1.2 /\ a.2 == b.2)%Q.

Definition sum3 (l : list floats3) : floats3 :=
  foldr MinecraftDitherer.add3 (0, 0, 0)%Q l.

Definition sumQ (l : list Q) : Q := foldr Qplus 0%Q l.

(** A channel, and a pixel, of the working buffer lies in [0, 255]. *)
Definition in_range (v : Q) : Prop := (0 <= v <= 255)%Q.

Definition in_range3 (v : floats3) : Prop :=
  in_range v.1.1 /\ in_range v.1.2 /\ in_range v.2.

(** A channel is a multiple of 1/16. *)
Definition sixteenths (v : Q) : Prop := exists k : Z, (v == k # 16)%Q.

Definition sixteenths3 (v : floats3) : Prop :=
  sixteenths v.1.1 /\ sixteenths v.1.2 /\ sixteenths v.2.

Definition all_cells {A} (P : A -> Prop) (a : array3 A) : Prop :=
  forall i j v, cell a i j = Some v -> P v.

(** The rows of the image agree with its size and its bands hold bytes. *)
Definition wf_bands (img : Image) : Prop :=
  length (pixels img) = (size img).2
  /\ Forall (fun row => length row = (size img).1) (pixels img)
  /\ Forall (Forall rgb_uint8) (pixels img).

(** An image of mode RGB whose rows agree with its size and whose
    channels are bytes. *)
Definition wf_image (img : Image) : Prop :=
  mode img = "RGB"%string /\ wf_bands img.

(** A palette as its constructor leaves it, whatever its colour codes:
    its tables have an entry for each code, and the LAB table is computed
    from the RGB table. *)
Definition built_palette `{Float64Ops} (p : MinecraftPalette.t) : Prop :=
  MinecraftPalette.colors_rgb p <> []
  /\ length (MinecraftPalette.carpet_colors p) = length (MinecraftPalette.colors_rgb p)
  /\ MinecraftPalette.colors_lab p
     = map MinecraftPalette.rgb_to_lab (MinecraftPalette.colors_rgb p).

(** A palette as its constructor leaves it when every channel it read from
    the colour codes is a byte, as it is for codes of six hexadecimal
    digits. *)
Definition wf_palette `{Float64Ops} (p : MinecraftPalette.t) : Prop :=
  MinecraftPalette.colors_rgb p <> []
  /\ length (MinecraftPalette.carpet_colors p) = length (MinecraftPalette.colors_rgb p)
  /\ MinecraftPalette.colors_lab p
     = map MinecraftPalette.rgb_to_lab (MinecraftPalette.colors_rgb p)
  /\ Forall rgb_uint8 (MinecraftPalette.colors_rgb p).

(** A ditherer as [__init__] leaves it with a palette of bytes, whatever
    its counters and observer. *)
Definition wf_ditherer `{Float64Ops} (self : MinecraftDitherer.t) : Prop :=
  wf_palette (MinecraftDitherer.palette self)
  /\ MinecraftDitherer.error_matrix self = MinecraftDitherer.floyd_steinberg.

(** Two ditherers differ at most in their counters. *)
Definition same_config (a b : MinecraftDitherer.t) : Prop :=
  MinecraftDitherer.palette a = MinecraftDitherer.palette b
  /\ MinecraftDitherer.error_matrix a = MinecraftDitherer.error_matrix b
  /\ MinecraftDitherer.progress_callback a = MinecraftDitherer.progress_callback b.

(** The registered observer, if any, never raises. *)
Definition quiet (self : MinecraftDitherer.t) : Prop :=
  forall cb n m, MinecraftDitherer.progress_callback self = Some cb -> cb n m = Ok tt.

(** What holds of the sweep between two pixels: the configuration is that
    of the call, both buffers have the shape of the source, every channel
    of the working buffer lies in [0, 255], and the output holds a palette
    colour at every pixel of [D], the pixels processed so far. *)
Definition sweep_inv `{Float64Ops} (self0 : MinecraftDitherer.t) (h w : nat)
    (D : nat * nat -> Prop) (st : MinecraftDitherer.sweep) : Prop :=
  same_config (MinecraftDitherer.self st) self0
  /\ wf_array (MinecraftDitherer.image_array st)
  /\ height (MinecraftDitherer.image_array st) = h
  /\ width (MinecraftDitherer.image_array st) = w
  /\ wf_array (MinecraftDitherer.output_array st)
  /\ height (MinecraftDitherer.output_array st) = h
  /\ width (MinecraftDitherer.output_array st) = w
  /\ all_cells in_range3 (MinecraftDitherer.image_array st)
  /\ (forall x y, D (x, y) ->
        exists c, cell (MinecraftDitherer.output_array st) x y = Some c
                  /\ c ∈ MinecraftPalette.colors_rgb (MinecraftDitherer.palette self0)).

(** [z] is an integer nearest to [v], and [c] is [v] with every channel
    rounded to a nearest integer. *)
Definition nearest (v : Q) (z : Z) : Prop :=
  forall z' : Z, (Qabs (v - inject_Z z) <= Qabs (v - inject_Z z'))%Q.

Definition rounded (v : floats3) (c : RGB) : Prop :=
  nearest v.1.1 c.1.1 /\ nearest v.1.2 c.1.2 /\ nearest v.2 c.2.

(** [v] with the fraction of every channel dropped. *)
Definition floor3 (v : floats3) : RGB := (Qfloor v.1.1, Qfloor v.1.2, Qfloor v.2).

(** The image that [resize_for_minecraft] builds from [img]: the thumbnail
    of [img] pasted in the centre of a black canvas of the map size; or
    the exception that [thumbnail] or [paste] raises. *)
Definition resized `{PILOps} (img : Image) (map_size : nat * nat) : result Image :=
  thumb ← PIL.thumbnail_image img map_size;
  src ← PIL.converted thumb "RGB";
  Ok (PIL.paste_image (PIL.blank "RGB" map_size (0, 0, 0)%Z) src
        (((Z.of_nat map_size.1 - Z.of_nat (size thumb).1) `div` 2)%Z,
         ((Z.of_nat map_size.2 - Z.of_nat (size thumb).2) `div` 2)%Z)).

(** The image that [dither_image] sweeps, or the exception that its
    preparation raises. *)
Definition prepared `{PILOps} (resize_for_minecraft : bool) (img : Image)
  : result Image :=
  if resize_for_minecraft then resized img ImageProcessor.MINECRAFT_MAP_SIZE
  else Ok img.

(** The image fits in a box of size [sz]. *)
Definition fits (img : Image) (sz : nat * nat) : Prop :=
  (size img).1 <= sz.1 /\ (size img).2 <= sz.2.

(** Every pixel of the image is a colour of the list. *)
Definition pixels_in (colors : list RGB) (img : Image) : Prop :=
  Forall (Forall (fun px => px ∈ colors)) (pixels img).

(** The outcome of a run of [dither_image] as a caller sees it: the image
    returned, or the exception raised. *)
Definition outcome (r : result (loc * MinecraftDitherer.t) * heap) : result Image :=
  match r with
  | (Ok (l, _), h) =>
      match h !! l with
      | Some img => Ok img
      | None => Raise (ValueError "operation on a closed image")
      end
  | (Raise e, _) => Raise e
  end.

(** A ditherer with counters left by earlier runs. *)
Definition used (self : MinecraftDitherer.t) (processed total : nat)
  : MinecraftDitherer.t :=
  MinecraftDitherer.set_total (MinecraftDitherer.set_processed self processed) total.

(** What holds of the output of the quantize-only loop between two pixels. *)
Definition quantize_inv `{Float64Ops} (self0 : MinecraftDitherer.t) (a : array3 RGB)
    (D : nat * nat -> Prop) (out : array3 RGB) : Prop :=
  wf_array out /\ same_shape out a
  /\ (forall x y, D (x, y) ->
        exists c, cell out x y = Some c
                  /\ c ∈ MinecraftPalette.colors_rgb (MinecraftDitherer.palette self0)).

(** [k] is the lowest index at which the list [a] takes its minimum. *)
Definition first_minimum (a : list Q) (k : nat) : Prop :=
  exists m, a !! k = Some m
    /\ (forall j d, a !! j = Some d -> (m <= d)%Q)
    /\ (forall j d, j < k -> a !! j = Some d -> (m < d)%Q).

Module Stencil.
Import MinecraftDitherer.

(** The entry of the matrix at (dy, dx), when there is one. *)
Definition weight_at (m : list (list Q)) (d : nat * nat) : option Q :=
  row ← m !! d.1; row !! d.2.

(** What [_apply_error_diffusion] applies at pixel (x, y): for each entry
    of the matrix, in loop order, whose neighbour lies inside the buffer
    and whose weight is positive, the neighbour and the weight. *)
Definition applied {A} (self : t) (a : array3 A) (x y : nat) : list (Z * Z * Q) :=
  d ← matrix_entries (error_matrix self);
  let '(nx, ny) := neighbor x y d.1 d.2 in
  if in_bounds a nx ny then
    match weight_at (error_matrix self) d with
    | Some w => if Qlt_le_dec 0 w then [(nx, ny, w)] else []
    | None => []
    end
  else [].

(** The weights applied at (x, y). *)
Definition weights {A} (self : t) (a : array3 A) (x y : nat) : list Q :=
  map snd (applied self a x y).

(** One guarded update: the neighbour [n], if inside the buffer, takes the
    share [w] of the error. *)
Definition diffuse_at (error : floats3) (w : Q) (n : Z * Z)
    (a : array3 floats3) : result (array3 floats3) :=
  if in_bounds a n.1 n.2 then add_error a n.1 n.2 (scale3 error w) else Ok a.

(** The weighted errors added to the neighbours, before the clamp. *)
Definition added {A} (self : t) (a : array3 A) (x y : nat) (error : floats3)
  : list floats3 :=
  map (fun n => scale3 error n.2) (applied self a x y).

(** What cell (nx, ny) gained from [before] to [after]. *)
Definition gain (before after : array3 floats3) (n : Z * Z * Q) : floats3 :=
  match cell before (Z.to_nat n.1.1) (Z.to_nat n.1.2),
        cell after (Z.to_nat n.1.1) (Z.to_nat n.1.2) with
  | Some u, Some v => sub3 v u
  | _, _ => (0, 0, 0)%Q
  end.

(** What the neighbours gained in all. *)
Definition received (self : t) (before after : array3 floats3) (x y : nat)
  : list floats3 :=
  map (gain before after) (applied self before x y).

(** No clamp is active at (x, y): every neighbour stays within [0, 255]
    when its share is added. *)
Definition unclamped (self : t) (a : array3 floats3) (x y : nat) (error : floats3)
  : Prop :=
  forall n, n ∈ applied self a x y ->
    forall old, cell a (Z.to_nat n.1.1) (Z.to_nat n.1.2) = Some old ->
      in_range3 (add3 old (scale3 error n.2)).

(** The weight with which cell (i, j) takes error from pixel (x, y), as the
    loops address it: entry (dy, dx) goes to column x + dx - 1 of row
    y + dy + 1. *)
Definition stencil_weight (x y i j : nat) : option Q :=
  if (j =? y + 1) && (i =? x + 1) then Some (7 # 16)
  else if (j =? y + 2) && (i + 1 =? x) then Some (3 # 16)
  else if (j =? y + 2) && (i =? x) then Some (5 # 16)
  else if (j =? y + 2) && (i =? x + 1) then Some (1 # 16)
  else None.

(** The cell (i, j) after error diffusion from (x, y). *)
Definition diffused (x y : nat) (error : floats3) (i j : nat) (old : floats3)
  : floats3 :=
  match stencil_weight x y i j with
  | Some w => clip3 (add3 old (scale3 error w))
  | None => old
  end.

End Stencil.

(** ** Instances for running the definitions

    Exact rational arithmetic, a square root rounded down to a multiple
    of 2^-20, the identity in place of the CIELab transform, the top-left
    crop in place of the LANCZOS filter and a change of label in place of
    a conversion between modes.  They serve to evaluate
    the definitions on concrete inputs; the theorems hold for every
    instance. *)

Definition sqrt_down (q : Q) : Q :=
  Z.sqrt ((Qnum q * 2 ^ 40) / Z.pos (Qden q)) # (2 ^ 20).

#[local] Instance exact_floats : Float64Ops := {|
  fadd := Qplus; fsub := Qminus; fmul := Qmult; fdiv := Qdiv;
  np_sqrt := sqrt_down;
  cspace_convert := fun v => v
|}.

Definition crop (img : Image) (sz : nat * nat) : Image :=
  let w := Nat.min (size img).1 sz.1 in
  let h := Nat.min (size img).2 sz.2 in
  {| mode := mode img; size := (w, h);
     pixels := take h (map (take w) (pixels img)) |}.

(** The bands as they are under another mode, in place of a conversion. *)
Definition relabel (img : Image) (m : string) : Image :=
  {| mode := m; size := size img; pixels := pixels img |}.

#[local] Instance crop_pil : PILOps :=
  {| resample := fun img sz => Ok (crop img sz);
     convert := fun img m => Ok (relabel img m) |}.

(** Some values used in examples. *)
Definition black_only : MinecraftPalette.t :=
  {| MinecraftPalette.carpet_colors := ["#000000"%string];
     MinecraftPalette.colors_rgb := [(0, 0, 0)%Z];
     MinecraftPalette.colors_lab := [MinecraftPalette.rgb_to_lab (0, 0, 0)%Z] |}.

Definition ditherer_of (p : MinecraftPalette.t) : MinecraftDitherer.t :=
  {| MinecraftDitherer.palette := p;
     MinecraftDitherer.error_matrix := MinecraftDitherer.floyd_steinberg;
     MinecraftDitherer.processed_pixels := 0;
     MinecraftDitherer.total_pixels := 0;
     MinecraftDitherer.progress_callback := None |}.

(** A palette of two identical colours. *)
Definition twin_palette : MinecraftPalette.t :=
  {| MinecraftPalette.carpet_colors := ["#808080"; "#808080"]%string;
     MinecraftPalette.colors_rgb := [(128, 128, 128); (128, 128, 128)]%Z;
     MinecraftPalette.colors_lab :=
       map MinecraftPalette.rgb_to_lab [(128, 128, 128); (128, 128, 128)]%Z |}.

(** A source of two rows whose pixel (1, 1) is white, and the working buffer
    with which its sweep starts. *)
Definition saturated_source : array3 RGB :=
  {| height := 2; width := 2;
     cells := [ [ (16, 16, 16); (0, 0, 0) ];
                [ (0, 0, 0); (255, 255, 255) ] ]%Z |}.

Definition saturated_buffer : array3 floats3 :=
  {| height := 2; width := 2;
     cells := [ [ (16, 16, 16); (0, 0, 0) ];
                [ (0, 0, 0); (255, 255, 255) ] ]%Q |}.

(** A source of three rows that is white but for its first pixel, and the
    working buffer with which its sweep starts. *)
Definition white_source : array3 RGB :=
  {| height := 3; width := 2;
     cells := [ [ (16, 16, 16); (255, 255, 255) ];
                [ (255, 255, 255); (255, 255, 255) ];
                [ (255, 255, 255); (255, 255, 255) ] ]%Z |}.

Definition white_buffer : array3 floats3 :=
  {| height := 3; width := 2;
     cells := [ [ (16, 16, 16); (255, 255, 255) ];
                [ (255, 255, 255); (255, 255, 255) ];
                [ (255, 255, 255); (255, 255, 255) ] ]%Q |}.

(** A working buffer of three rows with room for every share. *)
Definition roomy_buffer : array3 floats3 :=
  {| height := 3; width := 3;
     cells := [ [ (100, 100, 100); (100, 100, 100); (100, 100, 100) ];
                [ (100, 100, 100); (100, 100, 100); (100, 100, 100) ];
                [ (100, 100, 100); (100, 100, 100); (100, 100, 100) ] ]%Q |}.

(** A source of two rows whose first pixel leaves an error of 2 per channel
    against a black palette. *)
Definition dim_source : array3 RGB :=
  {| height := 2; width := 2;
     cells := [ [ (2, 2, 2); (0, 0, 0) ]; [ (0, 0, 0); (0, 0, 0) ] ]%Z |}.

(** [dim_source] as an image. *)
Definition dim_image : Image := PIL.image_of dim_source.

(** An image with no pixels, as [Image.new('RGB', (0, 0))] makes it. *)
Definition empty_image : Image := {| mode := "RGB"; size := (0, 0); pixels := [] |}.

(** An image of one pixel of mode YCbCr. *)
Definition ycbcr_pixel : Image :=
  {| mode := "YCbCr"; size := (1, 1); pixels := [ [ (0, 128, 128)%Z ] ] |}.

(** Working buffers of one pixel, of one row and of one column. *)
Definition buffer_1x1 : array3 floats3 :=
  {| height := 1; width := 1; cells := [ [ (40, 40, 40) ] ]%Q |}.

Definition buffer_row : array3 floats3 :=
  {| height := 1; width := 3;
     cells := [ [ (40, 40, 40); (50, 50, 50); (60, 60, 60) ] ]%Q |}.

Definition buffer_column : array3 floats3 :=
  {| height := 3; width := 1;
     cells := [ [ (40, 40, 40) ]; [ (50, 50, 50) ]; [ (60, 60, 60) ] ]%Q |}.

(** ** Strings *)

(** [str.upper] on ASCII letters. *)
Definition upper_ascii (c : ascii) : ascii :=
  let n := nat_of_ascii c in
  if (97 <=? n) && (n <=? 122) then ascii_of_nat (n - 32) else c.

Fixpoint upper (s : string) : string :=
  match s with
  | EmptyString => EmptyString
  | String c s' => String (upper_ascii c) (upper s')
  end.

(** ** palette.py: formatting, colour records and distances *)

Module PaletteTools.
Import MinecraftPalette.

(** The digit of [format(v, 'X')] for a value below 16. *)
Definition hex_char (d : Z) : ascii :=
  if (d <? 10)%Z then ascii_of_nat (48 + Z.to_nat d)
  else ascii_of_nat (55 + Z.to_nat d).

(** The upper-case hexadecimal digits of [v >= 0] before [acc], most
    significant first; [fuel] bounds the number of digits after the first. *)
Fixpoint hex_of (fuel : nat) (v : Z) (acc : string) : string :=
  let acc := String (hex_char (v mod 16)) acc in
  match fuel with
  | 0 => acc
  | S fuel => if (v <? 16)%Z then acc else hex_of fuel (v / 16) acc
  end.

(** [format(v, '02X')]: the sign if any, then the digits, padded with
    zeros to a width of two characters. *)
Definition format_02X (v : Z) : string :=
  if (v <? 0)%Z then String "-" (hex_of (Z.to_nat (Z.log2 (- v))) (- v) "")
  else
    let s := hex_of (Z.to_nat (Z.log2 v)) v "" in
    if String.length s <? 2 then String "0" s else s.

Definition rgb_to_hex (rgb : RGB) : string :=
  let '(r, g, b) := rgb in
  String "#" (format_02X r ++ format_02X g ++ format_02X b)%string.

(** The dictionary that [get_color_info] returns. *)
Record color_info : Type := {
  info_index : Z;
  info_hex : string;
  info_rgb : RGB;
  info_lab : Lab;
  info_name : string
}.

(** [self.color_names]: [__init__] names entry [i] of the colour list
    [Carpet_<i+1>]. *)
Definition color_names (p : t) : list string :=
  imap (fun i _ => ("Carpet_" ++ pretty (i + 1))%string) (carpet_colors p).

(** [get_color_info]; [Ok None] is the return of [None]. *)
Definition get_color_info (p : t) (index : Z) : result (option color_info) :=
  if (0 <=? index)%Z && (index <? Z.of_nat (length (carpet_colors p)))%Z then
    hex ← getitem (carpet_colors p) index;
    rgb ← getitem (colors_rgb p) index;
    lab ← getitem (colors_lab p) index;
    name ← getitem (color_names p) index;
    Ok (Some {| info_index := index; info_hex := hex; info_rgb := rgb;
                info_lab := lab; info_name := name |})
  else Ok None.

(** [get_palette_preview] *)
Definition get_palette_preview (p : t) : list string := carpet_colors p.

Section WithFloats.
Context `{Float64Ops}.

(** [calculate_color_distance]: [np.sqrt(np.sum((c1 - c2) ** 2))] on the
    LAB values of the two colours, or on the colours themselves. *)
Definition calculate_color_distance (color1_rgb color2_rgb : RGB) (method : string)
  : Q :=
  if String.eqb (lower method) "lab" then
    lab_distance (rgb_to_lab color2_rgb) (rgb_to_lab color1_rgb)
  else rgb_distance color2_rgb color1_rgb.

End WithFloats.
End PaletteTools.

(** ** image_utils.py: resizing helpers *)

(** The resampling of [image.resize] to another size; it may raise. *)
Class PILResizeOps : Type := {
  resize_to : Image -> nat * nat -> result Image
}.

Module ImageTools.
Section WithPIL.
Context `{PILOps} `{PILResizeOps}.

(** [image.resize(size, LANCZOS)]: a new image.  For the size that the
    image has it is a copy; a size with a zero side is refused. *)
Definition resize (l : loc) (sz : nat * nat) : M loc :=
  img <~ deref l ;;
  if decide (size img = sz) then alloc img
  else if (sz.1 =? 0) || (sz.2 =? 0)
  then raiseM (ValueError "height and width must be > 0")
  else im <~ liftM (resize_to img sz) ;; alloc im.

Definition resize_image (image : option loc) (target_size : nat * nat)
    (maintain_aspect : bool) : M loc :=
  if maintain_aspect then
    match image with
    | None => raiseM (AttributeError "'NoneType' object has no attribute 'thumbnail'")
    | Some l => _ <~ PIL.thumbnail l target_size ;; retM l
    end
  else
    match image with
    | None => raiseM (AttributeError "'NoneType' object has no attribute 'resize'")
    | Some l => resize l target_size
    end.

(** [create_thumbnail]; [size] defaults to (200, 200). *)
Definition create_thumbnail (image : option loc) (size : option (nat * nat)) : M loc :=
  let size := default (200, 200) size in
  thumbnail <~ PIL.copy image ;;
  _ <~ PIL.thumbnail thumbnail size ;;
  retM thumbnail.

End WithPIL.
End ImageTools.

(** ** image_utils.py: supported formats *)

(** The separators of [os.path]: [posixpath] or [ntpath]. *)
Record OsPath : Type := {
  sep : ascii;
  altsep : option ascii
}.

Definition posixpath : OsPath := {| sep := "/"; altsep := None |}.
Definition ntpath : OsPath := {| sep := "\"; altsep := Some "/"%char |}.

Module FormatTools.

Definition SUPPORTED_FORMATS : list string :=
  [".png"; ".jpg"; ".jpeg"; ".bmp"; ".tiff"; ".gif"]%string.

(** [p.rfind(c)] scanning from index [i] with [last] the highest index of
    [c] seen so far: the highest index at which [c] occurs, or -1. *)
Fixpoint rfind_from (p : list ascii) (c : ascii) (i last : Z) : Z :=
  match p with
  | [] => last
  | a :: p' => rfind_from p' c (i + 1) (if Ascii.eqb a c then i else last)
  end.

Definition rfind (p : list ascii) (c : ascii) : Z := rfind_from p c 0 (-1).

(** The slice [p[i:j]] for [0 <= i]. *)
Definition slice (p : list ascii) (i j : Z) : list ascii :=
  take (Z.to_nat (j - i)) (drop (Z.to_nat i) p).

(** [genericpath._splitext(p, sep, altsep, extsep)]: the extension starts
    at the last dot, provided that dot comes after the last separator and
    after some character of the last component that is not a dot. *)
Definition _splitext (p : list ascii) (sep : ascii) (altsep : option ascii)
    (extsep : ascii) : list ascii * list ascii :=
  let sepIndex := rfind p sep in
  let sepIndex :=
    match altsep with
    | Some a => Z.max sepIndex (rfind p a)
    | None => sepIndex
    end in
  let dotIndex := rfind p extsep in
  if (sepIndex <? dotIndex)%Z then
    if forallb (fun a => Ascii.eqb a extsep) (slice p (sepIndex + 1) dotIndex)
    then (p, [])
    else (take (Z.to_nat dotIndex) p, drop (Z.to_nat dotIndex) p)
  else (p, []).

(** [os.path.splitext] *)
Definition splitext (os : OsPath) (p : string) : string * string :=
  let '(root, ext) :=
    _splitext (list_ascii_of_string p) (sep os) (altsep os) "." in
  (string_of_list_ascii root, string_of_list_ascii ext).

Definition is_supported_format (os : OsPath) (file_path : string) : bool :=
  let '(_, ext) := splitext os (MinecraftPalette.lower file_path) in
  bool_decide (ext ∈ SUPPORTED_FORMATS).

End FormatTools.

(** ** dithering.py: palette information *)

Module DithererTools.
Import MinecraftDitherer.

(** The dictionary that [get_palette_info] returns. *)
Record palette_info : Type := {
  color_count : nat;
  colors : list string;
  color_space : string;
  algorithm : string
}.

Definition get_palette_info (self : t) : palette_info :=
  {| color_count := length (MinecraftPalette.carpet_colors (palette self));
     colors := MinecraftPalette.carpet_colors (palette self);
     color_space := "LAB (perceptual)";
     algorithm := "Floyd-Steinberg Error Diffusion" |}.

End DithererTools.

(** ** dithering.py: the palette preview *)

(** [image.save(path)]: whether it raises is decided by the file system. *)
Class FileOps : Type := {
  image_save : Image -> string -> result unit
}.

Module PreviewTools.
Import MinecraftDitherer.

(** [for a in l: body(a)] on the heap, stopping at the first exception. *)
Fixpoint forM {A} (l : list A) (body : A -> M unit) : M unit :=
  match l with
  | [] => retM tt
  | a :: l' => _ <~ body a ;; forM l' body
  end.

(** [image.putpixel((x, y), value)] on an image of three 8-bit bands. *)
Definition putpixel (l : loc) (xy : nat * nat) (value : RGB) : M unit :=
  img <~ deref l ;;
  if (xy.1 <? (size img).1) && (xy.2 <? (size img).2) then
    store l {| mode := mode img; size := size img;
               pixels := alter (fun row => <[xy.1 := ink value]> row) xy.2
                               (pixels img) |}
  else raiseM (IndexError "image index out of range").

(** [enumerate(colors)] *)
Definition enumerate {A} (l : list A) : list (nat * A) := imap (fun i a => (i, a)) l.

Section WithFiles.
Context `{FileOps}.

(** The body of the loop over the colours: the swatch of colour [i]. *)
Definition draw_swatch (preview : loc) (cols swatch_size preview_width preview_height : nat)
    (entry : nat * string) : M unit :=
  let '(i, hex_color) := entry in
  let row := i / cols in
  let col := i mod cols in
  rgb <~ liftM (MinecraftPalette.hex_to_rgb hex_color) ;;
  let x1 := col * swatch_size in
  let y1 := row * swatch_size in
  forM (seq y1 swatch_size) (fun y =>
    forM (seq x1 swatch_size) (fun x =>
      if (x <? preview_width) && (y <? preview_height)
      then putpixel preview (x, y) rgb
      else retM tt)).

(** The part of [save_palette_preview] before the image is saved: the
    preview image with its swatches.  A negative [swatch_size], for which
    [Image.new] raises, is not covered. *)
Definition draw_preview (self : t) (swatch_size : nat) : M loc :=
  let colors := MinecraftPalette.carpet_colors (palette self) in
  let cols := 4 in
  let rows := (length colors + cols - 1) / cols in
  let preview_width := cols * swatch_size in
  let preview_height := rows * swatch_size in
  preview <~ PIL.new "RGB" (preview_width, preview_height) (255, 255, 255)%Z ;;
  _ <~ forM (enumerate colors)
         (draw_swatch preview cols swatch_size preview_width preview_height) ;;
  retM preview.

(** [save_palette_preview]: every exception is caught and turned into
    [False]. *)
Definition save_palette_preview (self : t) (output_path : string) (swatch_size : nat)
  : M bool :=
  fun h =>
    match (preview <~ draw_preview self swatch_size ;;
           img <~ deref preview ;;
           liftM (image_save img output_path)) h with
    | (Ok _, h') => (Ok true, h')
    | (Raise _, h') => (Ok false, h')
    end.

End WithFiles.
End PreviewTools.

(** ** extract_colors.py *)

Module ExtractColors.

(** The body of the loop that removes duplicates while preserving order,
    on the pair of [unique_colors] and [seen]. *)
Definition keep_first (st : list string * gset string) (color : string)
  : list string * gset string :=
  let '(unique_colors, seen) := st in
  if decide (color ∈ seen) then (unique_colors, seen)
  else (unique_colors ++ [color], seen ∪ {[ color ]}).

Definition remove_duplicates (colors : list string) : list string :=
  (foldl keep_first ([], ∅) colors).1.

(** [range(0, n, 3)] *)
Definition range3 (n : nat) : list nat := map (fun k => 3 * k) (seq 0 ((n + 2) / 3)).

(** The value of a byte as [struct.unpack('BBB', ...)] returns it. *)
Definition unpack_B (b : Byte.byte) : Z := Z.of_N (Byte.to_N b).

(** The loop of [extract_from_act_file] over the bytes read: one colour
    for each index [i] of the range that has two more bytes after it. *)
Definition act_colors (data : list Byte.byte) : list string :=
  i ← range3 (length data);
  if i + 2 <? length data then
    match take 3 (drop i data) with
    | [r; g; b] => [PaletteTools.rgb_to_hex (unpack_B r, unpack_B g, unpack_B b)]
    | _ => []
    end
  else [].

(** [extract_from_act_file]; the argument is the content of the file, or
    [None] when it cannot be opened. *)
Definition extract_from_act_file (file : option (list Byte.byte)) : list string :=
  let colors :=
    match file with
    | Some content => act_colors (take 768 content)
    | None => []
    end in
  remove_duplicates colors.

(** [[0-9A-Fa-f]] *)
Definition is_hex (a : ascii) : bool :=
  match MinecraftPalette.hex_digit a with
  | Some _ => true
  | None => false
  end.

(** Six hexadecimal digits at the start of [l]. *)
Definition hex6 (l : list ascii) : option (list ascii) :=
  let g := take 6 l in
  if (length g =? 6) && forallb is_hex g then Some g else None.

(** A match of the pattern [#?([0-9A-Fa-f]{6})] at the start of [l]: the
    group and the length of the match.  When a hash is not followed by
    six digits the pattern is tried without it, and fails on the hash. *)
Definition match_hex (l : list ascii) : option (list ascii * nat) :=
  match l with
  | "#"%char :: u => (fun g => (g, 7)) <$> hex6 u
  | _ => (fun g => (g, 6)) <$> hex6 l
  end.

(** [hex_pattern.findall(content)]: the groups of the matches found from
    left to right, each search starting where the last match ended;
    [skip] characters of the last match are still to be passed. *)
Fixpoint findall (skip : nat) (content : list ascii) : list (list ascii) :=
  match content with
  | [] => []
  | _ :: rest =>
      match skip with
      | S skip' => findall skip' rest
      | 0 =>
          match match_hex content with
          | Some (g, n) => g :: findall (n - 1) rest
          | None => findall 0 rest
          end
      end
  end.

(** [extract_from_text_file]; the argument is the text of the file, or
    [None] when it cannot be read. *)
Definition extract_from_text_file (file : option string) : list string :=
  let colors :=
    match file with
    | Some content =>
        map (fun m => String "#" (upper (string_of_list_ascii m)))
            (findall 0 (list_ascii_of_string content))
    | None => []
    end in
  remove_duplicates colors.

End ExtractColors.

(** ** Further notions used by the statements *)

(** Pixel (i, j) of an image: column [i] of row [j]. *)
Definition pixel (img : Image) (i j : nat) : option RGB :=
  row ← pixels img !! j; row !! i.

(** A resampling for examples: the canvas of the requested size, black. *)
#[local] Instance black_resize : PILResizeOps :=
  {| resize_to := fun img sz => Ok (PIL.blank (mode img) sz (0, 0, 0)%Z) |}.

(** What a canvas of size [ms] shows at (i, j) when [img] lies in its
    centre: the pixel of [img] inside the box of [img], black around it. *)
Definition centred (img : Image) (ms : nat * nat) (i j : nat) : option RGB :=
  let x0 := (ms.1 - (size img).1) / 2 in
  let y0 := (ms.2 - (size img).2) / 2 in
  if decide (x0 <= i < x0 + (size img).1 /\ y0 <= j < y0 + (size img).2)
  then pixel img (i - x0) (j - y0)
  else Some (0, 0, 0)%Z.

(** The palette colour that the LAB lookup returns for [rgb]. *)
Definition closest `{Float64Ops} (p : MinecraftPalette.t) (rgb : RGB) : option RGB :=
  match MinecraftPalette.find_closest_color p rgb "lab" with
  | Ok (_, c, _) => Some c
  | Raise _ => None
  end.

(** The values of [processed_pixels] at which a sweep of [total] pixels
    calls [_update_progress]: the multiples of 1000 up to [total], in
    order, and [total] once more at the end. *)
Definition notifications (total : nat) : list nat :=
  filter (fun n => n mod 1000 = 0) (seq 1 total) ++ [total].

(** [_update_progress] called at each of these counts in turn, up to the
    first call that raises. *)
Definition notify (self : MinecraftDitherer.t) (total : nat) : result unit :=
  foldM (fun _ n => MinecraftDitherer._update_progress (used self n total))
        (notifications total) tt.

(** [a] separates the components of a path. *)
Definition is_sep (os : OsPath) (a : ascii) : Prop :=
  a = sep os \/ altsep os = Some a.

(** The index of the last separator of a path, as [_splitext] computes
    it. *)
Definition path_sep_index (os : OsPath) (p : list ascii) : Z :=
  match altsep os with
  | Some a => Z.max (FormatTools.rfind p (sep os)) (FormatTools.rfind p a)
  | None => FormatTools.rfind p (sep os)
  end.

(** What the palette preview with swatches of [s] pixels shows at (x, y):
    the colour of the entry whose swatch covers the pixel, in rows of four
    swatches, and white where there is no entry. *)
Definition swatch_at (colors : list RGB) (s x y : nat) : RGB :=
  default (255, 255, 255)%Z (colors !! (4 * (y / s) + x / s)).

(** A file system on which every image can be saved. *)
#[local] Instance writable_files : FileOps := {| image_save := fun _ _ => Ok tt |}.

(** * Properties *)

(** ** Results, indexing and arrays *)

Lemma bind_ok {A B} (m : result A) (f : A -> result B) (b : B) :
  (m ≫= f) = Ok b -> exists a, m = Ok a /\ f a = Ok b.
Proof. destruct m as [a|e]; simpl; [eauto | discriminate]. Qed.

Lemma py_index_nat (n i : nat) : i < n -> py_index n (Z.of_nat i) = Ok i.
Proof.
  intros Hi. unfold py_index.
  destruct (Z.leb_spec 0 (Z.of_nat i)); [|lia].
  destruct (Z.ltb_spec (Z.of_nat i) (Z.of_nat n)); [|lia].
  by rewrite Nat2Z.id.
Qed.

Lemma getitem_nat {A} (l : list A) (i : nat) (a : A) :
  l !! i = Some a -> getitem l (Z.of_nat i) = Ok a.
Proof.
  intros Hl. unfold getitem.
  rewrite py_index_nat by (by eapply lookup_lt_Some). simpl. by rewrite Hl.
Qed.

Lemma getitem_ok_nat {A} (l : list A) (i : nat) (a : A) :
  getitem l (Z.of_nat i) = Ok a -> l !! i = Some a.
Proof.
  unfold getitem, py_index.
  destruct (Z.leb_spec 0 (Z.of_nat i)); [|lia].
  destruct (Z.ltb_spec (Z.of_nat i) (Z.of_nat (length l))); simpl; [|discriminate].
  rewrite Nat2Z.id. destruct (l !! i); congruence.
Qed.

Lemma setitem_nat {A} (l : list A) (i : nat) (a : A) :
  i < length l -> setitem l (Z.of_nat i) a = Ok (<[i := a]> l).
Proof. intros Hi. unfold setitem. by rewrite py_index_nat. Qed.

Lemma cell_lt {A} (a : array3 A) (i j : nat) (v : A) :
  wf_array a -> cell a i j = Some v -> i < width a /\ j < height a.
Proof.
  intros [Hh Hw] Hc. unfold cell in Hc.
  destruct (cells a !! j) as [row|] eqn:Hrow; simpl in Hc; [|discriminate].
  split.
  - rewrite <- (Forall_lookup_1 _ _ _ _ Hw Hrow). by eapply lookup_lt_Some.
  - rewrite <- Hh. by eapply lookup_lt_Some.
Qed.

Lemma cell_is_Some {A} (a : array3 A) (i j : nat) :
  wf_array a -> i < width a -> j < height a -> is_Some (cell a i j).
Proof.
  intros [Hh Hw] Hi Hj. unfold cell.
  destruct (lookup_lt_is_Some_2 (cells a) j) as [row Hrow]; [lia|].
  rewrite Hrow. simpl. apply lookup_lt_is_Some_2.
  by rewrite (Forall_lookup_1 _ _ _ _ Hw Hrow).
Qed.

Lemma get2_cell {A} (a : array3 A) (i j : nat) (v : A) :
  cell a i j = Some v -> get2 a (Z.of_nat j) (Z.of_nat i) = Ok v.
Proof.
  unfold cell, get2. intros Hc.
  destruct (cells a !! j) as [row|] eqn:Hrow; simpl in Hc; [|discriminate].
  rewrite (getitem_nat _ _ _ Hrow). simpl. by apply getitem_nat.
Qed.

Lemma get2_ok_cell {A} (a : array3 A) (i j : nat) (v : A) :
  get2 a (Z.of_nat j) (Z.of_nat i) = Ok v -> cell a i j = Some v.
Proof.
  unfold cell, get2. intros Hg.
  apply bind_ok in Hg as (row & Hrow & Hg).
  apply getitem_ok_nat in Hrow. apply getitem_ok_nat in Hg.
  by rewrite Hrow.
Qed.

(** Writing cell (i, j) of a well-formed array succeeds, keeps the shape and
    changes that cell only. *)
Lemma set2_cell {A} (a : array3 A) (i j : nat) (v : A) :
  wf_array a -> i < width a -> j < height a ->
  exists a', set2 a (Z.of_nat j) (Z.of_nat i) v = Ok a'
    /\ wf_array a' /\ same_shape a' a
    /\ forall i' j', cell a' i' j'
         = if decide (i' = i /\ j' = j) then Some v else cell a i' j'.
Proof.
  intros [Hh Hw] Hi Hj.
  destruct (lookup_lt_is_Some_2 (cells a) j) as [row Hrow]; [lia|].
  assert (length row = width a) as Hlen
    by apply (Forall_lookup_1 _ _ _ _ Hw Hrow).
  unfold set2. rewrite (getitem_nat _ _ _ Hrow). simpl.
  rewrite setitem_nat by lia. simpl.
  rewrite setitem_nat by lia. simpl.
  eexists. split; [reflexivity|]. split; [|split].
  - split; simpl.
    + by rewrite length_insert.
    + apply Forall_insert; [done|]. by rewrite length_insert.
  - done.
  - intros i' j'. unfold cell. simpl.
    destruct (decide (j' = j)) as [->|Hne].
    + rewrite list_lookup_insert_eq by lia. simpl.
      destruct (decide (i' = i)) as [->|Hne'].
      * rewrite list_lookup_insert_eq by lia.
        by rewrite decide_True.
      * rewrite list_lookup_insert_ne by done.
        rewrite decide_False by tauto. by rewrite Hrow.
    + rewrite list_lookup_insert_ne by done.
      by rewrite decide_False by tauto.
Qed.

Lemma pixel_order_elem (h w x y : nat) :
  (x, y) ∈ MinecraftDitherer.pixel_order h w <-> x < w /\ y < h.
Proof.
  unfold MinecraftDitherer.pixel_order, range.
  rewrite list_elem_of_bind. split.
  - intros (y' & Hx & Hy). apply list_elem_of_bind in Hx as (x' & Hxy & Hx).
    apply list_elem_of_singleton in Hxy. inversion Hxy; subst.
    apply elem_of_seq in Hx, Hy. lia.
  - intros [Hx Hy]. exists y. split; [|apply elem_of_seq; lia].
    apply list_elem_of_bind. exists x. split; [by apply list_elem_of_singleton|].
    apply elem_of_seq; lia.
Qed.

(** ** The palette *)

Section Palette.
Context `{Float64Ops}.
Import MinecraftPalette.

Lemma mapM_length {A B} (f : A -> result B) (l : list A) (bs : list B) :
  mapM f l = Ok bs -> length bs = length l.
Proof.
  revert bs. induction l as [|a l IH]; simpl; intros bs Hm.
  - by inversion Hm.
  - apply bind_ok in Hm as (b & _ & Hm). apply bind_ok in Hm as (bs' & Hbs & Hm).
    inversion Hm; subst. simpl. f_equal. by apply IH.
Qed.

Lemma mapM_Forall {A B} (f : A -> result B) (P : B -> Prop) (l : list A) (bs : list B) :
  (forall a b, f a = Ok b -> P b) -> mapM f l = Ok bs -> Forall P bs.
Proof.
  intros Hf. revert bs. induction l as [|a l IH]; simpl; intros bs Hm.
  - inversion Hm. constructor.
  - apply bind_ok in Hm as (b & Hb & Hm). apply bind_ok in Hm as (bs' & Hbs & Hm).
    inversion Hm; subst. constructor; eauto.
Qed.

Lemma hex_digit_range (c : ascii) (d : Z) : hex_digit c = Some d -> (0 <= d <= 15)%Z.
Proof.
  unfold hex_digit. intros Hd.
  repeat match type of Hd with
  | (if ?b then _ else _) = _ => destruct b eqn:?
  end; inversion Hd; subst; clear Hd;
  repeat match goal with
  | Hb : _ && _ = true |- _ => apply andb_true_iff in Hb as [? ?]
  | Hb : (_ <=? _) = true |- _ => apply Nat.leb_le in Hb
  end; lia.
Qed.

(** What the constructor returns has an entry in its tables for each
    colour code of the list it was given, which it keeps. *)
Lemma init_built (colors : list string) (p : t) :
  init colors = Ok p -> built_palette p /\ carpet_colors p = colors.
Proof.
  unfold init. destruct colors as [|c cs]; [discriminate|].
  intros Hp. apply bind_ok in Hp as (rgbs & Hrgbs & Hp). inversion Hp; subst; clear Hp.
  split; [|done]. unfold built_palette; simpl.
  pose proof (mapM_length _ _ _ Hrgbs) as Hlen. simpl in Hlen.
  repeat split.
  - intros ->. discriminate.
  - by rewrite Hlen.
Qed.

(** It is a palette of bytes when every channel that was read is a byte. *)
Lemma init_wf (colors : list string) (p : t) :
  init colors = Ok p -> Forall rgb_uint8 (colors_rgb p) ->
  wf_palette p /\ carpet_colors p = colors.
Proof.
  intros Hp Hbytes. destruct (init_built _ _ Hp) as [(Hne & Hlen & Hlab) Hcolors].
  by repeat split.
Qed.

Lemma wf_built (p : t) : wf_palette p -> built_palette p.
Proof. intros (? & ? & ? & _). by repeat split. Qed.

Lemma argmin_scan_first_minimum (rest pre : list Q) (mp : Q) (k : nat) :
  pre !! k = Some mp ->
  (forall j d, pre !! j = Some d -> (mp <= d)%Q) ->
  (forall j d, j < k -> pre !! j = Some d -> (mp < d)%Q) ->
  first_minimum (pre ++ rest) (argmin_scan mp k (length pre) rest).
Proof.
  revert pre mp k. induction rest as [|d rest IH]; intros pre mp k Hk Hle Hlt; simpl.
  - rewrite app_nil_r. exists mp. auto.
  - assert (Hpre : S (length pre) = length (pre ++ [d]))
      by (rewrite length_app; simpl; lia).
    replace (pre ++ d :: rest) with ((pre ++ [d]) ++ rest) by (by rewrite <- app_assoc).
    rewrite Hpre.
    destruct (Qle_bool mp d) eqn:Hcmp.
    + apply Qle_bool_iff in Hcmp. apply IH.
      * rewrite lookup_app_l; [done|]. by eapply lookup_lt_Some.
      * intros j e He. destruct (decide (j < length pre)) as [Hj|Hj].
        -- rewrite lookup_app_l in He by done. eauto.
        -- rewrite lookup_app_r in He by lia.
           destruct (j - length pre) as [|n]; simpl in He; [|by destruct n].
           by inversion He; subst.
      * intros j e Hjk He. apply (Hlt j e Hjk).
        rewrite lookup_app_l in He; [done|].
        apply lookup_lt_Some in Hk. lia.
    + assert (d < mp)%Q as Hd.
      { apply Qnot_le_lt. intros Hc. apply Qle_bool_iff in Hc. congruence. }
      apply IH.
      * rewrite lookup_app_r by lia. by rewrite Nat.sub_diag.
      * intros j e He. destruct (decide (j < length pre)) as [Hj|Hj].
        -- rewrite lookup_app_l in He by done.
           apply Qlt_le_weak. eapply Qlt_le_trans; [exact Hd|]. eauto.
        -- rewrite lookup_app_r in He by lia.
           destruct (j - length pre) as [|n]; simpl in He; [|by destruct n].
           inversion He; subst. apply Qle_refl.
      * intros j e Hj He. rewrite lookup_app_l in He by done.
        eapply Qlt_le_trans; [exact Hd|]. eauto.
Qed.

Lemma np_argmin_first_minimum (a : list Q) :
  a <> [] -> exists k, np_argmin a = Ok k /\ first_minimum a k.
Proof.
  destruct a as [|d rest]; [done|]. intros _. eexists. split; [reflexivity|].
  apply (argmin_scan_first_minimum rest [d] d 0).
  - done.
  - intros [|[|j]] e He; simpl in He; inversion He; subst. apply Qle_refl.
  - lia.
Qed.

Lemma distances_length (p : t) (target : RGB) (method : string) :
  built_palette p -> length (distances p target method) = length (colors_rgb p).
Proof.
  intros (_ & _ & Hlab). unfold distances, lab_distances, rgb_distances.
  destruct (String.eqb _ _); rewrite ?Hlab, !length_map; done.
Qed.

(** The lookup succeeds on a palette that the constructor built and
    returns the entry at the first minimum of the distances. *)
Lemma find_closest_color_spec (p : t) (target : RGB) (method : string) :
  built_palette p ->
  exists idx rgb hex,
    find_closest_color p target method = Ok (idx, rgb, hex)
    /\ colors_rgb p !! idx = Some rgb
    /\ carpet_colors p !! idx = Some hex
    /\ first_minimum (distances p target method) idx.
Proof.
  intros Hwf. pose proof (distances_length p target method Hwf) as Hlen.
  destruct Hwf as (Hne & Hcc & Hlab).
  destruct (np_argmin_first_minimum (distances p target method)) as (k & Hk & Hmin).
  { intros Hnil. rewrite Hnil in Hlen. destruct (colors_rgb p); simpl in *; done. }
  assert (k < length (colors_rgb p)) as Hlt.
  { destruct Hmin as (m & Hm & _). apply lookup_lt_Some in Hm. lia. }
  destruct (lookup_lt_is_Some_2 (colors_rgb p) k Hlt) as [rgb Hrgb].
  destruct (lookup_lt_is_Some_2 (carpet_colors p) k) as [hex Hhex]; [lia|].
  exists k, rgb, hex. repeat split; try done.
  unfold find_closest_color, distances in *.
  destruct (String.eqb _ _); unfold find_closest_color_lab, find_closest_color_rgb;
    rewrite Hk; simpl; unfold closest_entry;
    rewrite (getitem_nat _ _ _ Hrgb); simpl; by rewrite (getitem_nat _ _ _ Hhex).
Qed.

Lemma distances_twin (p : t) (target : RGB) (method : string) (c : RGB) (rest : list RGB) :
  wf_palette p -> colors_rgb p = c :: c :: rest ->
  exists d ds, distances p target method = d :: d :: ds
               /\ length ds = length rest.
Proof.
  intros (_ & _ & Hlab & _) Hc. unfold distances, lab_distances, rgb_distances.
  rewrite Hlab, Hc. destruct (String.eqb _ _); simpl;
    eexists _, _; (split; [reflexivity|]); by rewrite ?length_map.
Qed.

(** C2. On every non-empty palette and for every target colour, nearest
    colour lookup under either metric returns the lowest index among the
    entries at minimum distance, with the colour at that index.  When the
    first two entries are the same colour, index 1 is never returned, and
    index 0 is returned whenever these twins are at minimum distance; on a
    palette of two identical colours index 0 is returned. *)
Theorem find_closest_color_lowest_index (p : t) (target : RGB) (method : string) :
  wf_palette p ->
  exists idx rgb hex,
    find_closest_color p target method = Ok (idx, rgb, hex)
    /\ colors_rgb p !! idx = Some rgb
    /\ first_minimum (distances p target method) idx
    /\ (forall c rest, colors_rgb p = c :: c :: rest ->
          idx <> 1
          /\ ((forall d0 j d, distances p target method !! 0 = Some d0 ->
                 distances p target method !! j = Some d -> (d0 <= d)%Q) -> idx = 0)
          /\ (rest = [] -> idx = 0)).
Proof.
  intros Hwf.
  destruct (find_closest_color_spec p target method (wf_built _ Hwf))
    as (idx & rgb & hex & Hfind & Hrgb & _ & Hmin).
  exists idx, rgb, hex. split; [done|]. split; [done|]. split; [done|].
  intros c rest Hcc. split; [|split].
  - intros ->. destruct (distances_twin p target method c rest Hwf Hcc)
      as (d & ds & Hd & _).
    destruct Hmin as (m & Hm & _ & Hlt). rewrite Hd in Hm, Hlt.
    simpl in Hm. inversion Hm; subst.
    specialize (Hlt 0 m ltac:(lia) eq_refl). by apply Qlt_irrefl in Hlt.
  - intros Hfirst. destruct (distances_twin p target method c rest Hwf Hcc)
      as (d & ds & Hd & _).
    destruct Hmin as (m & Hm & _ & Hlt).
    destruct idx as [|idx]; [done|]. exfalso.
    assert (distances p target method !! 0 = Some d) as H0d by (by rewrite Hd).
    specialize (Hfirst d (S idx) m H0d Hm).
    specialize (Hlt 0 d ltac:(lia) H0d).
    apply (Qlt_irrefl m). eapply Qlt_le_trans; eauto.
  - intros ->. destruct (distances_twin p target method c [] Hwf Hcc)
      as (d & ds & Hd & Hds).
    destruct ds; [|discriminate].
    destruct Hmin as (m & Hm & _ & Hlt). rewrite Hd in Hm, Hlt.
    destruct idx as [|[|idx]]; [done| |done]. exfalso.
    simpl in Hm. inversion Hm; subst.
    specialize (Hlt 0 m ltac:(lia) eq_refl). by apply Qlt_irrefl in Hlt.
Qed.

End Palette.

(** Lookups on palettes with repeated colours, under both metrics, with the
    arithmetic of [exact_floats]. *)
Example find_closest_color_ties :
  MinecraftPalette.find_closest_color twin_palette (10, 200, 30)%Z "lab"
    = Ok (0, (128, 128, 128)%Z, "#808080"%string)
  /\ MinecraftPalette.find_closest_color twin_palette (10, 200, 30)%Z "rgb"
      = Ok (0, (128, 128, 128)%Z, "#808080"%string)
  /\ (p ← MinecraftPalette.init ["#FFFFFF"; "#101010"; "#101010"; "#000000"]%string;
       MinecraftPalette.find_closest_color p (12, 12, 12)%Z "LAB")
      = Ok (1, (16, 16, 16)%Z, "#101010"%string).
Proof. repeat split; vm_compute; reflexivity. Qed.

Lemma twin_palette_wf : wf_palette twin_palette.
Proof.
  unfold wf_palette, twin_palette; simpl. repeat split; try done.
  repeat constructor; unfold is_uint8; simpl; lia.
Defined.

Lemma find_closest_color_lowest_index_witness :
  wf_palette twin_palette
  /\ exists idx rgb hex,
       MinecraftPalette.find_closest_color twin_palette (10, 200, 30)%Z "lab"
         = Ok (idx, rgb, hex)
       /\ MinecraftPalette.colors_rgb twin_palette !! idx = Some rgb
       /\ first_minimum
            (MinecraftPalette.distances twin_palette (10, 200, 30)%Z "lab") idx
       /\ (forall c rest, MinecraftPalette.colors_rgb twin_palette = c :: c :: rest ->
             idx <> 1
             /\ ((forall d0 j d,
                    MinecraftPalette.distances twin_palette (10, 200, 30)%Z "lab" !! 0
                      = Some d0 ->
                    MinecraftPalette.distances twin_palette (10, 200, 30)%Z "lab" !! j
                      = Some d -> (d0 <= d)%Q) -> idx = 0)
             /\ (rest = [] -> idx = 0)).
Proof.
  split; [exact twin_palette_wf|].
  apply (find_closest_color_lowest_index twin_palette (10, 200, 30)%Z "lab").
  exact twin_palette_wf.
Defined.

(** ** Error diffusion at one pixel *)

Section Diffusion.
Import MinecraftDitherer Stencil.

Lemma in_bounds_spec {A} (a : array3 A) (nx ny : Z) :
  in_bounds a nx ny = true
  <-> (0 <= nx < Z.of_nat (width a))%Z /\ (0 <= ny < Z.of_nat (height a))%Z.
Proof.
  unfold in_bounds. rewrite !andb_true_iff, !Z.leb_le, !Z.ltb_lt. lia.
Qed.

Lemma same_shape_trans {A B C} (a : array3 A) (b : array3 B) (c : array3 C) :
  same_shape a b -> same_shape b c -> same_shape a c.
Proof. unfold same_shape. intros [-> ->] [-> ->]. done. Qed.

(** A guarded update never raises; it rewrites the addressed cell, if the
    buffer has it, and no other. *)
Lemma diffuse_at_spec (error : floats3) (w : Q) (n : Z * Z) (a : array3 floats3) :
  wf_array a ->
  exists a', diffuse_at error w n a = Ok a'
    /\ wf_array a' /\ same_shape a' a
    /\ forall i j, cell a' i j
         = if decide (Z.of_nat i = n.1 /\ Z.of_nat j = n.2)
           then (fun old => clip3 (add3 old (scale3 error w))) <$> cell a i j
           else cell a i j.
Proof.
  intros Hwf. unfold diffuse_at. destruct n as [nx ny]; simpl.
  destruct (in_bounds a nx ny) eqn:Hin.
  - apply in_bounds_spec in Hin as [Hx Hy].
    assert (Hnx : nx = Z.of_nat (Z.to_nat nx)) by lia.
    assert (Hny : ny = Z.of_nat (Z.to_nat ny)) by lia.
    destruct (cell_is_Some a (Z.to_nat nx) (Z.to_nat ny) Hwf) as [old Hold]; [lia..|].
    destruct (set2_cell a (Z.to_nat nx) (Z.to_nat ny)
                (clip3 (add3 old (scale3 error w))) Hwf) as (a' & Hset & Hwf' & Hsh & Hc);
      [lia..|].
    exists a'. repeat split; try done.
    + unfold add_error. rewrite Hnx, Hny, (get2_cell _ _ _ _ Hold). simpl. exact Hset.
    + apply Hwf'.
    + apply Hwf'.
    + apply Hsh.
    + apply Hsh.
    + intros i j. rewrite Hc.
      destruct (decide (i = Z.to_nat nx /\ j = Z.to_nat ny)) as [[-> ->]|Hne].
      * rewrite decide_True by lia. by rewrite Hold.
      * by rewrite decide_False by lia.
  - exists a. repeat split; try apply Hwf.
    intros i j. destruct (decide _) as [[Hi Hj]|]; [|done].
    destruct (cell a i j) as [v|] eqn:Hv; [|done].
    apply cell_lt in Hv as [? ?]; [|done].
    assert (in_bounds a nx ny = true) by (apply in_bounds_spec; lia). congruence.
Qed.

Lemma diffuse_entry_weight (self : t) (x y : nat) (error : floats3)
    (a : array3 floats3) (d : nat * nat) (w : Q) :
  weight_at (error_matrix self) d = Some w ->
  diffuse_entry self x y error a d
  = if Qlt_le_dec 0 w then diffuse_at error w (neighbor x y d.1 d.2) a else Ok a.
Proof.
  unfold weight_at, diffuse_entry, diffuse_at. destruct d as [dy dx]; cbn [fst snd].
  intros Hw. destruct (error_matrix self !! dy) as [row|] eqn:Hrow; [|done].
  simpl in Hw. destruct (neighbor x y dy dx) as [nx ny]; cbn [fst snd].
  destruct (in_bounds a nx ny); [|by destruct (Qlt_le_dec 0 w)].
  rewrite (getitem_nat _ _ _ Hrow). cbn [mbind result_bind].
  by rewrite (getitem_nat _ _ _ Hw).
Qed.

Lemma Qlt_le_dec_pos (w : Q) (B : Type) (u v : B) :
  (0 < w)%Q -> (if Qlt_le_dec 0 w then u else v) = u.
Proof.
  intros Hw. destruct (Qlt_le_dec 0 w) as [|Hle]; [done|].
  exfalso. by apply (Qlt_not_le _ _ Hw).
Qed.

Lemma Qlt_le_dec_zero (B : Type) (u v : B) :
  (if Qlt_le_dec 0 0 then u else v) = v.
Proof. destruct (Qlt_le_dec 0 0) as [Hlt|]; [|done]. by apply Qlt_irrefl in Hlt. Qed.

(** With the matrix of [__init__] the two loops are four guarded updates. *)
Lemma apply_error_diffusion_unfold (self : t) (a : array3 floats3) (x y : nat)
    (error : floats3) :
  error_matrix self = floyd_steinberg ->
  _apply_error_diffusion self a x y error
  = (a1 ← diffuse_at error (7 # 16) (neighbor x y 0 2) a;
     a2 ← diffuse_at error (3 # 16) (neighbor x y 1 0) a1;
     a3 ← diffuse_at error (5 # 16) (neighbor x y 1 1) a2;
     diffuse_at error (1 # 16) (neighbor x y 1 2) a3).
Proof.
  intros Hm. unfold _apply_error_diffusion.
  assert (Hw : forall d w, weight_at floyd_steinberg d = Some w ->
                 weight_at (error_matrix self) d = Some w) by (by rewrite Hm).
  replace (matrix_entries (error_matrix self))
    with [(0, 0); (0, 1); (0, 2); (1, 0); (1, 1); (1, 2)] by (by rewrite Hm).
  cbn [foldM].
  rewrite (diffuse_entry_weight self x y error a (0, 0) 0) by (by apply Hw).
  rewrite Qlt_le_dec_zero. cbn [mbind result_bind].
  rewrite (diffuse_entry_weight self x y error a (0, 1) 0) by (by apply Hw).
  rewrite Qlt_le_dec_zero. cbn [mbind result_bind].
  rewrite (diffuse_entry_weight self x y error a (0, 2) (7 # 16)) by (by apply Hw).
  rewrite Qlt_le_dec_pos by done.
  destruct (diffuse_at error (7 # 16) _ a) as [a1|]; [|done]. cbn [mbind result_bind].
  rewrite (diffuse_entry_weight self x y error a1 (1, 0) (3 # 16)) by (by apply Hw).
  rewrite Qlt_le_dec_pos by done.
  destruct (diffuse_at error (3 # 16) _ a1) as [a2|]; [|done]. cbn [mbind result_bind].
  rewrite (diffuse_entry_weight self x y error a2 (1, 1) (5 # 16)) by (by apply Hw).
  rewrite Qlt_le_dec_pos by done.
  destruct (diffuse_at error (5 # 16) _ a2) as [a3|]; [|done]. cbn [mbind result_bind].
  rewrite (diffuse_entry_weight self x y error a3 (1, 2) (1 # 16)) by (by apply Hw).
  rewrite Qlt_le_dec_pos by done.
  by destruct (diffuse_at error (1 # 16) _ a3).
Qed.

(** Error diffusion on a well-formed buffer never raises, keeps the shape,
    and leaves in every cell what [Stencil.diffused] says: the clamped sum
    for a neighbour of (x, y), the old value elsewhere. *)
Lemma apply_error_diffusion_cells (self : t) (a : array3 floats3) (x y : nat)
    (error : floats3) :
  error_matrix self = floyd_steinberg -> wf_array a ->
  exists a', _apply_error_diffusion self a x y error = Ok a'
    /\ wf_array a' /\ same_shape a' a
    /\ forall i j, cell a' i j = diffused x y error i j <$> cell a i j.
Proof.
  intros Hm Hwf. rewrite (apply_error_diffusion_unfold _ _ _ _ _ Hm).
  destruct (diffuse_at_spec error (7 # 16) (neighbor x y 0 2) a Hwf)
    as (a1 & -> & Hwf1 & Hs1 & Hc1).
  destruct (diffuse_at_spec error (3 # 16) (neighbor x y 1 0) a1 Hwf1)
    as (a2 & E2 & Hwf2 & Hs2 & Hc2).
  destruct (diffuse_at_spec error (5 # 16) (neighbor x y 1 1) a2 Hwf2)
    as (a3 & E3 & Hwf3 & Hs3 & Hc3).
  destruct (diffuse_at_spec error (1 # 16) (neighbor x y 1 2) a3 Hwf3)
    as (a4 & E4 & Hwf4 & Hs4 & Hc4).
  cbn [mbind result_bind]. rewrite E2. cbn [mbind result_bind].
  rewrite E3. cbn [mbind result_bind]. rewrite E4.
  exists a4. split; [done|]. split; [done|]. split.
  { eauto using same_shape_trans. }
  intros i j. rewrite Hc4, Hc3, Hc2, Hc1.
  unfold diffused, neighbor; cbn [fst snd].
  destruct (stencil_weight x y i j) as [w|] eqn:Hsw; unfold stencil_weight in Hsw;
    repeat match type of Hsw with
    | context [Nat.eqb ?u ?v] => destruct (Nat.eqb_spec u v)
    end; cbn [andb] in Hsw; try discriminate; try (inversion Hsw; subst w);
    repeat (destruct (decide _) as [[? ?]|?]); try lia;
    by destruct (cell a i j).
Qed.

(** The entries applied at (x, y) under the matrix of [__init__]. *)
Lemma applied_floyd {A} (self : t) (a : array3 A) (x y : nat) :
  error_matrix self = floyd_steinberg ->
  applied self a x y
  = (if in_bounds a (neighbor x y 0 2).1 (neighbor x y 0 2).2
     then [(neighbor x y 0 2, 7 # 16)] else [])
    ++ (if in_bounds a (neighbor x y 1 0).1 (neighbor x y 1 0).2
        then [(neighbor x y 1 0, 3 # 16)] else [])
    ++ (if in_bounds a (neighbor x y 1 1).1 (neighbor x y 1 1).2
        then [(neighbor x y 1 1, 5 # 16)] else [])
    ++ (if in_bounds a (neighbor x y 1 2).1 (neighbor x y 1 2).2
        then [(neighbor x y 1 2, 1 # 16)] else []).
Proof.
  intros Hm. unfold applied. rewrite Hm.
  change (matrix_entries floyd_steinberg)
    with [(0, 0); (0, 1); (0, 2); (1, 0); (1, 1); (1, 2)].
  unfold neighbor. cbn [mbind list_bind fst snd app weight_at].
  repeat match goal with
  | |- context [in_bounds a ?u ?v] => destruct (in_bounds a u v)
  end; reflexivity.
Qed.

(** An applied entry addresses a cell inside the buffer, and that cell is
    the neighbour that [Stencil.stencil_weight] gives its weight. *)
Lemma applied_in_bounds {A} (self : t) (a : array3 A) (x y : nat) (n : Z * Z * Q) :
  error_matrix self = floyd_steinberg ->
  n ∈ applied self a x y ->
  (0 <= n.1.1 < Z.of_nat (width a))%Z /\ (0 <= n.1.2 < Z.of_nat (height a))%Z
  /\ stencil_weight x y (Z.to_nat n.1.1) (Z.to_nat n.1.2) = Some n.2.
Proof.
  intros Hm Hn. rewrite (applied_floyd _ _ _ _ Hm) in Hn.
  repeat (apply elem_of_app in Hn as [Hn|Hn]);
    match type of Hn with
    | _ ∈ (if ?b then _ else _) => destruct b eqn:Hin; [|by apply elem_of_nil in Hn]
    end;
    apply list_elem_of_singleton in Hn; subst n;
    apply in_bounds_spec in Hin; unfold neighbor in *; cbn [fst snd] in *;
    (split; [lia|]); (split; [lia|]);
    unfold stencil_weight;
    repeat match goal with
    | |- context [Nat.eqb ?u ?v] => destruct (Nat.eqb_spec u v)
    end; cbn [andb]; try lia; done.
Qed.

Lemma eq3_refl (a : floats3) : eq3 a a.
Proof. unfold eq3. repeat split; apply Qeq_refl. Qed.

Lemma eq3_sym (a b : floats3) : eq3 a b -> eq3 b a.
Proof. unfold eq3. intros (? & ? & ?). repeat split; by apply Qeq_sym. Qed.

Lemma eq3_trans (a b c : floats3) : eq3 a b -> eq3 b c -> eq3 a c.
Proof.
  unfold eq3. intros (? & ? & ?) (? & ? & ?). repeat split; eapply Qeq_trans; eauto.
Qed.

Lemma sum3_pointwise {A} (f g : A -> floats3) (l : list A) :
  (forall n, n ∈ l -> eq3 (f n) (g n)) -> eq3 (sum3 (map f l)) (sum3 (map g l)).
Proof.
  induction l as [|n l IH]; intros Hfg; simpl; [apply eq3_refl|].
  assert (eq3 (f n) (g n)) as Hn by (apply Hfg; left).
  assert (eq3 (sum3 (map f l)) (sum3 (map g l))) as Hl
    by (apply IH; intros; apply Hfg; by right).
  destruct (f n) as [[? ?] ?], (g n) as [[? ?] ?],
    (sum3 (map f l)) as [[? ?] ?], (sum3 (map g l)) as [[? ?] ?].
  unfold eq3 in *; simpl in *. destruct Hn as (? & ? & ?), Hl as (? & ? & ?).
  repeat split; lra.
Qed.

(** The shares add up to the error times the sum of their weights. *)
Lemma sum3_scale (error : floats3) (l : list (Z * Z * Q)) :
  eq3 (sum3 (map (fun n => scale3 error n.2) l)) (scale3 error (sumQ (map snd l))).
Proof.
  destruct error as [[e0 e1] e2].
  induction l as [|n l IH]; simpl.
  - unfold eq3; simpl. repeat split; ring.
  - destruct (sum3 (map _ l)) as [[? ?] ?].
    unfold eq3 in *; simpl in *. destruct IH as (? & ? & ?).
    repeat split; lra.
Qed.

Lemma np_clip_in_range (v : Q) : in_range (np_clip v).
Proof.
  unfold in_range, np_clip.
  destruct (Q.max_spec v 0) as [[? E1]|[? E1]],
    (Q.min_spec (Qmax v 0) 255) as [[? E2]|[? E2]]; lra.
Qed.

Lemma np_clip_id (v : Q) : in_range v -> (np_clip v == v)%Q.
Proof.
  unfold in_range, np_clip. intros [? ?].
  destruct (Q.max_spec v 0) as [[? E1]|[? E1]],
    (Q.min_spec (Qmax v 0) 255) as [[? E2]|[? E2]]; lra.
Qed.

Lemma clip3_in_range (v : floats3) : in_range3 (clip3 v).
Proof.
  destruct v as [[? ?] ?]. unfold in_range3; simpl.
  repeat split; apply np_clip_in_range.
Qed.

Lemma clip3_id (v : floats3) : in_range3 v -> eq3 (clip3 v) v.
Proof.
  destruct v as [[? ?] ?]. unfold in_range3, eq3; simpl. intros (? & ? & ?).
  repeat split; by apply np_clip_id.
Qed.

(** C4. On every buffer, of any shape, error diffusion at any pixel
    addresses only cells (nx, ny) with 0 <= nx < width and 0 <= ny < height:
    it never raises, and afterwards every cell holds the clamped sum if it
    is a neighbour of the pixel inside the buffer and its old value if not,
    so that no write wraps around; from the last row nothing is written. *)
Theorem error_diffusion_in_bounds (self : t) (a : array3 floats3) (x y : nat)
    (error : floats3) :
  error_matrix self = floyd_steinberg -> wf_array a ->
  (forall n, n ∈ applied self a x y ->
     (0 <= n.1.1 < Z.of_nat (width a))%Z /\ (0 <= n.1.2 < Z.of_nat (height a))%Z)
  /\ exists a', _apply_error_diffusion self a x y error = Ok a'
       /\ wf_array a' /\ same_shape a' a
       /\ (forall i j, cell a' i j = diffused x y error i j <$> cell a i j)
       /\ (forall i j, stencil_weight x y i j = None -> cell a' i j = cell a i j)
       /\ (height a <= y + 1 -> a' = a).
Proof.
  intros Hm Hwf. split.
  { intros n Hn. destruct (applied_in_bounds self a x y n Hm Hn) as (? & ? & _). done. }
  destruct (apply_error_diffusion_cells self a x y error Hm Hwf)
    as (a' & Hrun & Hwf' & Hs & Hc).
  exists a'. repeat split; try done; try apply Hwf'; try apply Hs.
  - intros i j Hnone. rewrite Hc. unfold diffused. rewrite Hnone.
    by destruct (cell a i j).
  - intros Hlast. rewrite (apply_error_diffusion_unfold _ _ _ _ _ Hm) in Hrun.
    assert (Hout : forall dy dx w, diffuse_at error w (neighbor x y dy dx) a = Ok a).
    { intros dy dx w. unfold diffuse_at.
      destruct (in_bounds a _ _) eqn:Hin; [|done].
      apply in_bounds_spec in Hin. unfold neighbor in Hin; simpl in Hin. lia. }
    rewrite Hout in Hrun. cbn [mbind result_bind] in Hrun.
    rewrite Hout in Hrun. cbn [mbind result_bind] in Hrun.
    rewrite Hout in Hrun. cbn [mbind result_bind] in Hrun.
    rewrite Hout in Hrun.
    congruence.
Qed.

Lemma saturated_buffer_wf : wf_array saturated_buffer.
Proof. split; [reflexivity|repeat constructor]. Defined.

Lemma roomy_buffer_wf : wf_array roomy_buffer.
Proof. split; [reflexivity|repeat constructor]. Defined.

Lemma error_diffusion_in_bounds_witness :
  error_matrix (ditherer_of black_only) = floyd_steinberg
  /\ wf_array saturated_buffer
  /\ (forall n, n ∈ applied (ditherer_of black_only) saturated_buffer 0 0 ->
        (0 <= n.1.1 < Z.of_nat (width saturated_buffer))%Z
        /\ (0 <= n.1.2 < Z.of_nat (height saturated_buffer))%Z).
Proof.
  split; [reflexivity|]. split; [exact saturated_buffer_wf|].
  exact (proj1 (error_diffusion_in_bounds (ditherer_of black_only) saturated_buffer
                  0 0 (16, 16, 16)%Q eq_refl saturated_buffer_wf)).
Defined.

(** The neighbours that the loops address from pixel (1, 0) of a buffer of
    three rows and columns: row 1 for the first row of the matrix, row 2
    for the second. *)
Example applied_neighbours :
  applied (ditherer_of black_only) roomy_buffer 1 0
  = [ ((2, 1)%Z, 7 # 16); ((0, 2)%Z, 3 # 16); ((1, 2)%Z, 5 # 16); ((2, 2)%Z, 1 # 16) ].
Proof. reflexivity. Qed.

(** On a buffer of one pixel and on a buffer of one row nothing is written;
    on a buffer of one column only the cell two rows below takes a share
    (5/16 of the error), and the writes one column to the left and to the
    right are skipped. *)
Example error_diffusion_1x1 :
  _apply_error_diffusion (ditherer_of black_only) buffer_1x1 0 0 (16, 16, 16)%Q
  = Ok buffer_1x1.
Proof. reflexivity. Qed.

Example error_diffusion_row :
  _apply_error_diffusion (ditherer_of black_only) buffer_row 0 0 (16, 16, 16)%Q
    = Ok buffer_row
  /\ _apply_error_diffusion (ditherer_of black_only) buffer_row 2 0 (16, 16, 16)%Q
      = Ok buffer_row.
Proof. split; reflexivity. Qed.

Example error_diffusion_column :
  exists a', _apply_error_diffusion (ditherer_of black_only) buffer_column 0 0
               (16, 16, 16)%Q = Ok a'
    /\ cell a' 0 0 = Some (40, 40, 40)%Q
    /\ cell a' 0 1 = Some (50, 50, 50)%Q
    /\ (exists v, cell a' 0 2 = Some v /\ eq3 v (65, 65, 65)%Q)
    /\ applied (ditherer_of black_only) buffer_column 0 0 = [((0, 2)%Z, 5 # 16)].
Proof.
  eexists. split; [vm_compute; reflexivity|]. split; [reflexivity|].
  split; [reflexivity|]. split; [|reflexivity].
  eexists. split; [reflexivity|]. by vm_compute.
Qed.

Lemma gain_unclamped (old share : floats3) :
  in_range3 (add3 old share) -> eq3 (sub3 (clip3 (add3 old share)) old) share.
Proof.
  intros Hr. pose proof (clip3_id _ Hr) as Hc.
  destruct old as [[o0 o1] o2], share as [[s0 s1] s2].
  unfold eq3 in *; simpl in *. destruct Hc as (? & ? & ?).
  repeat split; lra.
Qed.

(** C1, as the code has it by design.  Error diffusion at a pixel of a
    well-formed buffer returns.  Every neighbour that it addresses inside
    the buffer is set to its old value plus the error times the weight of
    the neighbour, clamped to [0, 255] at once.  Whenever no channel of a
    neighbour leaves [0, 255] when its share is added, what the neighbours
    gain in all is the error times the sum of the weights applied; and
    when all four weights of the matrix are applied, that is the whole
    error.  (Which cells the loops address is no part of the statement.) *)
Theorem diffusion_conservation (self : t) (a : array3 floats3) (x y : nat)
    (error : floats3) :
  error_matrix self = floyd_steinberg -> wf_array a ->
  exists a', _apply_error_diffusion self a x y error = Ok a'
    /\ (forall n, n ∈ applied self a x y ->
          exists old,
            cell a (Z.to_nat n.1.1) (Z.to_nat n.1.2) = Some old
            /\ cell a' (Z.to_nat n.1.1) (Z.to_nat n.1.2)
               = Some (clip3 (add3 old (scale3 error n.2))))
    /\ (unclamped self a x y error ->
          eq3 (sum3 (received self a a' x y))
              (scale3 error (sumQ (weights self a x y))))
    /\ (weights self a x y = [7 # 16; 3 # 16; 5 # 16; 1 # 16]%Q ->
        unclamped self a x y error ->
          eq3 (sum3 (received self a a' x y)) error).
Proof.
  intros Hm Hwf.
  destruct (apply_error_diffusion_cells self a x y error Hm Hwf)
    as (a' & Hrun & _ & _ & Hc).
  assert (Hcell : forall n, n ∈ applied self a x y ->
            exists old,
              cell a (Z.to_nat n.1.1) (Z.to_nat n.1.2) = Some old
              /\ cell a' (Z.to_nat n.1.1) (Z.to_nat n.1.2)
                 = Some (clip3 (add3 old (scale3 error n.2)))).
  { intros n Hn.
    destruct (applied_in_bounds self a x y n Hm Hn) as (Hnx & Hny & Hsw).
    destruct (cell_is_Some a (Z.to_nat n.1.1) (Z.to_nat n.1.2) Hwf) as [old Hold];
      [lia..|].
    exists old. split; [exact Hold|]. rewrite Hc, Hold. simpl.
    unfold diffused. by rewrite Hsw. }
  assert (Hgain : unclamped self a x y error ->
            eq3 (sum3 (received self a a' x y))
                (scale3 error (sumQ (weights self a x y)))).
  { intros Hun. eapply eq3_trans; [|apply sum3_scale].
    unfold received. apply sum3_pointwise. intros n Hn.
    destruct (Hcell n Hn) as (old & Hold & Hnew).
    unfold gain. rewrite Hold, Hnew.
    apply gain_unclamped. by apply (Hun n Hn old). }
  exists a'. split; [exact Hrun|]. split; [exact Hcell|]. split; [exact Hgain|].
  intros Hw Hun. eapply eq3_trans; [exact (Hgain Hun)|]. rewrite Hw.
  destruct error as [[e0 e1] e2]. unfold eq3, sumQ; simpl.
  repeat split; lra.
Qed.

Lemma roomy_buffer_unclamped :
  unclamped (ditherer_of black_only) roomy_buffer 1 0 (16, -8, 4)%Q.
Proof.
  intros n Hn old Hold.
  rewrite (applied_floyd (ditherer_of black_only) roomy_buffer 1 0 eq_refl) in Hn.
  simpl in Hn.
  repeat (apply elem_of_cons in Hn as [->|Hn]); try (by apply elem_of_nil in Hn);
    simpl in Hold; inversion Hold; subst old;
    unfold in_range3, in_range, Qle; simpl; lia.
Defined.

Lemma diffusion_conservation_witness :
  error_matrix (ditherer_of black_only) = floyd_steinberg
  /\ wf_array roomy_buffer
  /\ exists a',
       _apply_error_diffusion (ditherer_of black_only) roomy_buffer 1 0 (16, -8, 4)%Q
         = Ok a'
       /\ weights (ditherer_of black_only) roomy_buffer 1 0
          = [7 # 16; 3 # 16; 5 # 16; 1 # 16]%Q
       /\ unclamped (ditherer_of black_only) roomy_buffer 1 0 (16, -8, 4)%Q
       /\ eq3 (sum3 (received (ditherer_of black_only) roomy_buffer a' 1 0))
              (16, -8, 4)%Q.
Proof.
  destruct (diffusion_conservation (ditherer_of black_only) roomy_buffer
              1 0 (16, -8, 4)%Q eq_refl roomy_buffer_wf) as (a' & Hrun & _ & _ & Hall).
  split; [reflexivity|]. split; [exact roomy_buffer_wf|].
  exists a'. split; [exact Hrun|]. split; [reflexivity|].
  split; [exact roomy_buffer_unclamped|].
  exact (Hall eq_refl roomy_buffer_unclamped).
Defined.

(** C1 as stated fails where a clamp is active.  The sweep of
    [white_source] against a black palette starts from [white_buffer];
    its first pixel is looked up as (16, 16, 16) and leaves the error
    (16, 16, 16); the weights 7/16, 5/16 and 1/16 are applied, to
    neighbours that are at 255 and gain nothing, while the error times the
    sum of these weights is (13, 13, 13). *)
Lemma diffusion_conservation_counterexample :
  image_array (start (ditherer_of black_only) white_source) = white_buffer
  /\ current_rgb white_buffer 0 0 = Ok (16, 16, 16)%Z
  /\ _find_closest_color (ditherer_of black_only) (16, 16, 16)%Z
     = Ok (0, (0, 0, 0)%Z, (16, 16, 16)%Q)
  /\ weights (ditherer_of black_only) white_buffer 0 0 = [7 # 16; 5 # 16; 1 # 16]%Q
  /\ exists a',
       _apply_error_diffusion (ditherer_of black_only) white_buffer 0 0
         (16, 16, 16)%Q = Ok a'
       /\ eq3 (sum3 (received (ditherer_of black_only) white_buffer a' 0 0))
              (0, 0, 0)%Q
       /\ eq3 (scale3 (16, 16, 16)%Q
                (sumQ (weights (ditherer_of black_only) white_buffer 0 0)))
              (13, 13, 13)%Q
       /\ ~ eq3 (sum3 (received (ditherer_of black_only) white_buffer a' 0 0))
                (scale3 (16, 16, 16)%Q
                   (sumQ (weights (ditherer_of black_only) white_buffer 0 0))).
Proof.
  split; [reflexivity|]. split; [reflexivity|].
  split; [reflexivity|]. split; [reflexivity|].
  eexists. split; [vm_compute; reflexivity|].
  split; [by vm_compute|]. split; [by vm_compute|].
  intros (Hc & _). vm_compute in Hc. discriminate.
Qed.

End Diffusion.

(** ** The sweep *)

Section Sweep.
Context `{Float64Ops}.
Import MinecraftDitherer Stencil.

(** What [__init__] returns is a ditherer without observer whose palette
    has an entry in its tables for each colour code. *)
Lemma ditherer_init_built (custom_colors : option (list string)) (d : t) :
  init custom_colors = Ok d ->
  built_palette (palette d) /\ error_matrix d = floyd_steinberg /\ quiet d.
Proof.
  unfold init. intros Hd. apply bind_ok in Hd as (p0 & Hp0 & Hd).
  apply bind_ok in Hd as (p & Hp & [= <-]).
  split; [|split; [done|by intros cb n m [=]]]. simpl.
  destruct custom_colors as [[|c cs]|].
  - inversion Hp; subst. by apply (init_built _ _ Hp0).
  - by apply (init_built _ _ Hp).
  - inversion Hp; subst. by apply (init_built _ _ Hp0).
Qed.

Lemma astype_int_floor (v : Q) : (0 <= v)%Q -> astype_int v = Qfloor v.
Proof.
  destruct v as [n d]. unfold astype_int, Qfloor, Qle; simpl. intros Hn.
  apply Z.quot_div_nonneg; lia.
Qed.

Lemma astype_int_uint8 (v : Q) : in_range v -> is_uint8 (astype_int v).
Proof.
  intros [H0 H255]. rewrite astype_int_floor by done. unfold is_uint8.
  split.
  - change 0%Z with (Qfloor 0). by apply Qfloor_resp_le.
  - change 255%Z with (Qfloor 255). by apply Qfloor_resp_le.
Qed.

Lemma int_of_floats_uint8 (v : floats3) : in_range3 v -> rgb_uint8 (int_of_floats v).
Proof.
  destruct v as [[r g] b]. intros (? & ? & ?).
  repeat split; simpl; by apply astype_int_uint8.
Qed.

Lemma uint8_id (v : Z) : is_uint8 v -> uint8 v = v.
Proof. unfold is_uint8, uint8. intros. apply Z.mod_small. lia. Qed.

Lemma uint8_rgb_id (c : RGB) : rgb_uint8 c -> uint8_rgb c = c.
Proof.
  destruct c as [[r g] b]. intros (? & ? & ?). simpl in *.
  by rewrite !uint8_id.
Qed.

Lemma cell_map {A B} (f : A -> B) (a : array3 A) (h w : nat) (i j : nat) :
  cell {| height := h; width := w; cells := map (map f) (cells a) |} i j
  = f <$> cell a i j.
Proof.
  unfold cell; simpl. rewrite list_lookup_fmap.
  destruct (cells a !! j) as [row|]; simpl; [|done]. by rewrite list_lookup_fmap.
Qed.

Lemma wf_array_map {A B} (f : A -> B) (a : array3 A) :
  wf_array a ->
  wf_array {| height := height a; width := width a; cells := map (map f) (cells a) |}.
Proof.
  intros [Hh Hw]. split; simpl.
  - by rewrite length_map.
  - apply Forall_fmap. eapply Forall_impl; [exact Hw|].
    intros row Hrow. simpl. by rewrite length_map.
Qed.

Lemma float_of_rgb_in_range (c : RGB) : rgb_uint8 c -> in_range3 (float_of_rgb c).
Proof.
  destruct c as [[r g] b]. unfold rgb_uint8, is_uint8, in_range3, in_range; simpl.
  intros (? & ? & ?). change 0%Q with (inject_Z 0). change 255%Q with (inject_Z 255).
  rewrite <- !Zle_Qle. lia.
Qed.

(** The state in which the loop is entered satisfies the invariant. *)
Lemma start_inv (self0 : t) (source : array3 RGB) :
  wf_array source -> all_cells rgb_uint8 source ->
  sweep_inv self0 (height source) (width source) (fun _ => False) (start self0 source).
Proof.
  intros Hwf Hrgb. unfold sweep_inv, start; cbn [self image_array output_array].
  pose proof (wf_array_map float_of_rgb source Hwf) as Hwi.
  split; [done|]. split; [exact Hwi|]. split; [done|]. split; [done|].
  split; [exact (wf_array_map (fun _ => (0, 0, 0)%Z) _ Hwi)|].
  split; [done|]. split; [done|]. split; [|done].
  intros i j v. rewrite cell_map. destruct (cell source i j) as [c|] eqn:Hc; [|done].
  simpl. intros [= <-]. apply float_of_rgb_in_range. by eapply Hrgb.
Qed.

(** The lookup of the sweep succeeds and returns a colour of the palette. *)
Lemma find_closest_color_palette (self1 : t) (rgb : RGB) :
  wf_palette (palette self1) ->
  exists idx closest_rgb,
    _find_closest_color self1 rgb
      = Ok (idx, closest_rgb, sub3 (float_of_rgb rgb) (float_of_rgb closest_rgb))
    /\ MinecraftPalette.colors_rgb (palette self1) !! idx = Some closest_rgb
    /\ rgb_uint8 closest_rgb.
Proof.
  intros Hwf.
  destruct (find_closest_color_spec (palette self1) rgb "lab" (wf_built _ Hwf))
    as (idx & c & hex & Hfind & Hc & _ & _).
  exists idx, c. split; [|split; [done|]].
  - unfold _find_closest_color. by rewrite Hfind.
  - destruct Hwf as (_ & _ & _ & Hall). by eapply Forall_lookup_1.
Qed.

(** One pass of the loop body from a state of the invariant.  The colour
    looked up is the cell (x, y) of the working buffer cast to integers;
    the colour found is written to the output; its error is diffused;
    everything but the observer succeeds, and the state built satisfies the
    invariant with the pixel added to the processed ones. *)
Lemma process_pixel_spec (self0 : t) (h w : nat) (D : nat * nat -> Prop)
    (st : sweep) (x y : nat) :
  wf_ditherer self0 -> sweep_inv self0 h w D st -> x < w -> y < h ->
  exists v idx c st',
    let error := sub3 (float_of_rgb (int_of_floats v)) (float_of_rgb c) in
    cell (image_array st) x y = Some v
    /\ _find_closest_color (self st) (int_of_floats v) = Ok (idx, c, error)
    /\ c ∈ MinecraftPalette.colors_rgb (palette self0)
    /\ cell (output_array st') x y = Some c
    /\ (forall i j, cell (image_array st') i j
                    = diffused x y error i j <$> cell (image_array st) i j)
    /\ sweep_inv self0 h w (fun q => q = (x, y) \/ D q) st'
    /\ processed_pixels (self st') = processed_pixels (self st) + 1
    /\ process_pixel st (x, y)
       = (_ ← (if processed_pixels (self st') mod 1000 =? 0
               then _update_progress (self st') else Ok tt);
          Ok st').
Proof.
  intros [Hpal Hmat] (Hcfg & Hwi & Hhi & Hwdi & Hwo & Hho & Hwdo & Hrange & Hdone) Hx Hy.
  destruct Hcfg as (Hp & Hm & Hcb).
  destruct (cell_is_Some (image_array st) x y Hwi) as [v Hv]; [lia..|].
  pose proof (int_of_floats_uint8 v (Hrange _ _ _ Hv)) as Hrgb.
  destruct (find_closest_color_palette (self st) (int_of_floats v))
    as (idx & c & Hfind & Hidx & Hc); [by rewrite Hp|].
  destruct (set2_cell (output_array st) x y (uint8_rgb c) Hwo)
    as (out' & Hset & Hwo' & Hso' & Hco'); [lia..|].
  destruct (apply_error_diffusion_cells (self st) (image_array st) x y
              (sub3 (float_of_rgb (int_of_floats v)) (float_of_rgb c)))
    as (img' & Hdiff & Hwi' & Hsi' & Hci'); [by rewrite Hm| done |].
  assert (Hin : c ∈ MinecraftPalette.colors_rgb (palette self0)).
  { rewrite <- Hp. apply list_elem_of_lookup. eauto. }
  exists v, idx, c,
    {| self := set_processed (self st) (processed_pixels (self st) + 1);
       image_array := img'; output_array := out' |}.
  cbn [self image_array output_array set_processed processed_pixels].
  split; [done|]. split; [done|]. split; [done|]. split.
  { rewrite Hco', decide_True by done. by rewrite uint8_rgb_id. }
  split; [done|]. split; [|split; [done|]].
  - unfold sweep_inv; simpl. destruct Hso' as [? ?], Hsi' as [? ?].
    split; [by repeat split|]. split; [exact Hwi'|].
    split; [congruence|]. split; [congruence|]. split; [exact Hwo'|].
    split; [congruence|]. split; [congruence|]. split.
    + intros i j u. rewrite Hci'. destruct (cell (image_array st) i j) as [old|] eqn:Hold;
        [|done]. simpl. intros [= <-]. unfold diffused.
      destruct (stencil_weight x y i j); [apply clip3_in_range|by eapply Hrange].
    + intros x' y' [Heq|HD].
      * inversion Heq; subst. exists c. rewrite Hco', decide_True by done.
        by rewrite uint8_rgb_id.
      * destruct (Hdone _ _ HD) as (c' & Hc' & Hin'). rewrite Hco'.
        destruct (decide _) as [[-> ->]|]; [|eauto].
        exists c. by rewrite uint8_rgb_id.
  - unfold process_pixel, current_rgb. rewrite (get2_cell _ _ _ _ Hv).
    cbn [mbind result_bind]. rewrite Hfind. cbn [mbind result_bind].
    rewrite Hset. cbn [mbind result_bind]. rewrite Hdiff. reflexivity.
Qed.

Lemma sweep_inv_mono (self0 : t) (h w : nat) (D D' : nat * nat -> Prop) (st : sweep) :
  (forall q, D' q -> D q) -> sweep_inv self0 h w D st -> sweep_inv self0 h w D' st.
Proof.
  intros HD (? & ? & ? & ? & ? & ? & ? & ? & Hdone).
  repeat (split; [done|]). intros x y Hq. apply Hdone. by apply HD.
Qed.

Lemma update_progress_quiet (self0 self1 : t) :
  quiet self0 -> progress_callback self1 = progress_callback self0 ->
  _update_progress self1 = Ok tt.
Proof.
  intros Hq Hcb. unfold _update_progress. rewrite Hcb.
  destruct (progress_callback self0) as [cb|] eqn:E; [|done]. by apply Hq.
Qed.

(** The pixel loop over any list of pixels of the buffer keeps the
    invariant, and runs to its end when the observer does not raise. *)
Lemma sweep_fold (self0 : t) (h w : nat) (l : list (nat * nat)) :
  wf_ditherer self0 ->
  (forall x y, (x, y) ∈ l -> x < w /\ y < h) ->
  forall D st, sweep_inv self0 h w D st ->
    (forall st', foldM process_pixel l st = Ok st' ->
                 sweep_inv self0 h w (fun q => q ∈ l \/ D q) st')
    /\ (quiet self0 -> exists st', foldM process_pixel l st = Ok st').
Proof.
  intros Hself. induction l as [|[x y] l IH]; intros Hl D st Hinv.
  - split.
    + intros st' [= <-]. eapply sweep_inv_mono; [|exact Hinv].
      intros q [Hq|Hq]; [by apply elem_of_nil in Hq|done].
    + intros _. by exists st.
  - destruct (Hl x y ltac:(left)) as [Hx Hy].
    destruct (process_pixel_spec self0 h w D st x y Hself Hinv Hx Hy)
      as (v & idx & c & st1 & _ & _ & _ & _ & _ & Hinv1 & _ & Hstep).
    destruct (IH (fun x' y' Hq => Hl x' y' ltac:(by right)) _ st1 Hinv1) as [IH1 IH2].
    cbn [foldM]. rewrite Hstep. split.
    + intros st' Hrun.
      destruct (if processed_pixels (self st1) mod 1000 =? 0
                then _update_progress (self st1) else Ok tt) as [[]|e];
        cbn [mbind result_bind] in Hrun; [|discriminate].
      eapply sweep_inv_mono; [|exact (IH1 st' Hrun)].
      intros q [Hq|Hq]; [|tauto].
      apply elem_of_cons in Hq as [->|Hq]; tauto.
    + intros Hq. destruct (IH2 Hq) as [st' Hrun]. exists st'.
      assert (_update_progress (self st1) = Ok tt) as Hup.
      { apply (update_progress_quiet self0); [done|]. apply Hinv1. }
      rewrite Hup. by destruct (_ =? _).
Qed.

(** The sweep over a source of bytes: when it returns, the state satisfies
    the invariant with every pixel processed; it returns when the observer
    does not raise. *)
Lemma dither_array_spec (self0 : t) (source : array3 RGB) :
  wf_ditherer self0 -> wf_array source -> all_cells rgb_uint8 source ->
  (forall st, dither_array self0 source = Ok st ->
     sweep_inv self0 (height source) (width source)
       (fun q => q.1 < width source /\ q.2 < height source) st)
  /\ (quiet self0 -> exists st, dither_array self0 source = Ok st).
Proof.
  intros Hself Hwf Hrgb.
  destruct (sweep_fold self0 (height source) (width source)
              (pixel_order (height source) (width source)) Hself
              (fun x y Hq => proj1 (pixel_order_elem _ _ _ _) Hq)
              _ _ (start_inv self0 source Hwf Hrgb)) as [Hinv Htot].
  unfold dither_array. split.
  - intros st Hrun. apply bind_ok in Hrun as (st1 & Hfold & Hrun).
    apply bind_ok in Hrun as ([] & _ & [= <-]).
    eapply sweep_inv_mono; [|exact (Hinv st1 Hfold)].
    intros [x y] Hq. left. by apply pixel_order_elem.
  - intros Hq. destruct (Htot Hq) as [st1 Hfold]. exists st1. rewrite Hfold.
    cbn [mbind result_bind].
    rewrite (update_progress_quiet self0); [done..|].
    apply (Hinv st1 Hfold).
Qed.

Lemma all_cells_Forall {A} (P : A -> Prop) (a : array3 A) :
  Forall (Forall P) (cells a) -> all_cells P a.
Proof.
  intros Hall i j v. unfold cell.
  destruct (cells a !! j) as [row|] eqn:Hrow; simpl; [|done]. intros Hv.
  eapply Forall_lookup_1; [|exact Hv]. eapply Forall_lookup_1; [exact Hall|exact Hrow].
Qed.

Lemma int_of_floats_floor (v : floats3) : in_range3 v -> int_of_floats v = floor3 v.
Proof.
  destruct v as [[r g] b]. intros ([? _] & [? _] & [? _]). unfold floor3; simpl in *.
  by rewrite !astype_int_floor.
Qed.

(** C3, as the code has it.  In full dithering mode, when the loop reaches
    pixel (x, y), the colour passed to the palette lookup is the value the
    working buffer holds for the pixel at that moment, as the pixels before
    it left it, with the fraction of every channel dropped; each channel of
    that value lies in [0, 255], so the colour is one of bytes, and it is
    the colour whose nearest palette entry is written to the output. *)
Theorem lookup_colour_truncated (self0 : t) (source : array3 RGB)
    (pre post : list (nat * nat)) (x y : nat) (st : sweep) :
  wf_ditherer self0 -> wf_array source -> all_cells rgb_uint8 source ->
  pixel_order (height source) (width source) = pre ++ (x, y) :: post ->
  foldM process_pixel pre (start self0 source) = Ok st ->
  exists v idx c,
    cell (image_array st) x y = Some v
    /\ in_range3 v
    /\ current_rgb (image_array st) x y = Ok (floor3 v)
    /\ rgb_uint8 (floor3 v)
    /\ _find_closest_color (self st) (floor3 v)
       = Ok (idx, c, sub3 (float_of_rgb (floor3 v)) (float_of_rgb c))
    /\ (forall st', process_pixel st (x, y) = Ok st' ->
          cell (output_array st') x y = Some c).
Proof.
  intros Hself Hwf Hrgb Hsplit Hrun.
  assert (Hin : forall x' y', (x', y') ∈ pre ++ (x, y) :: post ->
                  x' < width source /\ y' < height source).
  { intros x' y' Hq. rewrite <- Hsplit in Hq. by apply pixel_order_elem. }
  destruct (sweep_fold self0 (height source) (width source) pre Hself
              (fun x' y' Hq => Hin x' y' ltac:(apply elem_of_app; by left))
              _ _ (start_inv self0 source Hwf Hrgb)) as [Hinv _].
  specialize (Hinv st Hrun).
  destruct (Hin x y ltac:(apply elem_of_app; right; left)) as [Hx Hy].
  destruct (process_pixel_spec self0 _ _ _ st x y Hself Hinv Hx Hy)
    as (v & idx & c & st1 & Hv & Hfind & _ & Hout & _ & _ & _ & Hstep).
  assert (Hr : in_range3 v).
  { destruct Hinv as (_ & _ & _ & _ & _ & _ & _ & Hrange & _). by eapply Hrange. }
  rewrite (int_of_floats_floor v Hr) in Hfind.
  exists v, idx, c. repeat (split; [done|]).
  split; [|split; [|split; [done|]]].
  - unfold current_rgb. rewrite (get2_cell _ _ _ _ Hv). cbn [mbind result_bind].
    by rewrite int_of_floats_floor.
  - rewrite <- int_of_floats_floor by done. by apply int_of_floats_uint8.
  - intros st' Hst'. rewrite Hstep in Hst'.
    apply bind_ok in Hst' as ([] & _ & [= <-]). exact Hout.
Qed.

(** *** Exactness of the sweep in binary64

    Every value of the working buffer is a multiple of 1/16 in [0, 255],
    and every weighted error a multiple of 1/16 of magnitude at most 255:
    binary64 represents these numbers, their sums and their products by
    7/16, 3/16, 5/16 and 1/16 without rounding. *)

Lemma sixteenths_plus (u v : Q) : sixteenths u -> sixteenths v -> sixteenths (u + v).
Proof.
  intros [k Hk] [m Hm]. exists (k + m)%Z. rewrite Hk, Hm.
  unfold Qeq, Qplus; simpl. lia.
Qed.

Lemma sixteenths_clip (v : Q) : sixteenths v -> sixteenths (np_clip v).
Proof.
  intros [k Hk]. unfold np_clip.
  destruct (Q.max_spec v 0) as [[? E1]|[? E1]],
    (Q.min_spec (Qmax v 0) 255) as [[? E2]|[? E2]].
  - exists 0%Z. rewrite E2, E1. reflexivity.
  - exists 4080%Z. rewrite E2. reflexivity.
  - exists k. by rewrite E2, E1.
  - exists 4080%Z. rewrite E2. reflexivity.
Qed.

Lemma sixteenths_share (r c : Z) (n : Z) :
  sixteenths ((inject_Z r - inject_Z c) * (n # 16)).
Proof. exists ((r - c) * n)%Z. unfold Qeq, Qmult, Qminus, Qplus, Qopp; simpl. lia. Qed.

Lemma stencil_weight_sixteenth (x y i j : nat) (w : Q) :
  stencil_weight x y i j = Some w -> exists n : Z, w = n # 16.
Proof.
  unfold stencil_weight. intros Hw.
  repeat match type of Hw with
  | (if ?b then _ else _) = _ => destruct b
  end; inversion Hw; eauto.
Qed.

Lemma sixteenths_diffused (x y i j : nat) (rgb c : RGB) (old : floats3) :
  sixteenths3 old ->
  sixteenths3 (diffused x y (sub3 (float_of_rgb rgb) (float_of_rgb c)) i j old).
Proof.
  intros Hold. unfold diffused.
  destruct (stencil_weight x y i j) as [w|] eqn:Hw; [|done].
  apply stencil_weight_sixteenth in Hw as [n ->].
  destruct old as [[o0 o1] o2], rgb as [[r0 r1] r2], c as [[c0 c1] c2].
  destruct Hold as (? & ? & ?). simpl in *.
  repeat split; simpl; apply sixteenths_clip, sixteenths_plus; try done;
    apply sixteenths_share.
Qed.

Lemma sixteenths_float_of_rgb (c : RGB) : sixteenths3 (float_of_rgb c).
Proof.
  destruct c as [[r g] b].
  repeat split; simpl; [exists (16 * r)%Z|exists (16 * g)%Z|exists (16 * b)%Z];
    unfold Qeq, inject_Z; simpl; lia.
Qed.

(** X17. Whatever part of the sweep has run, every channel of the working
    buffer is a multiple of 1/16 within [0, 255]. *)
Lemma working_buffer_exact (self0 : t) (source : array3 RGB) (l : list (nat * nat))
    (st : sweep) :
  wf_ditherer self0 -> wf_array source -> all_cells rgb_uint8 source ->
  (forall x y, (x, y) ∈ l -> x < width source /\ y < height source) ->
  foldM process_pixel l (start self0 source) = Ok st ->
  all_cells (fun v => sixteenths3 v /\ in_range3 v) (image_array st).
Proof.
  intros Hself Hwf Hrgb Hl Hrun.
  assert (Hgen : forall l D st0 st1,
            (forall x y, (x, y) ∈ l -> x < width source /\ y < height source) ->
            sweep_inv self0 (height source) (width source) D st0 ->
            all_cells sixteenths3 (image_array st0) ->
            foldM process_pixel l st0 = Ok st1 ->
            all_cells sixteenths3 (image_array st1)).
  { clear l st Hl Hrun. induction l as [|[x y] l IH]; intros D st0 st1 Hl Hinv H16 Hrun.
    - by inversion Hrun; subst.
    - destruct (Hl x y ltac:(left)) as [Hx Hy].
      destruct (process_pixel_spec self0 _ _ D st0 x y Hself Hinv Hx Hy)
        as (v & idx & c & st' & _ & _ & _ & _ & Hcells & Hinv' & _ & Hstep).
      cbn [foldM] in Hrun. rewrite Hstep in Hrun.
      apply bind_ok in Hrun as (st'' & Hst'' & Hrun).
      apply bind_ok in Hst'' as ([] & _ & [= <-]).
      apply (IH _ st' st1 (fun x' y' Hq => Hl x' y' ltac:(by right)) Hinv'); [|done].
      intros i j u. rewrite Hcells.
      destruct (cell (image_array st0) i j) as [old|] eqn:Hold; [|done].
      simpl. intros [= <-]. apply sixteenths_diffused. by eapply H16. }
  destruct (sweep_fold self0 _ _ l Hself Hl _ _ (start_inv self0 source Hwf Hrgb))
    as [Hinv _].
  destruct (Hinv st Hrun) as (_ & _ & _ & _ & _ & _ & _ & Hrange & _).
  intros i j v Hv. split; [|by eapply Hrange].
  eapply (Hgen l _ _ st Hl (start_inv self0 source Hwf Hrgb)); [|done|exact Hv].
  intros i' j' u. unfold start; cbn [image_array]. rewrite cell_map.
  destruct (cell source i' j') as [c|]; [|done]. simpl. intros [= <-].
  apply sixteenths_float_of_rgb.
Qed.

End Sweep.

Lemma black_ditherer_wf : wf_ditherer (ditherer_of black_only).
Proof.
  split; [|reflexivity]. unfold wf_palette; simpl. repeat split; try done.
  repeat constructor; unfold is_uint8; simpl; lia.
Defined.

Lemma dim_source_wf : wf_array dim_source.
Proof. split; [reflexivity|repeat constructor]. Defined.

Lemma dim_source_bytes : all_cells rgb_uint8 dim_source.
Proof.
  apply all_cells_Forall. repeat constructor; unfold is_uint8; simpl; lia.
Defined.

Lemma lookup_colour_truncated_witness :
  wf_ditherer (ditherer_of black_only) /\ wf_array dim_source
  /\ all_cells rgb_uint8 dim_source
  /\ MinecraftDitherer.pixel_order (height dim_source) (width dim_source)
     = [(0, 0); (1, 0); (0, 1)] ++ (1, 1) :: []
  /\ exists st,
       foldM MinecraftDitherer.process_pixel [(0, 0); (1, 0); (0, 1)]
         (MinecraftDitherer.start (ditherer_of black_only) dim_source) = Ok st
       /\ exists v idx c,
            cell (MinecraftDitherer.image_array st) 1 1 = Some v
            /\ in_range3 v
            /\ MinecraftDitherer.current_rgb (MinecraftDitherer.image_array st) 1 1
               = Ok (floor3 v)
            /\ rgb_uint8 (floor3 v)
            /\ MinecraftDitherer._find_closest_color (MinecraftDitherer.self st) (floor3 v)
               = Ok (idx, c, MinecraftDitherer.sub3 (float_of_rgb (floor3 v))
                                                    (float_of_rgb c))
            /\ (forall st', MinecraftDitherer.process_pixel st (1, 1) = Ok st' ->
                  cell (MinecraftDitherer.output_array st') 1 1 = Some c).
Proof.
  split; [exact black_ditherer_wf|]. split; [exact dim_source_wf|].
  split; [exact dim_source_bytes|]. split; [reflexivity|].
  eexists. split; [vm_compute; reflexivity|].
  apply (lookup_colour_truncated (ditherer_of black_only) dim_source
           [(0, 0); (1, 0); (0, 1)] [] 1 1 _
           black_ditherer_wf dim_source_wf dim_source_bytes eq_refl).
  vm_compute; reflexivity.
Defined.

(** C3 as stated fails on rounding: at pixel (1, 1) of [dim_source], after
    the three pixels before it, the working buffer holds 7/8 in every
    channel, of which 2 * 7/16 is error diffused from pixel (0, 0); the
    colour passed to the lookup is (0, 0, 0), and 0 is not the integer
    nearest to 7/8. *)
Lemma lookup_colour_truncated_counterexample :
  exists st v c,
    MinecraftDitherer.pixel_order (height dim_source) (width dim_source)
      = [(0, 0); (1, 0); (0, 1)] ++ (1, 1) :: []
    /\ foldM MinecraftDitherer.process_pixel [(0, 0); (1, 0); (0, 1)]
         (MinecraftDitherer.start (ditherer_of black_only) dim_source) = Ok st
    /\ cell (MinecraftDitherer.image_array st) 1 1 = Some v
    /\ eq3 v (7 # 8, 7 # 8, 7 # 8)%Q
    /\ MinecraftDitherer.current_rgb (MinecraftDitherer.image_array st) 1 1 = Ok c
    /\ c = (0, 0, 0)%Z
    /\ ~ rounded v c.
Proof.
  eexists _, _, _. split; [reflexivity|].
  split; [vm_compute; reflexivity|]. split; [vm_compute; reflexivity|].
  split; [by vm_compute|]. split; [vm_compute; reflexivity|]. split; [reflexivity|].
  intros (Hn & _). specialize (Hn 1%Z). vm_compute in Hn. by apply Hn.
Qed.

(** ** Images on the heap *)

Section Heap.
Context `{PILOps}.

Lemma fresh_None (h : heap) : h !! fresh (dom h) = None.
Proof. apply not_elem_of_dom, is_fresh. Qed.

Lemma alloc_extends (h : heap) (img : Image) : h ⊆ <[fresh (dom h) := img]> h.
Proof. apply insert_subseteq, fresh_None. Qed.

Lemma deref_ok (h : heap) (l : loc) (img : Image) :
  h !! l = Some img -> deref l h = (Ok img, h).
Proof. intros Hl. unfold deref. by rewrite Hl. Qed.

Lemma bindM_ok {A B} (m : M A) (k : A -> M B) (h h' : heap) (a : A) :
  m h = (Ok a, h') -> bindM m k h = k a h'.
Proof. intros Hm. unfold bindM. by rewrite Hm. Qed.

Lemma bindM_raise {A B} (m : M A) (k : A -> M B) (h h' : heap) (e : exn) :
  m h = (Raise e, h') -> bindM m k h = (Raise e, h').
Proof. intros Hm. unfold bindM. by rewrite Hm. Qed.

Lemma uint8_is_uint8 (v : Z) : is_uint8 (uint8 v).
Proof.
  unfold is_uint8, uint8. pose proof (Z.mod_pos_bound v 256 ltac:(lia)). lia.
Qed.

Lemma uint8_rgb_bytes (c : RGB) : rgb_uint8 (uint8_rgb c).
Proof.
  destruct c as [[r g] b]. unfold rgb_uint8, uint8_rgb; cbn [fst snd].
  repeat split; apply uint8_is_uint8.
Qed.

Lemma ink_bytes (c : RGB) : rgb_uint8 (ink c).
Proof.
  destruct c as [[r g] b]. unfold rgb_uint8, is_uint8, ink, clip8; cbn [fst snd]. lia.
Qed.

Lemma ink_id (c : RGB) : rgb_uint8 c -> ink c = c.
Proof.
  destruct c as [[r g] b]. unfold rgb_uint8, is_uint8, ink, clip8; cbn [fst snd].
  intros (? & ? & ?). repeat f_equal; lia.
Qed.

(** The canvas of [resize_for_minecraft]. *)
Lemma blank_wf (sz : nat * nat) (color : RGB) : wf_image (PIL.blank "RGB" sz color).
Proof.
  unfold wf_image, wf_bands, PIL.blank, range; simpl.
  split; [done|]. split; [by rewrite length_map, length_seq|].
  split.
  - apply Forall_fmap, Forall_forall. intros j _. simpl.
    by rewrite length_map, length_seq.
  - apply Forall_fmap, Forall_forall. intros j _. simpl.
    apply Forall_fmap, Forall_forall. intros i _. apply ink_bytes.
Qed.

Lemma paste_image_wf (dest src : Image) (box : Z * Z) :
  wf_image dest ->
  wf_image (PIL.paste_image dest src box)
  /\ size (PIL.paste_image dest src box) = size dest.
Proof.
  intros (Hmode & Hrows & Hcols & Hbytes). split; [|done].
  unfold wf_image, wf_bands, PIL.paste_image; simpl.
  split; [done|]. split; [by rewrite length_imap|]. split.
  - apply Forall_lookup_2. intros j row. rewrite list_lookup_imap.
    destruct (pixels dest !! j) as [row0|] eqn:Hrow; simpl; [|done].
    intros [= <-]. rewrite length_imap. exact (Forall_lookup_1 _ _ _ _ Hcols Hrow).
  - apply Forall_lookup_2. intros j row. rewrite list_lookup_imap.
    destruct (pixels dest !! j) as [row0|] eqn:Hrow; simpl; [|done].
    intros [= <-]. apply Forall_lookup_2. intros i px. rewrite list_lookup_imap.
    destruct (row0 !! i) as [px0|] eqn:Hpx; simpl; [|done].
    intros [= <-]. destruct (PIL.pasted src box i j) as [c|].
    + apply uint8_rgb_bytes.
    + exact (Forall_lookup_1 _ _ _ _ (Forall_lookup_1 _ _ _ _ Hbytes Hrow) Hpx).
Qed.

(** [thumbnail] leaves an image that fits as it is, and divides by zero
    for one that does not fit when its height or the height asked for is
    zero. *)
Lemma thumbnail_image_fits (img : Image) (sz : nat * nat) :
  fits img sz -> PIL.thumbnail_image img sz = Ok img.
Proof.
  intros [Hw Hh]. unfold PIL.thumbnail_image.
  destruct (Nat.leb_spec (size img).1 sz.1); [|lia].
  destruct (Nat.leb_spec (size img).2 sz.2); [|lia]. done.
Qed.

Lemma thumbnail_image_zero (img : Image) (sz : nat * nat) :
  ~ fits img sz -> (size img).2 = 0 \/ sz.2 = 0 ->
  PIL.thumbnail_image img sz = Raise (ZeroDivisionError "division by zero").
Proof.
  unfold fits. intros Hfit Hz. unfold PIL.thumbnail_image.
  destruct (Nat.leb_spec (size img).1 sz.1), (Nat.leb_spec (size img).2 sz.2);
    cbn [andb]; try lia;
    destruct (Nat.eqb_spec (size img).2 0), (Nat.eqb_spec sz.2 0);
    cbn [orb]; try done; lia.
Qed.

Lemma thumbnail_run (h : heap) (l : loc) (img : Image) (sz : nat * nat) :
  h !! l = Some img ->
  PIL.thumbnail l sz h
  = match PIL.thumbnail_image img sz with
    | Ok reduced => (Ok tt, <[l := reduced]> h)
    | Raise e => (Raise e, h)
    end.
Proof.
  intros Hl. unfold PIL.thumbnail.
  rewrite (bindM_ok _ _ _ _ _ (deref_ok _ _ _ Hl)).
  unfold bindM, liftM, store. by destruct (PIL.thumbnail_image img sz).
Qed.

Lemma resized_wf (img : Image) (ms : nat * nat) (r : Image) :
  resized img ms = Ok r -> wf_image r /\ size r = ms.
Proof.
  unfold resized. intros Hr. apply bind_ok in Hr as (thumb & _ & Hr).
  apply bind_ok in Hr as (src & _ & [= <-]). apply paste_image_wf, blank_wf.
Qed.

(** An RGB image that fits in the map is pasted as it is. *)
Lemma resized_fits (img : Image) (ms : nat * nat) :
  mode img = "RGB"%string -> fits img ms ->
  resized img ms
  = Ok (PIL.paste_image (PIL.blank "RGB" ms (0, 0, 0)%Z) img
          (((Z.of_nat ms.1 - Z.of_nat (size img).1) `div` 2)%Z,
           ((Z.of_nat ms.2 - Z.of_nat (size img).2) `div` 2)%Z)).
Proof.
  intros Hmode Hfit. unfold resized. rewrite (thumbnail_image_fits _ _ Hfit).
  cbn [mbind result_bind]. unfold PIL.converted. by rewrite Hmode.
Qed.

Lemma resized_zero (img : Image) (ms : nat * nat) :
  ~ fits img ms -> (size img).2 = 0 \/ ms.2 = 0 ->
  resized img ms = Raise (ZeroDivisionError "division by zero").
Proof.
  intros Hfit Hz. unfold resized. by rewrite (thumbnail_image_zero _ _ Hfit Hz).
Qed.

(** [resize_for_minecraft] on an image of the heap: it returns a new
    image, which is [resized], or raises what [resized] raises; either way
    it leaves every image that was on the heap as it was. *)
Lemma resize_for_minecraft_spec (h : heap) (l : loc) (img : Image)
    (map_size : option (nat * nat)) :
  h !! l = Some img ->
  exists h', h ⊆ h'
    /\ match resized img (default ImageProcessor.MINECRAFT_MAP_SIZE map_size) with
       | Ok r =>
           exists final_image,
             ImageProcessor.resize_for_minecraft (Some l) map_size h
               = (Ok final_image, h')
             /\ h !! final_image = None /\ h' !! final_image = Some r
       | Raise e =>
           ImageProcessor.resize_for_minecraft (Some l) map_size h = (Raise e, h')
       end.
Proof.
  intros Hl.
  set (ms := default ImageProcessor.MINECRAFT_MAP_SIZE map_size).
  set (l1 := fresh (dom h)).
  set (h1 := <[l1 := img]> h).
  assert (Hsub1 : h ⊆ h1) by apply alloc_extends.
  assert (Hcopy : PIL.copy (Some l) h = (Ok l1, h1)).
  { unfold PIL.copy. by rewrite (bindM_ok _ _ _ _ _ (deref_ok _ _ _ Hl)). }
  pose proof (thumbnail_run h1 l1 img ms ltac:(apply lookup_insert_eq)) as Hthumb.
  unfold resized. fold ms.
  destruct (PIL.thumbnail_image img ms) as [thumb|e]; cbn [mbind result_bind].
  2: { exists h1. split; [done|]. unfold ImageProcessor.resize_for_minecraft. fold ms.
       rewrite (bindM_ok _ _ _ _ _ Hcopy). cbv beta.
       by rewrite (bindM_raise _ _ _ _ _ Hthumb). }
  set (h2 := <[l1 := thumb]> h1) in *.
  set (l2 := fresh (dom h2)).
  set (canvas := PIL.blank "RGB" ms (0, 0, 0)%Z).
  set (h3 := <[l2 := canvas]> h2).
  set (box := (((Z.of_nat ms.1 - Z.of_nat (size thumb).1) `div` 2)%Z,
               ((Z.of_nat ms.2 - Z.of_nat (size thumb).2) `div` 2)%Z)).
  assert (Hnew : PIL.new "RGB" ms (0, 0, 0)%Z h2 = (Ok l2, h3)) by done.
  assert (Hf2 : h2 !! l2 = None) by apply fresh_None.
  assert (Hne : l1 <> l2).
  { intros Heq. rewrite <- Heq in Hf2.
    unfold h2 in Hf2. by rewrite lookup_insert_eq in Hf2. }
  assert (Hthumb3 : h3 !! l1 = Some thumb).
  { unfold h3. rewrite lookup_insert_ne by done. unfold h2. apply lookup_insert_eq. }
  assert (Hblack : h3 !! l2 = Some canvas) by apply lookup_insert_eq.
  assert (Hfresh2 : h !! l2 = None).
  { unfold h2, h1 in Hf2. rewrite !lookup_insert_ne in Hf2 by done. exact Hf2. }
  assert (Hsub3 : h ⊆ h3).
  { unfold h3. apply insert_subseteq_r; [exact Hfresh2|]. unfold h2, h1.
    apply insert_subseteq_r; [apply fresh_None|]. apply alloc_extends. }
  assert (Hpaste : PIL.paste l2 l1 box h3
                   = match PIL.converted thumb "RGB" with
                     | Ok src => (Ok tt, <[l2 := PIL.paste_image canvas src box]> h3)
                     | Raise e => (Raise e, h3)
                     end).
  { unfold PIL.paste.
    rewrite (bindM_ok _ _ _ _ _ (deref_ok _ _ _ Hthumb3)). cbv beta.
    rewrite (bindM_ok _ _ _ _ _ (deref_ok _ _ _ Hblack)). cbv beta.
    change (mode canvas) with "RGB"%string.
    unfold bindM, liftM, store. by destruct (PIL.converted thumb "RGB"). }
  assert (Hrun : ImageProcessor.resize_for_minecraft (Some l) map_size h
                 = (_ <~ PIL.paste l2 l1 box ;; retM l2) h3).
  { unfold ImageProcessor.resize_for_minecraft. fold ms.
    rewrite (bindM_ok _ _ _ _ _ Hcopy). cbv beta.
    rewrite (bindM_ok _ _ _ _ _ Hthumb). cbv beta.
    rewrite (bindM_ok _ _ _ _ _ Hnew). cbv beta.
    by rewrite (bindM_ok _ _ _ _ _ (deref_ok _ _ _ Hthumb3)). }
  rewrite Hrun. clear Hrun.
  destruct (PIL.converted thumb "RGB") as [src|e]; cbn [mbind result_bind].
  - exists (<[l2 := PIL.paste_image canvas src box]> h3). split.
    + apply insert_subseteq_r; [exact Hfresh2|exact Hsub3].
    + exists l2. rewrite (bindM_ok _ _ _ _ _ Hpaste). unfold retM.
      split; [reflexivity|]. split; [exact Hfresh2|]. by rewrite lookup_insert_eq.
  - exists h3. split; [done|]. by rewrite (bindM_raise _ _ _ _ _ Hpaste).
Qed.

Lemma resize_for_minecraft_ok (h : heap) (l : loc) (img : Image)
    (map_size : option (nat * nat)) (r : Image) :
  h !! l = Some img ->
  resized img (default ImageProcessor.MINECRAFT_MAP_SIZE map_size) = Ok r ->
  exists final_image h',
    ImageProcessor.resize_for_minecraft (Some l) map_size h = (Ok final_image, h')
    /\ h ⊆ h' /\ h !! final_image = None /\ h' !! final_image = Some r.
Proof.
  intros Hl Hr. destruct (resize_for_minecraft_spec h l img map_size Hl) as (h' & Hsub & Hrun).
  rewrite Hr in Hrun. destruct Hrun as (f & Hrun & Hfresh & Hf). by exists f, h'.
Qed.

End Heap.

(** ** dither_image *)

Section Run.
Context `{Float64Ops} `{PILOps}.
Import MinecraftDitherer.

Lemma wf_bands_array (img : Image) :
  wf_bands img -> wf_array (PIL.array_of img) /\ all_cells rgb_uint8 (PIL.array_of img).
Proof.
  intros (Hrows & Hcols & Hbytes). split; [by split|].
  by apply all_cells_Forall.
Qed.

Lemma wf_image_array (img : Image) :
  wf_image img -> wf_array (PIL.array_of img) /\ all_cells rgb_uint8 (PIL.array_of img).
Proof. intros [_ Hb]. by apply wf_bands_array. Qed.

(** The preparation of the image returns when no resizing is asked for,
    and when the image is an RGB image that fits in the map. *)
Lemma prepared_off (img : Image) : prepared false img = Ok img.
Proof. reflexivity. Qed.

Lemma prepared_fits (img : Image) :
  mode img = "RGB"%string -> fits img ImageProcessor.MINECRAFT_MAP_SIZE ->
  exists pimg, prepared true img = Ok pimg.
Proof. intros Hmode Hfit. cbn [prepared]. rewrite (resized_fits _ _ Hmode Hfit). eauto. Qed.

(** What a call of [dither_image] on an image of the heap amounts to: the
    preparation of the image and the sweep of the prepared image, and one
    more image on a heap that still holds all the images it held. *)
Lemma dither_image_run (self0 : t) (h : heap) (l : loc) (img : Image) (resize : bool) :
  h !! l = Some img ->
  exists h1, h ⊆ h1
    /\ dither_image self0 (Some l) resize h
       = match (pimg ← prepared resize img;
                dither_array self0 (PIL.array_of pimg)) with
         | Ok st =>
             (Ok (fresh (dom h1), self st),
              <[fresh (dom h1) :=
                  PIL.image_of (ImageProcessor.clipped (output_array st))]> h1)
         | Raise e => (Raise e, h1)
         end.
Proof.
  intros Hl.
  assert (Hprep : exists h1, h ⊆ h1
            /\ match prepared resize img with
               | Ok pimg =>
                   exists l', h1 !! l' = Some pimg
                     /\ (if resize
                         then l0 <~ ImageProcessor.resize_for_minecraft (Some l) None ;;
                              retM (Some l0)
                         else retM (Some l)) h = (Ok (Some l'), h1)
               | Raise e =>
                   (if resize
                    then l0 <~ ImageProcessor.resize_for_minecraft (Some l) None ;;
                         retM (Some l0)
                    else retM (Some l)) h = (Raise e, h1)
               end).
  { destruct resize; cbn [prepared].
    - destruct (resize_for_minecraft_spec h l img None Hl) as (h1 & Hsub & Hrun).
      exists h1. split; [done|].
      change (default ImageProcessor.MINECRAFT_MAP_SIZE None)
        with ImageProcessor.MINECRAFT_MAP_SIZE in Hrun.
      destruct (resized img ImageProcessor.MINECRAFT_MAP_SIZE) as [r|e].
      + destruct Hrun as (l' & Hrun & _ & Hl'). exists l'. split; [done|].
        by rewrite (bindM_ok _ _ _ _ _ Hrun).
      + by rewrite (bindM_raise _ _ _ _ _ Hrun).
    - exists h. split; [done|]. exists l. by split. }
  destruct Hprep as (h1 & Hsub & Hprep).
  exists h1. split; [done|]. unfold dither_image.
  destruct (prepared resize img) as [pimg|e]; cbn [mbind result_bind].
  - destruct Hprep as (l' & Hl' & Hprep).
    rewrite (bindM_ok _ _ _ _ _ Hprep). cbv beta.
    unfold ImageProcessor.image_to_array, PIL.np_array.
    unfold bindM at 1. rewrite (bindM_ok _ _ _ _ _ (deref_ok _ _ _ Hl')). cbv beta.
    unfold retM at 1. unfold bindM at 1, liftM at 1, unpack_shape.
    unfold bindM at 1, liftM at 1.
    destruct (dither_array self0 (PIL.array_of pimg)) as [st|e]; [|done].
    by unfold bindM, ImageProcessor.array_to_image, PIL.fromarray, alloc, retM.
  - by rewrite (bindM_raise _ _ _ _ _ Hprep).
Qed.

Lemma same_config_sym (a b : t) : same_config a b -> same_config b a.
Proof. intros (? & ? & ?). by repeat split. Qed.

Lemma same_config_trans (a b c : t) : same_config a b -> same_config b c -> same_config a c.
Proof. intros (? & ? & ?) (? & ? & ?). repeat split; congruence. Qed.

(** The sweep resets the counters, so it is the same for two ditherers
    that differ in them only. *)
Lemma start_config (self1 self2 : t) (source : array3 RGB) :
  same_config self1 self2 -> start self1 source = start self2 source.
Proof.
  destruct self1, self2. unfold same_config, start, set_total, set_processed; simpl.
  by intros (-> & -> & ->).
Qed.

Lemma dither_array_config (self1 self2 : t) (source : array3 RGB) :
  same_config self1 self2 -> dither_array self1 source = dither_array self2 source.
Proof. intros Hc. unfold dither_array. by rewrite (start_config _ _ _ Hc). Qed.

Lemma process_pixel_config (st st' : sweep) (xy : nat * nat) :
  process_pixel st xy = Ok st' -> same_config (self st') (self st).
Proof.
  unfold process_pixel. destruct xy as [x y]. intros Hrun.
  apply bind_ok in Hrun as (rgb & _ & Hrun).
  apply bind_ok in Hrun as ([[idx c] e] & _ & Hrun).
  apply bind_ok in Hrun as (out & _ & Hrun).
  apply bind_ok in Hrun as (img & _ & Hrun).
  apply bind_ok in Hrun as ([] & _ & [= <-]). by repeat split.
Qed.

Lemma foldM_config (l : list (nat * nat)) (st st' : sweep) :
  foldM process_pixel l st = Ok st' -> same_config (self st') (self st).
Proof.
  revert st. induction l as [|xy l IH]; intros st Hrun; simpl in Hrun.
  - inversion Hrun. by repeat split.
  - apply bind_ok in Hrun as (st1 & Hstep & Hrun).
    eapply same_config_trans; [exact (IH _ Hrun)|]. by eapply process_pixel_config.
Qed.

Lemma dither_array_keeps_config (self0 : t) (source : array3 RGB) (st : sweep) :
  dither_array self0 source = Ok st -> same_config (self st) self0.
Proof.
  unfold dither_array. intros Hrun. apply bind_ok in Hrun as (st1 & Hfold & Hrun).
  apply bind_ok in Hrun as ([] & _ & [= <-]).
  eapply same_config_trans; [exact (foldM_config _ _ _ Hfold)|]. by repeat split.
Qed.

Lemma outcome_run (self0 : t) (h : heap) (l : loc) (img : Image) (resize : bool) :
  h !! l = Some img ->
  outcome (dither_image self0 (Some l) resize h)
  = pimg ← prepared resize img;
    st ← dither_array self0 (PIL.array_of pimg);
    Ok (PIL.image_of (ImageProcessor.clipped (output_array st))).
Proof.
  intros Hl. destruct (dither_image_run self0 h l img resize Hl) as (h1 & _ & ->).
  destruct (prepared resize img) as [pimg|e]; cbn [mbind result_bind]; [|done].
  destruct (dither_array self0 (PIL.array_of pimg)) as [st|e]; simpl; [|done].
  by rewrite lookup_insert_eq.
Qed.

(** C8. Two runs of [dither_image] on the same source image with the same
    palette, matrix, observer and resize option return the same image, pixel
    for pixel, or raise the same exception, whatever the counters the
    ditherers were left with and wherever the source lies on the heap; in
    particular a second run on the ditherer and the heap that a first run
    left behind returns the image the first run returned. *)
Theorem dither_image_deterministic (self1 self2 : t) (h1 h2 : heap) (l1 l2 : loc)
    (img : Image) (resize : bool) :
  same_config self1 self2 -> h1 !! l1 = Some img -> h2 !! l2 = Some img ->
  outcome (dither_image self1 (Some l1) resize h1)
  = outcome (dither_image self2 (Some l2) resize h2)
  /\ (forall r s h', dither_image self1 (Some l1) resize h1 = (Ok (r, s), h') ->
        outcome (dither_image s (Some l1) resize h')
        = outcome (dither_image self1 (Some l1) resize h1)).
Proof.
  intros Hcfg Hl1 Hl2. split.
  - rewrite (outcome_run self1 h1 l1 img resize Hl1),
      (outcome_run self2 h2 l2 img resize Hl2).
    destruct (prepared resize img) as [pimg|e]; cbn [mbind result_bind]; [|done].
    by rewrite (dither_array_config _ _ _ Hcfg).
  - intros r s h' Hrun.
    destruct (dither_image_run self1 h1 l1 img resize Hl1) as (h1' & Hsub & Heq).
    rewrite Heq in Hrun.
    destruct (prepared resize img) as [pimg|e] eqn:Hp; cbn [mbind result_bind] in Hrun;
      [|discriminate].
    destruct (dither_array self1 (PIL.array_of pimg)) as [st|e] eqn:Hst;
      [|discriminate].
    inversion Hrun; subst r s h'; clear Hrun.
    assert (Hl' : <[fresh (dom h1') :=
                     PIL.image_of (ImageProcessor.clipped (output_array st))]> h1' !! l1
                  = Some img).
    { rewrite lookup_insert_ne.
      - by eapply lookup_weaken.
      - intros Heq'. apply (is_fresh (dom h1')). rewrite Heq'.
        apply elem_of_dom. exists img. by eapply lookup_weaken. }
    rewrite (outcome_run (self st) _ l1 img resize Hl'),
      (outcome_run self1 h1 l1 img resize Hl1).
    rewrite Hp. cbn [mbind result_bind].
    by rewrite (dither_array_config _ _ _ (dither_array_keeps_config _ _ _ Hst)).
Qed.

(** The heap after a call of [dither_image] extends the heap before it,
    and the location returned was free. *)
Lemma dither_image_frame (self0 : t) (image : option loc) (resize : bool) (h : heap) :
  h ⊆ (dither_image self0 image resize h).2
  /\ (forall r s, (dither_image self0 image resize h).1 = Ok (r, s) -> h !! r = None).
Proof.
  destruct image as [l|].
  - destruct (h !! l) as [img|] eqn:Hl.
    + destruct (dither_image_run self0 h l img resize Hl) as (h1 & Hsub & ->).
      destruct (prepared resize img) as [pimg|e]; cbn [mbind result_bind].
      * destruct (dither_array self0 (PIL.array_of pimg)) as [st|e]; simpl.
        -- split.
           ++ etrans; [exact Hsub|]. apply alloc_extends.
           ++ intros r s [= <- _]. eapply lookup_weaken_None; [apply fresh_None|done].
        -- split; [done|]. intros r s [=].
      * simpl. split; [done|]. intros r s [=].
    + unfold dither_image, ImageProcessor.resize_for_minecraft,
        ImageProcessor.image_to_array, PIL.np_array, PIL.copy, bindM, deref, retM.
      destruct resize; rewrite Hl; simpl; (split; [done|]); intros r s [=].
  - destruct resize; simpl; (split; [done|]); intros r s [=].
Qed.

(** C10. [dither_image] leaves every image that was on the heap as it was,
    the caller's input image among them, whether it returns or raises; the
    image it returns is a new one. *)
Theorem dither_image_preserves_input (self0 : t) (image : option loc) (resize : bool)
    (h : heap) :
  h ⊆ (dither_image self0 image resize h).2
  /\ (forall l img, image = Some l -> h !! l = Some img ->
        (dither_image self0 image resize h).2 !! l = Some img)
  /\ (forall r s, (dither_image self0 image resize h).1 = Ok (r, s) -> h !! r = None).
Proof.
  destruct (dither_image_frame self0 image resize h) as [Hsub Hnew].
  split; [exact Hsub|]. split; [|exact Hnew].
  intros l img _ Hl. by eapply lookup_weaken.
Qed.

Lemma clip_uint8_id (c : RGB) : rgb_uint8 c -> ImageProcessor.clip_uint8 c = c.
Proof.
  destruct c as [[r g] b]. unfold rgb_uint8, is_uint8; simpl. intros (? & ? & ?).
  unfold ImageProcessor.clip_uint8.
  rewrite !Z.max_l, !Z.min_l by lia. by rewrite !uint8_id by (unfold is_uint8; lia).
Qed.

Lemma prepared_bands (resize : bool) (img pimg : Image) :
  wf_bands img -> prepared resize img = Ok pimg -> wf_bands pimg.
Proof.
  destruct resize; cbn [prepared].
  - intros _ Hr. by apply (resized_wf _ _ _ Hr).
  - by intros Hwf [= <-].
Qed.

Lemma prepared_wf (resize : bool) (img pimg : Image) :
  wf_image img -> prepared resize img = Ok pimg -> wf_image pimg.
Proof.
  destruct resize; cbn [prepared].
  - intros _ Hr. by apply (resized_wf _ _ _ Hr).
  - by intros Hwf [= <-].
Qed.

Lemma prepared_size (resize : bool) (img pimg : Image) :
  prepared resize img = Ok pimg ->
  size pimg = if resize then ImageProcessor.MINECRAFT_MAP_SIZE else size img.
Proof.
  destruct resize; cbn [prepared].
  - intros Hr. by apply (resized_wf _ _ _ Hr).
  - by intros [= <-].
Qed.

(** An output buffer that holds a palette colour in every cell becomes an
    image of palette colours. *)
Lemma image_of_pixels_in (colors : list RGB) (out : array3 RGB) :
  Forall rgb_uint8 colors -> wf_array out ->
  (forall x y, x < width out -> y < height out ->
     exists c, cell out x y = Some c /\ c ∈ colors) ->
  pixels_in colors (PIL.image_of (ImageProcessor.clipped out)).
Proof.
  intros Hbytes Hwf Hall. unfold pixels_in; simpl.
  apply Forall_fmap, Forall_lookup_2. intros j row Hrow.
  apply Forall_fmap, Forall_lookup_2. intros i px Hpx. simpl.
  assert (cell out i j = Some px) as Hcell by (unfold cell; by rewrite Hrow).
  destruct (cell_lt _ _ _ _ Hwf Hcell) as [Hi Hj].
  destruct (Hall i j Hi Hj) as (c & Hc & Hin).
  assert (px = c) as -> by congruence.
  rewrite clip_uint8_id; [done|].
  by apply (proj1 (Forall_forall _ _) Hbytes).
Qed.

Lemma image_of_wf (colors : list RGB) (out : array3 RGB) :
  Forall rgb_uint8 colors -> wf_array out ->
  pixels_in colors (PIL.image_of (ImageProcessor.clipped out)) ->
  wf_image (PIL.image_of (ImageProcessor.clipped out)).
Proof.
  intros Hbytes [Hh Hw] Hin. unfold wf_image, wf_bands; simpl.
  split; [done|]. split; [by rewrite length_map|]. split.
  - apply Forall_fmap. eapply Forall_impl; [exact Hw|].
    intros row Hrow. simpl. by rewrite length_map.
  - eapply Forall_impl; [exact Hin|]. intros row Hrow.
    eapply Forall_impl; [exact Hrow|]. intros px Hpx. simpl in Hpx.
    by apply (proj1 (Forall_forall _ _) Hbytes).
Qed.

(** The image that a run of the sweep leaves is a well-formed image of
    palette colours, of the size of the source. *)
Lemma dither_array_image (self0 : t) (source : array3 RGB) (st : sweep) :
  wf_ditherer self0 -> wf_array source -> all_cells rgb_uint8 source ->
  dither_array self0 source = Ok st ->
  pixels_in (MinecraftPalette.colors_rgb (palette self0))
    (PIL.image_of (ImageProcessor.clipped (output_array st)))
  /\ size (PIL.image_of (ImageProcessor.clipped (output_array st)))
     = (width source, height source)
  /\ wf_image (PIL.image_of (ImageProcessor.clipped (output_array st))).
Proof.
  intros Hself Hwf Hrgb Hrun.
  destruct (proj1 (dither_array_spec self0 source Hself Hwf Hrgb) st Hrun)
    as (_ & _ & _ & _ & Hwo & Hho & Hwdo & _ & Hdone).
  assert (Hin : pixels_in (MinecraftPalette.colors_rgb (palette self0))
                  (PIL.image_of (ImageProcessor.clipped (output_array st)))).
  { apply image_of_pixels_in; [apply Hself|done|].
    intros x y Hx Hy. apply Hdone. simpl. lia. }
  split; [exact Hin|]. split; [simpl; by rewrite Hho, Hwdo|].
  apply (image_of_wf (MinecraftPalette.colors_rgb (palette self0)));
    [apply Hself|done|done].
Qed.

Lemma quantize_pixel_spec (self0 : t) (a out : array3 RGB) (D : nat * nat -> Prop)
    (x y : nat) :
  wf_ditherer self0 -> wf_array a -> quantize_inv self0 a D out ->
  x < width a -> y < height a ->
  exists out', quantize_pixel self0 a out (x, y) = Ok out'
    /\ quantize_inv self0 a (fun q => q = (x, y) \/ D q) out'.
Proof.
  intros [Hpal _] Hwf (Hwo & [Hh Hw] & Hdone) Hx Hy.
  destruct (cell_is_Some a x y Hwf Hx Hy) as [v Hv].
  destruct (find_closest_color_spec (palette self0) v "lab" (wf_built _ Hpal))
    as (idx & c & hex & Hfind & Hc & _ & _).
  assert (Hin : c ∈ MinecraftPalette.colors_rgb (palette self0))
    by (apply list_elem_of_lookup; eauto).
  assert (Hbyte : rgb_uint8 c).
  { destruct Hpal as (_ & _ & _ & Hall). by eapply Forall_lookup_1. }
  destruct (set2_cell out x y (uint8_rgb c) Hwo) as (out' & Hset & Hwo' & Hso' & Hco');
    [lia..|].
  exists out'. split.
  - unfold quantize_pixel. rewrite (get2_cell _ _ _ _ Hv). cbn [mbind result_bind].
    rewrite Hfind. cbn [mbind result_bind]. exact Hset.
  - split; [done|]. split; [by eapply same_shape_trans|].
    intros x' y' Hq. rewrite Hco', uint8_rgb_id by done.
    destruct (decide _) as [_|Hne]; [eauto|].
    destruct Hq as [Hq|Hq]; [inversion Hq; subst; tauto|]. by apply Hdone.
Qed.

Lemma quantize_fold (self0 : t) (a : array3 RGB) (l : list (nat * nat)) :
  wf_ditherer self0 -> wf_array a ->
  (forall x y, (x, y) ∈ l -> x < width a /\ y < height a) ->
  forall D out, quantize_inv self0 a D out ->
    exists out', foldM (quantize_pixel self0 a) l out = Ok out'
      /\ quantize_inv self0 a (fun q => q ∈ l \/ D q) out'.
Proof.
  intros Hself Hwf. induction l as [|[x y] l IH]; intros Hl D out Hinv.
  - exists out. split; [done|]. destruct Hinv as (? & ? & Hdone).
    repeat (split; [done|]). intros x y [Hq|Hq]; [by apply elem_of_nil in Hq|eauto].
  - destruct (Hl x y ltac:(left)) as [Hx Hy].
    destruct (quantize_pixel_spec self0 a out D x y Hself Hwf Hinv Hx Hy)
      as (out1 & Hstep & Hinv1).
    destruct (IH (fun x' y' Hq => Hl x' y' ltac:(by right)) _ out1 Hinv1)
      as (out' & Hrun & (? & ? & Hdone)).
    exists out'. split; [cbn [foldM]; by rewrite Hstep|].
    repeat (split; [done|]). intros x' y' [Hq|Hq]; apply Hdone; [|tauto].
    apply elem_of_cons in Hq as [->|Hq]; tauto.
Qed.

(** The quantize-only loop always returns, with a palette colour in every
    cell. *)
Lemma quantize_array_spec (self0 : t) (a : array3 RGB) :
  wf_ditherer self0 -> wf_array a ->
  exists out, quantize_array self0 a = Ok out
    /\ pixels_in (MinecraftPalette.colors_rgb (palette self0))
         (PIL.image_of (ImageProcessor.clipped out))
    /\ size (PIL.image_of (ImageProcessor.clipped out)) = (width a, height a).
Proof.
  intros Hself Hwf.
  assert (Hz : quantize_inv self0 a (fun _ => False) (zeros_like a)).
  { split; [exact (wf_array_map (fun _ => (0, 0, 0)%Z) a Hwf)|]. by split. }
  destruct (quantize_fold self0 a (pixel_order (height a) (width a)) Hself Hwf
              (fun x y Hq => proj1 (pixel_order_elem _ _ _ _) Hq) _ _ Hz)
    as (out & Hrun & Hwo & [Hh Hw] & Hdone).
  exists out. split; [exact Hrun|]. split.
  - apply image_of_pixels_in; [apply Hself|done|].
    intros x y Hx Hy. apply Hdone. left. apply pixel_order_elem. lia.
  - simpl. by rewrite Hh, Hw.
Qed.

(** What a call of [dither_image] returns on an image of three bands of
    bytes: an image of palette colours of the size of the prepared image;
    and it returns when the preparation returns and the observer does not
    raise. *)
Lemma dither_image_output (self0 : t) (h : heap) (l : loc) (img : Image) (resize : bool) :
  wf_ditherer self0 -> h !! l = Some img -> wf_bands img ->
  (forall r s h', dither_image self0 (Some l) resize h = (Ok (r, s), h') ->
     exists pimg out, prepared resize img = Ok pimg
       /\ h' !! r = Some out
       /\ size out = size pimg
       /\ pixels_in (MinecraftPalette.colors_rgb (palette self0)) out
       /\ wf_image out)
  /\ (quiet self0 -> forall pimg, prepared resize img = Ok pimg ->
        exists r s h', dither_image self0 (Some l) resize h = (Ok (r, s), h')).
Proof.
  intros Hself Hl Hwf.
  destruct (dither_image_run self0 h l img resize Hl) as (h1 & _ & ->).
  destruct (prepared resize img) as [pimg|e] eqn:Hp; cbn [mbind result_bind].
  2: { split; [intros r s h' [=]|intros _ pimg [=]]. }
  destruct (wf_bands_array _ (prepared_bands resize img pimg Hwf Hp)) as [Hwa Hbytes].
  destruct (dither_array_spec self0 _ Hself Hwa Hbytes) as [_ Htot].
  split.
  - intros r s h' Hrun.
    destruct (dither_array self0 (PIL.array_of pimg)) as [st|e] eqn:Hst;
      [|discriminate].
    inversion Hrun; subst. exists pimg. eexists. split; [reflexivity|].
    rewrite lookup_insert_eq. split; [reflexivity|].
    destruct (dither_array_image self0 _ st Hself Hwa Hbytes Hst) as (Hin & Hsz & Hwfo).
    split; [|by split]. rewrite Hsz. unfold PIL.array_of; cbn [width height].
    by destruct (size pimg).
  - intros Hq pimg' _. destruct (Htot Hq) as [st ->]. eauto.
Qed.

Lemma create_quantized_run (self0 : t) (h : heap) (l : loc) (img : Image) :
  wf_ditherer self0 -> wf_bands img -> h !! l = Some img ->
  exists out, quantize_array self0 (PIL.array_of img) = Ok out
    /\ _create_quantized_image self0 (Some l) h
       = (Ok (fresh (dom h)),
          <[fresh (dom h) := PIL.image_of (ImageProcessor.clipped out)]> h).
Proof.
  intros Hself Hwf Hl.
  destruct (quantize_array_spec self0 (PIL.array_of img) Hself
              (proj1 (wf_bands_array img Hwf))) as (out & Hq & _).
  exists out. split; [exact Hq|].
  unfold _create_quantized_image, ImageProcessor.image_to_array, PIL.np_array.
  unfold bindM at 1. rewrite (bindM_ok _ _ _ _ _ (deref_ok _ _ _ Hl)). cbv beta.
  unfold retM at 1. unfold bindM at 1, liftM at 1, unpack_shape.
  unfold bindM at 1, liftM at 1. rewrite Hq.
  by unfold ImageProcessor.array_to_image, PIL.fromarray, alloc.
Qed.

(** The first step of [dither_with_comparison]: the prepared image is put
    on the heap, or the preparation raises. *)
Lemma comparison_original (h : heap) (l : loc) (img : Image) (resize : bool) :
  h !! l = Some img ->
  exists h1, h ⊆ h1
    /\ match prepared resize img with
       | Ok pimg =>
           exists lo, h !! lo = None /\ h1 !! lo = Some pimg
             /\ (if resize then ImageProcessor.resize_for_minecraft (Some l) None
                 else PIL.copy (Some l)) h = (Ok lo, h1)
       | Raise e =>
           (if resize then ImageProcessor.resize_for_minecraft (Some l) None
            else PIL.copy (Some l)) h = (Raise e, h1)
       end.
Proof.
  intros Hl. destruct resize; cbn [prepared].
  - destruct (resize_for_minecraft_spec h l img None Hl) as (h1 & Hsub & Hrun).
    exists h1. split; [done|].
    change (default ImageProcessor.MINECRAFT_MAP_SIZE None)
      with ImageProcessor.MINECRAFT_MAP_SIZE in Hrun.
    destruct (resized img ImageProcessor.MINECRAFT_MAP_SIZE) as [r|e]; [|done].
    destruct Hrun as (lo & Hrun & Hfresh & Hlo). by exists lo.
  - exists (<[fresh (dom h) := img]> h). split; [apply alloc_extends|].
    exists (fresh (dom h)). split; [apply fresh_None|]. split; [apply lookup_insert_eq|].
    unfold PIL.copy. by rewrite (bindM_ok _ _ _ _ _ (deref_ok _ _ _ Hl)).
Qed.

(** What a call of [dither_with_comparison] amounts to: the prepared image
    and its quantize-only image are put on the heap, and the prepared
    image is dithered without further resizing. *)
Lemma comparison_run (self0 : t) (h : heap) (l : loc) (img pimg : Image) (resize : bool) :
  wf_ditherer self0 -> wf_bands img -> h !! l = Some img ->
  prepared resize img = Ok pimg ->
  exists original quantized h2 qimg,
    h ⊆ h2
    /\ h2 !! original = Some pimg
    /\ h2 !! quantized = Some qimg
    /\ pixels_in (MinecraftPalette.colors_rgb (palette self0)) qimg
    /\ size qimg = size pimg
    /\ dither_with_comparison self0 (Some l) resize h
       = match dither_image self0 (Some original) false h2 with
         | (Ok (r, s), h3) => (Ok (original, quantized, r, s), h3)
         | (Raise e, h3) => (Raise e, h3)
         end.
Proof.
  intros Hself Hwf Hl Hp.
  destruct (comparison_original h l img resize Hl) as (h1 & Hsub & Hprep).
  rewrite Hp in Hprep. destruct Hprep as (lo & _ & Hlo & Hprep).
  pose proof (prepared_bands resize img pimg Hwf Hp) as Hwfp.
  destruct (create_quantized_run self0 h1 lo _ Hself Hwfp Hlo) as (qout & Hq & Hquant).
  destruct (quantize_array_spec self0 _ Hself (proj1 (wf_bands_array _ Hwfp)))
    as (qout' & Hq' & Hin & Hsz).
  assert (qout' = qout) as -> by congruence.
  exists lo, (fresh (dom h1)),
    (<[fresh (dom h1) := PIL.image_of (ImageProcessor.clipped qout)]> h1),
    (PIL.image_of (ImageProcessor.clipped qout)).
  split; [etrans; [exact Hsub|apply alloc_extends]|].
  split.
  { rewrite lookup_insert_ne; [done|]. intros Heq. apply (is_fresh (dom h1)).
    rewrite Heq. apply elem_of_dom. eauto. }
  split; [apply lookup_insert_eq|]. split; [exact Hin|].
  split; [rewrite Hsz; simpl; by destruct (size pimg)|].
  unfold dither_with_comparison.
  rewrite (bindM_ok _ _ _ _ _ Hprep). cbv beta.
  rewrite (bindM_ok _ _ _ _ _ Hquant). cbv beta.
  unfold bindM at 1.
  destruct (dither_image self0 (Some lo) false _) as [[[r s]|e] h3]; done.
Qed.

(** [dither_with_comparison] raises what the preparation raises. *)
Lemma comparison_raises (self0 : t) (h : heap) (l : loc) (img : Image) (resize : bool)
    (e : exn) :
  h !! l = Some img -> prepared resize img = Raise e ->
  exists h1, h ⊆ h1 /\ dither_with_comparison self0 (Some l) resize h = (Raise e, h1).
Proof.
  intros Hl Hp. destruct (comparison_original h l img resize Hl) as (h1 & Hsub & Hprep).
  rewrite Hp in Hprep. exists h1. split; [done|].
  unfold dither_with_comparison. by rewrite (bindM_raise _ _ _ _ _ Hprep).
Qed.

(** C9, as the code has it.  For a palette whose colours are bytes, every
    pixel of the image that [dither_image] returns, and every pixel of the
    quantize-only image and of the dithered image that
    [dither_with_comparison] returns, is one of the colours of the
    palette, for every input image of three bands of bytes; the images
    have the size of the prepared image.  Both calls return when the
    preparation of the image returns and the observer does not raise; the
    preparation returns when no resizing is asked for and when the image
    is an RGB image that fits in the map. *)
Theorem output_pixels_in_palette (self0 : t) (h : heap) (l : loc) (img : Image)
    (resize : bool) :
  wf_ditherer self0 -> h !! l = Some img -> wf_bands img ->
  (forall r s h', dither_image self0 (Some l) resize h = (Ok (r, s), h') ->
     exists pimg out, prepared resize img = Ok pimg
       /\ h' !! r = Some out
       /\ size out = size pimg
       /\ pixels_in (MinecraftPalette.colors_rgb (palette self0)) out)
  /\ (forall o q d s h',
        dither_with_comparison self0 (Some l) resize h = (Ok (o, q, d, s), h') ->
        exists pimg qimg dimg, prepared resize img = Ok pimg
          /\ h' !! q = Some qimg /\ h' !! d = Some dimg
          /\ pixels_in (MinecraftPalette.colors_rgb (palette self0)) qimg
          /\ pixels_in (MinecraftPalette.colors_rgb (palette self0)) dimg
          /\ size qimg = size pimg /\ size dimg = size pimg)
  /\ (quiet self0 -> forall pimg, prepared resize img = Ok pimg ->
        (exists r s h', dither_image self0 (Some l) resize h = (Ok (r, s), h'))
        /\ (exists o q d s h',
              dither_with_comparison self0 (Some l) resize h = (Ok (o, q, d, s), h')))
  /\ (resize = false
      \/ (mode img = "RGB"%string /\ fits img ImageProcessor.MINECRAFT_MAP_SIZE) ->
      exists pimg, prepared resize img = Ok pimg).
Proof.
  intros Hself Hl Hwf.
  destruct (dither_image_output self0 h l img resize Hself Hl Hwf) as [Hout Htot].
  split.
  { intros r s h' Hrun. destruct (Hout r s h' Hrun) as (pimg & out & ? & ? & ? & ? & _).
    eauto 10. }
  split.
  { intros o q d s h' Hrun.
    destruct (prepared resize img) as [pimg|e] eqn:Hp.
    2: { destruct (comparison_raises self0 h l img resize e Hl Hp) as (h1 & _ & Heq).
         rewrite Heq in Hrun. discriminate. }
    destruct (comparison_run self0 h l img pimg resize Hself Hwf Hl Hp)
      as (lo & lq & h2 & qimg & Hsub & Hlo & Hlq & Hqin & Hqsz & Hcmp).
    destruct (dither_image_output self0 h2 lo pimg false Hself Hlo
                (prepared_bands resize img pimg Hwf Hp)) as [Hout2 _].
    rewrite Hcmp in Hrun.
    destruct (dither_image self0 (Some lo) false h2) as [[[r s']|e] h3] eqn:Hd;
      [|discriminate].
    inversion Hrun; subst o q d s h'.
    destruct (Hout2 r s' h3 eq_refl) as (pimg' & dimg & Hp' & Hr & Hdsz & Hdin & _).
    cbn [prepared] in Hp'. inversion Hp'; subst pimg'.
    exists pimg, qimg, dimg. split; [done|]. split.
    { pose proof (proj1 (dither_image_frame self0 (Some lo) false h2)) as Hfr.
      rewrite Hd in Hfr. by eapply lookup_weaken. }
    by repeat split. }
  split.
  { intros Hq pimg Hp. split; [by apply (Htot Hq pimg)|].
    destruct (comparison_run self0 h l img pimg resize Hself Hwf Hl Hp)
      as (lo & lq & h2 & qimg & Hsub & Hlo & Hlq & Hqin & Hqsz & Hcmp).
    destruct (dither_image_output self0 h2 lo pimg false Hself Hlo
                (prepared_bands resize img pimg Hwf Hp)) as [_ Htot2].
    destruct (Htot2 Hq pimg eq_refl) as (r & s & h3 & Hd). rewrite Hcmp, Hd. eauto 10. }
  intros [-> | [Hmode Hfit]]; [by exists img|].
  destruct resize; [by apply prepared_fits|by exists img].
Qed.

(** C6, as the code has it.  [dither_image] validates nothing itself;
    [validate_image_for_processing] is a helper that returns a flag and a
    message, does not raise, and is not called.  A source that is [None]
    makes [dither_image] raise before any pixel is processed, and the heap
    is then as it was: no output image exists.  A source with a zero
    dimension is not rejected as such: with resizing on, an RGB source
    that fits in the map is put on the black canvas and the call returns
    a complete image of the size of the map; a source of height zero that
    does not fit makes [thumbnail] divide by zero.  A source of a mode
    that the helper calls unsupported, of three bands of bytes, is not
    rejected with resizing off: its bands are swept as if they were RGB,
    and the call returns a complete image of its size. *)
Theorem dither_image_no_validation (self0 : t) (h : heap) (l : loc) (img : Image) :
  wf_ditherer self0 -> quiet self0 -> h !! l = Some img -> wf_bands img ->
  dither_image self0 None true h
    = (Raise (AttributeError "'NoneType' object has no attribute 'copy'"), h)
  /\ dither_image self0 None false h
     = (Raise (ValueError "not enough values to unpack (expected 2, got 0)"), h)
  /\ ImageProcessor.validate_image_for_processing None = (false, "Image is None"%string)
  /\ ((size img).1 = 0 \/ (size img).2 = 0 ->
        ImageProcessor.validate_image_for_processing (Some img)
        = (false, "Image has zero dimensions"%string))
  /\ ((size img).1 = 0 \/ (size img).2 = 0 ->
      mode img = "RGB"%string -> fits img ImageProcessor.MINECRAFT_MAP_SIZE ->
        exists r s h' out,
          dither_image self0 (Some l) true h = (Ok (r, s), h')
          /\ h' !! r = Some out
          /\ size out = ImageProcessor.MINECRAFT_MAP_SIZE
          /\ pixels_in (MinecraftPalette.colors_rgb (palette self0)) out)
  /\ ((size img).2 = 0 -> ~ fits img ImageProcessor.MINECRAFT_MAP_SIZE ->
        exists h', h ⊆ h'
          /\ dither_image self0 (Some l) true h
             = (Raise (ZeroDivisionError "division by zero"), h'))
  /\ ((size img).1 <> 0 -> (size img).2 <> 0 ->
      mode img ∉ ["RGB"; "RGBA"; "L"; "P"]%string ->
        ImageProcessor.validate_image_for_processing (Some img)
        = (false, ("Unsupported image mode: " ++ mode img)%string)
        /\ exists r s h' out,
             dither_image self0 (Some l) false h = (Ok (r, s), h')
             /\ h' !! r = Some out
             /\ size out = size img
             /\ pixels_in (MinecraftPalette.colors_rgb (palette self0)) out).
Proof.
  intros Hself Hq Hl Hwf.
  split; [reflexivity|]. split; [reflexivity|]. split; [reflexivity|]. split.
  { intros Hzero. unfold ImageProcessor.validate_image_for_processing.
    destruct Hzero as [-> | ->]; [done|]. by rewrite orb_true_r. }
  split.
  { intros _ Hmode Hfit.
    destruct (dither_image_output self0 h l img true Hself Hl Hwf) as [Hout Htot].
    destruct (prepared_fits img Hmode Hfit) as (pimg & Hp).
    destruct (Htot Hq pimg Hp) as (r & s & h' & Hrun).
    destruct (Hout r s h' Hrun) as (pimg' & out & Hp' & Hr & Hsz & Hin & _).
    exists r, s, h', out. split; [done|]. split; [done|]. split; [|done].
    rewrite Hsz. exact (prepared_size true img pimg' Hp'). }
  split.
  { intros Hzero Hfit.
    destruct (dither_image_run self0 h l img true Hl) as (h1 & Hsub & Hrun).
    exists h1. split; [done|]. rewrite Hrun. cbn [prepared].
    by rewrite (resized_zero img _ Hfit (or_introl Hzero)). }
  intros Hw Hh Hmode. split.
  { unfold ImageProcessor.validate_image_for_processing.
    destruct (Nat.eqb_spec (size img).1 0); [done|].
    destruct (Nat.eqb_spec (size img).2 0); [done|].
    by rewrite bool_decide_eq_false_2. }
  destruct (dither_image_output self0 h l img false Hself Hl Hwf) as [Hout Htot].
  destruct (Htot Hq img eq_refl) as (r & s & h' & Hrun).
  destruct (Hout r s h' Hrun) as (pimg' & out & Hp' & Hr & Hsz & Hin & _).
  cbn [prepared] in Hp'. inversion Hp'; subst pimg'.
  by exists r, s, h', out.
Qed.

(** [resize_for_minecraft] takes any map size: it checks no range and, for
    an RGB image that fits, returns a canvas of exactly that size. *)
Lemma resize_for_minecraft_any_size (h : heap) (l : loc) (img : Image) (ms : nat * nat) :
  h !! l = Some img -> mode img = "RGB"%string -> fits img ms ->
  exists final_image h' canvas,
    ImageProcessor.resize_for_minecraft (Some l) (Some ms) h = (Ok final_image, h')
    /\ h' !! final_image = Some canvas /\ size canvas = ms.
Proof.
  intros Hl Hmode Hfit.
  destruct (resize_for_minecraft_ok h l img (Some ms) _ Hl (resized_fits img ms Hmode Hfit))
    as (f & h' & Hrun & _ & _ & Hf).
  eexists f, h', _. split; [exact Hrun|]. split; [exact Hf|].
  apply (resized_wf img ms). by apply resized_fits.
Qed.

End Run.

Lemma dither_image_deterministic_witness :
  same_config (ditherer_of black_only) (used (ditherer_of black_only) 5 7)
  /\ ({[ 1%positive := dim_image ]} : heap) !! 1%positive = Some dim_image
  /\ ({[ 1%positive := empty_image; 3%positive := dim_image ]} : heap) !! 3%positive
     = Some dim_image
  /\ outcome (MinecraftDitherer.dither_image (ditherer_of black_only)
                (Some 1%positive) false {[ 1%positive := dim_image ]})
     = outcome (MinecraftDitherer.dither_image (used (ditherer_of black_only) 5 7)
                  (Some 3%positive) false
                  {[ 1%positive := empty_image; 3%positive := dim_image ]}).
Proof.
  assert (Hc : same_config (ditherer_of black_only) (used (ditherer_of black_only) 5 7))
    by (by repeat split).
  split; [exact Hc|]. split; [reflexivity|]. split; [reflexivity|].
  exact (proj1 (dither_image_deterministic
                  (ditherer_of black_only) (used (ditherer_of black_only) 5 7)
                  {[ 1%positive := dim_image ]}
                  {[ 1%positive := empty_image; 3%positive := dim_image ]}
                  1%positive 3%positive dim_image false Hc eq_refl eq_refl)).
Defined.

Lemma dither_image_preserves_input_witness :
  Some 1%positive = Some 1%positive
  /\ ({[ 1%positive := dim_image ]} : heap) !! 1%positive = Some dim_image
  /\ (MinecraftDitherer.dither_image (ditherer_of black_only) (Some 1%positive) true
        {[ 1%positive := dim_image ]}).2 !! 1%positive = Some dim_image.
Proof.
  split; [reflexivity|]. split; [reflexivity|].
  exact (proj1 (proj2 (dither_image_preserves_input (ditherer_of black_only)
                         (Some 1%positive) true {[ 1%positive := dim_image ]}))
               1%positive dim_image eq_refl eq_refl).
Defined.

Lemma black_ditherer_quiet : quiet (ditherer_of black_only).
Proof. intros cb n m Hcb. discriminate. Defined.

Lemma dim_image_wf : wf_image dim_image.
Proof.
  split; [reflexivity|]. split; [reflexivity|]. split; [repeat constructor|].
  repeat constructor; unfold is_uint8; simpl; lia.
Defined.

Lemma empty_image_wf : wf_image empty_image.
Proof. by repeat split. Defined.

Lemma ycbcr_pixel_bands : wf_bands ycbcr_pixel.
Proof.
  split; [reflexivity|]. split; [repeat constructor|].
  repeat constructor; unfold is_uint8; simpl; lia.
Defined.

Lemma dim_image_fits : fits dim_image ImageProcessor.MINECRAFT_MAP_SIZE.
Proof. split; simpl; lia. Defined.

Lemma empty_image_fits : fits empty_image ImageProcessor.MINECRAFT_MAP_SIZE.
Proof. split; simpl; lia. Defined.

Lemma heap_one (img : Image) : ({[ 1%positive := img ]} : heap) !! 1%positive = Some img.
Proof. reflexivity. Defined.

Lemma output_pixels_in_palette_witness :
  wf_ditherer (ditherer_of black_only)
  /\ ({[ 1%positive := dim_image ]} : heap) !! 1%positive = Some dim_image
  /\ wf_bands dim_image
  /\ exists r s h' out,
       MinecraftDitherer.dither_image (ditherer_of black_only) (Some 1%positive) true
         {[ 1%positive := dim_image ]} = (Ok (r, s), h')
       /\ h' !! r = Some out
       /\ size out = (128, 128)
       /\ pixels_in (MinecraftPalette.colors_rgb black_only) out.
Proof.
  destruct (output_pixels_in_palette (ditherer_of black_only)
              {[ 1%positive := dim_image ]} 1%positive dim_image true
              black_ditherer_wf (heap_one dim_image) (proj2 dim_image_wf))
    as (Hout & _ & Htot & Hprep).
  split; [exact black_ditherer_wf|]. split; [reflexivity|].
  split; [exact (proj2 dim_image_wf)|].
  destruct (Hprep (or_intror (conj eq_refl dim_image_fits))) as (pimg & Hp).
  destruct (proj1 (Htot black_ditherer_quiet pimg Hp)) as (r & s & h' & Hrun).
  destruct (Hout r s h' Hrun) as (pimg' & out & Hp' & Hr & Hsz & Hin).
  exists r, s, h', out. split; [exact Hrun|]. split; [exact Hr|]. split; [|exact Hin].
  rewrite Hsz. exact (prepared_size true dim_image pimg' Hp').
Defined.

(** C9 as stated fails on a palette with a colour that is no byte: the
    constructor reads the code [#-1-1-1] as the colour (-1, -1, -1), and
    the output buffer, whose channels are bytes, takes it as
    (255, 255, 255), which is no colour of the palette. *)
Lemma output_pixels_in_palette_counterexample :
  exists d r s h' out,
    MinecraftDitherer.init (Some ["#-1-1-1"%string]) = Ok d
    /\ MinecraftPalette.colors_rgb (MinecraftDitherer.palette d) = [(-1, -1, -1)%Z]
    /\ MinecraftDitherer.dither_image d (Some 1%positive) false
         {[ 1%positive := dim_image ]} = (Ok (r, s), h')
    /\ h' !! r = Some out
    /\ pixels out = [ [ (255, 255, 255); (255, 255, 255) ];
                      [ (255, 255, 255); (255, 255, 255) ] ]%Z
    /\ ~ pixels_in (MinecraftPalette.colors_rgb (MinecraftDitherer.palette d)) out.
Proof.
  eexists _, _, _, _, _. split; [vm_compute; reflexivity|].
  split; [reflexivity|]. split; [vm_compute; reflexivity|].
  split; [vm_compute; reflexivity|]. split; [reflexivity|].
  intros Hin. unfold pixels_in in Hin. cbn [pixels] in Hin.
  apply Forall_cons_1 in Hin as [Hrow _]. apply Forall_cons_1 in Hrow as [Hpx _].
  apply list_elem_of_singleton in Hpx. discriminate.
Qed.

Lemma dither_image_no_validation_witness :
  wf_ditherer (ditherer_of black_only) /\ quiet (ditherer_of black_only)
  /\ ({[ 1%positive := empty_image ]} : heap) !! 1%positive = Some empty_image
  /\ wf_bands empty_image
  /\ ((size empty_image).1 = 0 \/ (size empty_image).2 = 0)
  /\ mode empty_image = "RGB"%string
  /\ fits empty_image ImageProcessor.MINECRAFT_MAP_SIZE
  /\ exists r s h' out,
       MinecraftDitherer.dither_image (ditherer_of black_only) (Some 1%positive) true
         {[ 1%positive := empty_image ]} = (Ok (r, s), h')
       /\ h' !! r = Some out
       /\ size out = ImageProcessor.MINECRAFT_MAP_SIZE
       /\ pixels_in (MinecraftPalette.colors_rgb black_only) out.
Proof.
  split; [exact black_ditherer_wf|]. split; [exact black_ditherer_quiet|].
  split; [reflexivity|]. split; [exact (proj2 empty_image_wf)|]. split; [by left|].
  split; [reflexivity|]. split; [exact empty_image_fits|].
  exact (proj1 (proj2 (proj2 (proj2 (proj2
           (dither_image_no_validation (ditherer_of black_only)
              {[ 1%positive := empty_image ]} 1%positive empty_image
              black_ditherer_wf black_ditherer_quiet (heap_one empty_image)
              (proj2 empty_image_wf))))))
           (or_introl eq_refl) eq_refl empty_image_fits).
Defined.

(** C6 as stated fails on a zero-dimension source and on a source of an
    unsupported mode.  With resizing on, the call on the RGB image without
    pixels returns a complete image of 128 by 128 pixels; with resizing
    off, the call on an image of one pixel of mode YCbCr returns a
    complete image of one pixel; [validate_image_for_processing] calls
    both sources invalid. *)
Lemma dither_image_no_validation_counterexample :
  (size empty_image = (0, 0)
   /\ ImageProcessor.validate_image_for_processing (Some empty_image)
      = (false, "Image has zero dimensions"%string)
   /\ exists r s h' out,
        MinecraftDitherer.dither_image (ditherer_of black_only) (Some 1%positive) true
          {[ 1%positive := empty_image ]} = (Ok (r, s), h')
        /\ h' !! r = Some out
        /\ size out = (128, 128)
        /\ length (pixels out) = 128)
  /\ (mode ycbcr_pixel = "YCbCr"%string
      /\ ImageProcessor.validate_image_for_processing (Some ycbcr_pixel)
         = (false, "Unsupported image mode: YCbCr"%string)
      /\ exists r s h' out,
           MinecraftDitherer.dither_image (ditherer_of black_only) (Some 1%positive)
             false {[ 1%positive := ycbcr_pixel ]} = (Ok (r, s), h')
           /\ h' !! r = Some out
           /\ size out = (1, 1)
           /\ pixels out = [ [ (0, 0, 0)%Z ] ]).
Proof.
  split.
  - split; [reflexivity|]. split; [reflexivity|].
    destruct (dither_image_output (ditherer_of black_only)
                {[ 1%positive := empty_image ]} 1%positive empty_image true
                black_ditherer_wf (heap_one empty_image) (proj2 empty_image_wf))
      as [Hout Htot].
    destruct (prepared_fits empty_image eq_refl empty_image_fits) as (pimg & Hp).
    destruct (Htot black_ditherer_quiet pimg Hp) as (r & s & h' & Hrun).
    destruct (Hout r s h' Hrun) as (pimg' & out & Hp' & Hr & Hsz & _ & Hwfo).
    exists r, s, h', out. split; [exact Hrun|]. split; [exact Hr|].
    assert (Hs : size out = (128, 128)).
    { rewrite Hsz. exact (prepared_size true empty_image pimg' Hp'). }
    split; [exact Hs|]. destruct Hwfo as (_ & Hrows & _). by rewrite Hrows, Hs.
  - split; [reflexivity|]. split; [reflexivity|].
    eexists _, _, _, _. split; [vm_compute; reflexivity|].
    split; [vm_compute; reflexivity|]. split; reflexivity.
Qed.

(** C7 on the code: a canvas of 9 by 1 tiles of 128 pixels is not refused;
    [resize_for_minecraft] returns an image of 1152 by 128 pixels.  (A
    canvas of 2 by 1 tiles comes out at 256 by 128.) *)
Lemma resize_for_minecraft_nine_by_one :
  (exists final_image h' canvas,
     ImageProcessor.resize_for_minecraft (Some 1%positive) (Some (9 * 128, 128))
       {[ 1%positive := dim_image ]} = (Ok final_image, h')
     /\ h' !! final_image = Some canvas /\ size canvas = (1152, 128))
  /\ (exists final_image h' canvas,
        ImageProcessor.resize_for_minecraft (Some 1%positive) (Some (2 * 128, 128))
          {[ 1%positive := dim_image ]} = (Ok final_image, h')
        /\ h' !! final_image = Some canvas /\ size canvas = (256, 128)).
Proof.
  split.
  - apply (resize_for_minecraft_any_size {[ 1%positive := dim_image ]} 1%positive
             dim_image (9 * 128, 128) (heap_one dim_image) eq_refl).
    split; simpl; lia.
  - apply (resize_for_minecraft_any_size {[ 1%positive := dim_image ]} 1%positive
             dim_image (2 * 128, 128) (heap_one dim_image) eq_refl).
    split; simpl; lia.
Qed.

(** C5 on the code: the palette constructor refuses an empty colour list,
    but the ditherer given an empty list of custom colours does not reach
    that check: it is built with the 61 default colours, as if no list had
    been given. *)
Lemma empty_custom_colors_accepted :
  MinecraftPalette.init [] = Raise (ValueError "Color palette cannot be empty")
  /\ MinecraftDitherer.init (Some []) = MinecraftDitherer.init None
  /\ exists d, MinecraftDitherer.init (Some []) = Ok d
       /\ MinecraftPalette.carpet_colors (MinecraftDitherer.palette d)
          = MinecraftPalette.CARPET_COLORS
       /\ length (MinecraftPalette.colors_rgb (MinecraftDitherer.palette d)) = 61.
Proof.
  split; [reflexivity|]. split; [reflexivity|].
  eexists. split; [vm_compute; reflexivity|]. split; reflexivity.
Qed.

(** ** Hexadecimal colour codes *)

Section HexCodes.
Import MinecraftPalette PaletteTools.

Lemma hex_digit_char (d : Z) :
  (0 <= d < 16)%Z -> hex_digit (hex_char d) = Some d /\ hex_char d <> "#"%char.
Proof.
  intros Hd.
  assert (d = 0 \/ d = 1 \/ d = 2 \/ d = 3 \/ d = 4 \/ d = 5 \/ d = 6 \/ d = 7
          \/ d = 8 \/ d = 9 \/ d = 10 \/ d = 11 \/ d = 12 \/ d = 13 \/ d = 14
          \/ d = 15)%Z as Hcases by lia.
  repeat (destruct Hcases as [-> | Hcases]; [by vm_compute|]).
  subst. by vm_compute.
Qed.

Lemma hex_of_digit (fuel : nat) (v : Z) (acc : string) :
  (v < 16)%Z -> hex_of fuel v acc = String (hex_char (v mod 16)) acc.
Proof.
  intros Hv. destruct fuel; simpl; [done|].
  by destruct (Z.ltb_spec v 16); [|lia].
Qed.

(** A byte is written with exactly two digits. *)
Lemma format_02X_byte (v : Z) :
  is_uint8 v ->
  format_02X v = String (hex_char (v / 16)) (String (hex_char (v mod 16)) "").
Proof.
  intros [Hlo Hhi]. unfold format_02X.
  destruct (Z.ltb_spec v 0); [lia|].
  destruct (Z.ltb_spec v 16) as [Hs|Hs].
  - rewrite hex_of_digit by done. simpl.
    by rewrite (Z.div_small v 16) by lia.
  - assert (4 <= Z.log2 v)%Z as Hlog.
    { change 4%Z with (Z.log2 16). by apply Z.log2_le_mono. }
    destruct (Z.to_nat (Z.log2 v)) as [|fuel] eqn:Hfuel; [lia|].
    simpl. destruct (Z.ltb_spec v 16); [lia|].
    assert (0 <= v / 16 < 16)%Z as Hq.
    { split; [apply Z.div_pos; lia|]. apply Z.div_lt_upper_bound; lia. }
    rewrite hex_of_digit by lia. simpl.
    by rewrite (Z.mod_small (v / 16) 16) by lia.
Qed.

Lemma lstrip_hash_other (a : ascii) (s : string) :
  a <> "#"%char -> lstrip_hash (String a s) = String a s.
Proof.
  intros Ha. destruct a as [[] [] [] [] [] [] [] []]; simpl; try reflexivity.
  by destruct Ha.
Qed.

(** A hexadecimal digit is no blank, sign, underscore or letter x. *)
Lemma hex_digit_plain (a : ascii) (d : Z) :
  hex_digit a = Some d ->
  is_space a = false /\ Ascii.eqb a "+" = false /\ Ascii.eqb a "-" = false
  /\ Ascii.eqb a "_" = false /\ Ascii.eqb a "x" = false /\ Ascii.eqb a "X" = false.
Proof.
  intros Hd.
  destruct a as [[] [] [] [] [] [] [] []]; vm_compute in Hd;
    first [discriminate | by repeat split].
Qed.

(** Two hexadecimal digits are read as the byte they denote. *)
Lemma int16_two_digits (a b : ascii) (da db : Z) :
  hex_digit a = Some da -> hex_digit b = Some db ->
  int16 (String a (String b "")) = Ok (16 * da + db)%Z.
Proof.
  intros Ha Hb.
  destruct (hex_digit_plain a da Ha) as (Sa & Pa & Ma & Ua & _ & _).
  destruct (hex_digit_plain b db Hb) as (Sb & Pb & Mb & Ub & Xb & XXb).
  unfold int16. cbn [skip_spaces]. rewrite Sa.
  cbn [skip_sign]. rewrite Pa, Ma.
  cbn [skip_prefix]. rewrite Xb, XXb, andb_false_r.
  rewrite Ha. cbn [scan_digits]. rewrite Ua, Ha, Ub, Hb.
  cbn [skip_spaces]. f_equal; lia.
Qed.

Lemma int16_format_02X (v : Z) :
  is_uint8 v ->
  exists a b, format_02X v = String a (String b "")
              /\ a <> "#"%char
              /\ int16 (String a (String b "")) = Ok v.
Proof.
  intros Hv. pose proof Hv as [Hlo Hhi].
  assert (0 <= v / 16 < 16)%Z as Hq.
  { split; [apply Z.div_pos; lia|]. apply Z.div_lt_upper_bound; lia. }
  assert (0 <= v mod 16 < 16)%Z as Hr by (apply Z.mod_pos_bound; lia).
  destruct (hex_digit_char _ Hq) as [Hdq Hne].
  destruct (hex_digit_char _ Hr) as [Hdr _].
  exists (hex_char (v / 16)), (hex_char (v mod 16)).
  split; [by apply format_02X_byte|]. split; [done|].
  rewrite (int16_two_digits _ _ _ _ Hdq Hdr). f_equal.
  pose proof (Z.div_mod v 16). lia.
Qed.

(** What [rgb_to_hex] writes for a colour of bytes is read back by
    [hex_to_rgb]. *)
Lemma hex_to_rgb_of_rgb_to_hex (c : RGB) :
  rgb_uint8 c -> hex_to_rgb (rgb_to_hex c) = Ok c.
Proof.
  destruct c as [[r g] b]. intros (Hr & Hg & Hb). simpl in Hr, Hg, Hb.
  destruct (int16_format_02X r Hr) as (r1 & r0 & Er & Hne & Ir).
  destruct (int16_format_02X g Hg) as (g1 & g0 & Eg & _ & Ig).
  destruct (int16_format_02X b Hb) as (b1 & b0 & Eb & _ & Ib).
  unfold rgb_to_hex. rewrite Er, Eg, Eb.
  unfold hex_to_rgb. cbn [lstrip_hash].
  change (String r1 (String r0 "") +:+ String g1 (String g0 "")
          +:+ String b1 (String b0 ""))
    with (String r1 (String r0 (String g1 (String g0 (String b1 (String b0 "")))))).
  rewrite (lstrip_hash_other r1 _ Hne).
  cbn [substring]. rewrite Ir, Ig, Ib. reflexivity.
Qed.

(** X1. A colour whose channels are bytes is written by [rgb_to_hex] as a
    string of seven characters, and [hex_to_rgb] reads that string back as
    the same colour. *)
Theorem rgb_to_hex_round_trip (c : RGB) :
  rgb_uint8 c ->
  hex_to_rgb (rgb_to_hex c) = Ok c /\ String.length (rgb_to_hex c) = 7.
Proof.
  intros Hc. split; [by apply hex_to_rgb_of_rgb_to_hex|].
  destruct c as [[r g] b]. destruct Hc as (Hr & Hg & Hb). simpl in Hr, Hg, Hb.
  unfold rgb_to_hex.
  rewrite (format_02X_byte r Hr), (format_02X_byte g Hg), (format_02X_byte b Hb).
  reflexivity.
Qed.

Lemma rgb_to_hex_round_trip_witness :
  rgb_uint8 (220, 0, 10)%Z
  /\ hex_to_rgb (rgb_to_hex (220, 0, 10)%Z) = Ok (220, 0, 10)%Z
  /\ String.length (rgb_to_hex (220, 0, 10)%Z) = 7.
Proof.
  assert (rgb_uint8 (220, 0, 10)%Z) as Hc.
  { unfold rgb_uint8, is_uint8; simpl; lia. }
  split; [exact Hc|].
  exact (rgb_to_hex_round_trip (220, 0, 10)%Z Hc).
Defined.

Lemma hex_char_upper (a : ascii) (d : Z) :
  hex_digit a = Some d -> hex_char d = upper_ascii a.
Proof.
  intros Hd.
  destruct a as [[] [] [] [] [] [] [] []]; vm_compute in Hd;
    first [discriminate | inversion Hd; subst; reflexivity].
Qed.

Lemma format_02X_int16 (a b : ascii) (da db : Z) :
  hex_digit a = Some da -> hex_digit b = Some db ->
  format_02X (16 * da + db) = String (upper_ascii a) (String (upper_ascii b) "").
Proof.
  intros Ha Hb.
  pose proof (hex_digit_range _ _ Ha) as Hda.
  pose proof (hex_digit_range _ _ Hb) as Hdb.
  rewrite format_02X_byte by (unfold is_uint8; lia).
  replace ((16 * da + db) / 16)%Z with da
    by (apply (Z.div_unique _ 16 da db); lia).
  replace ((16 * da + db) mod 16)%Z with db
    by (apply (Z.mod_unique _ 16 da db); lia).
  by rewrite (hex_char_upper _ _ Ha), (hex_char_upper _ _ Hb).
Qed.

(** X2. A string that has six hexadecimal digits after its leading
    hashes, whatever follows them, is read by [hex_to_rgb] as a colour of
    bytes, and [rgb_to_hex] writes that colour as a hash followed by the
    six digits in upper case. *)
Theorem rgb_to_hex_normalises (s : string) (a1 a2 a3 a4 a5 a6 : ascii) (rest : string) :
  lstrip_hash s = String a1 (String a2 (String a3 (String a4 (String a5
                    (String a6 rest))))) ->
  Forall (fun a => is_Some (hex_digit a)) [a1; a2; a3; a4; a5; a6] ->
  exists c, hex_to_rgb s = Ok c
    /\ rgb_uint8 c
    /\ rgb_to_hex c = String "#" (upper (substring 0 6 (lstrip_hash s))).
Proof.
  intros Hs Hd.
  apply Forall_cons_1 in Hd as [[d1 H1] Hd]. apply Forall_cons_1 in Hd as [[d2 H2] Hd].
  apply Forall_cons_1 in Hd as [[d3 H3] Hd]. apply Forall_cons_1 in Hd as [[d4 H4] Hd].
  apply Forall_cons_1 in Hd as [[d5 H5] Hd]. apply Forall_cons_1 in Hd as [[d6 H6] _].
  pose proof (hex_digit_range _ _ H1). pose proof (hex_digit_range _ _ H2).
  pose proof (hex_digit_range _ _ H3). pose proof (hex_digit_range _ _ H4).
  pose proof (hex_digit_range _ _ H5). pose proof (hex_digit_range _ _ H6).
  assert (substring 0 0 rest = ""%string) as E0 by (by destruct rest).
  exists ((16 * d1 + d2)%Z, (16 * d3 + d4)%Z, (16 * d5 + d6)%Z).
  split; [|split].
  - unfold hex_to_rgb. rewrite Hs. cbn [substring]. rewrite E0.
    rewrite (int16_two_digits _ _ _ _ H1 H2), (int16_two_digits _ _ _ _ H3 H4),
      (int16_two_digits _ _ _ _ H5 H6). reflexivity.
  - unfold rgb_uint8, is_uint8; cbn [fst snd]. lia.
  - unfold rgb_to_hex.
    rewrite (format_02X_int16 _ _ _ _ H1 H2), (format_02X_int16 _ _ _ _ H3 H4),
      (format_02X_int16 _ _ _ _ H5 H6).
    rewrite Hs. cbn [substring]. rewrite E0. reflexivity.
Qed.

Lemma rgb_to_hex_normalises_witness :
  lstrip_hash "##a3292a00" = "a3292a00"%string
  /\ Forall (fun a => is_Some (hex_digit a)) ["a"; "3"; "2"; "9"; "2"; "a"]%char
  /\ exists c, hex_to_rgb "##a3292a00" = Ok c
       /\ rgb_uint8 c
       /\ rgb_to_hex c = String "#" (upper (substring 0 6 (lstrip_hash "##a3292a00"))).
Proof.
  assert (Forall (fun a => is_Some (hex_digit a)) ["a"; "3"; "2"; "9"; "2"; "a"]%char)
    as Hd by (repeat constructor; by eexists).
  split; [reflexivity|]. split; [exact Hd|].
  exact (rgb_to_hex_normalises "##a3292a00" "a" "3" "2" "9" "2" "a" "00" eq_refl Hd).
Defined.

(** A sign is read where a digit is expected: the code [#+a+b+c] is the
    colour (10, 11, 12), and [#-1-1-1] is (-1, -1, -1), which
    [rgb_to_hex] writes back as it was. *)
Example hex_to_rgb_signed :
  hex_to_rgb "#+a+b+c" = Ok (10, 11, 12)%Z
  /\ rgb_to_hex (10, 11, 12)%Z = "#0A0B0C"%string
  /\ hex_to_rgb "#-1-1-1" = Ok (-1, -1, -1)%Z
  /\ rgb_to_hex (-1, -1, -1)%Z = "#-1-1-1"%string
  /\ hex_to_rgb "# 1 2 3" = Ok (1, 2, 3)%Z
  /\ hex_to_rgb "#0x1234" = Raise (ValueError "invalid literal for int() with base 16").
Proof. repeat split. Qed.

End HexCodes.

(** ** The constructor of the palette and its queries *)

Section PaletteQueries.
Context `{Float64Ops}.
Import MinecraftPalette PaletteTools.

Lemma mapM_lookup {A B} (f : A -> result B) (l : list A) (bs : list B) :
  mapM f l = Ok bs ->
  forall i a, l !! i = Some a -> exists b, f a = Ok b /\ bs !! i = Some b.
Proof.
  revert bs. induction l as [|a0 l IH]; simpl; intros bs Hm i a Hi; [done|].
  apply bind_ok in Hm as (b0 & Hb0 & Hm). apply bind_ok in Hm as (bs' & Hbs & Hm).
  inversion Hm; subst; clear Hm. destruct i as [|i]; simpl in *.
  - inversion Hi; subst. eauto.
  - eauto.
Qed.

Lemma mapM_ok_iff {A B} (f : A -> result B) (l : list A) :
  (exists bs, mapM f l = Ok bs) <-> Forall (fun a => exists b, f a = Ok b) l.
Proof.
  induction l as [|a l IH]; simpl.
  - split; [constructor | by eexists].
  - split.
    + intros (bs & Hm). apply bind_ok in Hm as (b & Hb & Hm).
      apply bind_ok in Hm as (bs' & Hbs & _).
      constructor; [by exists b|]. apply IH. by exists bs'.
    + intros Hall. inversion Hall as [|? ? (b & Hb) Hrest]; subst.
      apply IH in Hrest as (bs & Hbs). exists (b :: bs).
      rewrite Hb. simpl. rewrite Hbs. reflexivity.
Qed.

(** X3. The constructor of the palette returns exactly when the colour
    list is not empty and [hex_to_rgb] reads every entry of it. *)
Theorem palette_init_succeeds (colors : list string) :
  (exists p, init colors = Ok p)
  <-> colors <> [] /\ Forall (fun s => exists c, hex_to_rgb s = Ok c) colors.
Proof.
  unfold init. destruct colors as [|c cs].
  - split; [by intros (p & Hp) | by intros (Hne & _)].
  - split.
    + intros (p & Hp). apply bind_ok in Hp as (rgbs & Hrgbs & _).
      split; [done|]. apply mapM_ok_iff. by exists rgbs.
    + intros (_ & Hall). apply mapM_ok_iff in Hall as (rgbs & Hrgbs).
      rewrite Hrgbs. simpl. by eexists.
Qed.

(** Entry [i] of the RGB table of a palette is what [hex_to_rgb] reads
    from entry [i] of its colour list. *)
Lemma palette_init_lookup (colors : list string) (p : t) :
  init colors = Ok p ->
  forall i s, colors !! i = Some s ->
    exists c, hex_to_rgb s = Ok c /\ colors_rgb p !! i = Some c.
Proof.
  unfold init. destruct colors as [|c0 cs]; [discriminate|].
  intros Hp. apply bind_ok in Hp as (rgbs & Hrgbs & Hp).
  inversion Hp; subst; clear Hp. simpl. intros i s Hs.
  exact (mapM_lookup _ _ _ Hrgbs i s Hs).
Qed.

(** X4. A palette that the constructor returns keeps the colour list as
    given, and entry [i] of its RGB and LAB tables is what [hex_to_rgb]
    and [rgb_to_lab] make of entry [i] of the list. *)
Theorem palette_init_entries (colors : list string) (p : t) :
  init colors = Ok p ->
  carpet_colors p = colors
  /\ length (colors_rgb p) = length colors
  /\ length (colors_lab p) = length colors
  /\ forall i s, colors !! i = Some s ->
       exists c, hex_to_rgb s = Ok c
                 /\ colors_rgb p !! i = Some c
                 /\ colors_lab p !! i = Some (rgb_to_lab c).
Proof.
  intros Hp. destruct (init_built _ _ Hp) as [(_ & Hlen & Hlab) Hcolors].
  split; [done|]. split; [by rewrite <- Hlen, Hcolors|].
  split; [by rewrite Hlab, length_map, <- Hlen, Hcolors|].
  intros i s Hs. destruct (palette_init_lookup _ _ Hp i s Hs) as (c & Hc & Hi).
  exists c. split; [done|]. split; [done|].
  by rewrite Hlab, list_lookup_fmap, Hi.
Qed.

(** The record of entry [k] of a well-formed palette. *)
Lemma get_color_info_entry (p : t) (k : nat) (hex : string) (rgb : RGB) :
  wf_palette p ->
  carpet_colors p !! k = Some hex -> colors_rgb p !! k = Some rgb ->
  get_color_info p (Z.of_nat k)
  = Ok (Some {| info_index := Z.of_nat k; info_hex := hex; info_rgb := rgb;
                info_lab := rgb_to_lab rgb;
                info_name := ("Carpet_" ++ pretty (k + 1))%string |}).
Proof.
  intros (_ & _ & Hlab & _) Hhex Hrgb. unfold get_color_info.
  pose proof (lookup_lt_Some _ _ _ Hhex) as Hk.
  destruct (Z.leb_spec 0 (Z.of_nat k)); [|lia].
  destruct (Z.ltb_spec (Z.of_nat k) (Z.of_nat (length (carpet_colors p)))); [|lia].
  cbn [andb].
  rewrite (getitem_nat _ _ _ Hhex). cbn [mbind result_bind].
  rewrite (getitem_nat _ _ _ Hrgb). cbn [mbind result_bind].
  assert (colors_lab p !! k = Some (rgb_to_lab rgb)) as Hl
    by (by rewrite Hlab, list_lookup_fmap, Hrgb).
  rewrite (getitem_nat _ _ _ Hl). cbn [mbind result_bind].
  assert (color_names p !! k = Some ("Carpet_" ++ pretty (k + 1))%string) as Hn.
  { unfold color_names. by rewrite list_lookup_imap, Hhex. }
  by rewrite (getitem_nat _ _ _ Hn).
Qed.

(** X5. On a well-formed palette [get_color_info] returns [None] for every
    index outside [0, len), a negative index included, and for an index
    inside the record of that entry: its hex code, its colour, the LAB
    value of that colour and the name [Carpet_<index+1>]. *)
Theorem get_color_info_spec (p : t) (index : Z) :
  wf_palette p ->
  ((index < 0 \/ Z.of_nat (length (carpet_colors p)) <= index)%Z ->
     get_color_info p index = Ok None)
  /\ ((0 <= index < Z.of_nat (length (carpet_colors p)))%Z ->
        exists hex rgb,
          carpet_colors p !! Z.to_nat index = Some hex
          /\ colors_rgb p !! Z.to_nat index = Some rgb
          /\ get_color_info p index
             = Ok (Some {| info_index := index; info_hex := hex; info_rgb := rgb;
                           info_lab := rgb_to_lab rgb;
                           info_name :=
                             ("Carpet_" ++ pretty (Z.to_nat index + 1))%string |})).
Proof.
  intros Hwf. split.
  - intros Hout. unfold get_color_info.
    destruct (Z.leb_spec 0 index); [|done].
    by destruct (Z.ltb_spec index (Z.of_nat (length (carpet_colors p)))); [lia|].
  - intros Hin. pose proof Hwf as (_ & Hcc & _).
    destruct (lookup_lt_is_Some_2 (carpet_colors p) (Z.to_nat index)) as [hex Hhex];
      [lia|].
    destruct (lookup_lt_is_Some_2 (colors_rgb p) (Z.to_nat index)) as [rgb Hrgb];
      [lia|].
    exists hex, rgb. split; [done|]. split; [done|].
    pose proof (get_color_info_entry p _ hex rgb Hwf Hhex Hrgb) as Hinfo.
    by rewrite Z2Nat.id in Hinfo by lia.
Qed.

(** X6. The index that nearest colour lookup returns is one that
    [get_color_info] knows: its record holds the colour and the hex code
    that the lookup returned with the index. *)
Theorem get_color_info_of_closest (p : t) (target : RGB) (method : string)
    (idx : nat) (rgb : RGB) (hex : string) :
  wf_palette p ->
  find_closest_color p target method = Ok (idx, rgb, hex) ->
  get_color_info p (Z.of_nat idx)
  = Ok (Some {| info_index := Z.of_nat idx; info_hex := hex; info_rgb := rgb;
                info_lab := rgb_to_lab rgb;
                info_name := ("Carpet_" ++ pretty (idx + 1))%string |}).
Proof.
  intros Hwf Hfind.
  destruct (find_closest_color_spec p target method (wf_built _ Hwf))
    as (idx' & rgb' & hex' & Hfind' & Hrgb & Hhex & _).
  rewrite Hfind in Hfind'. inversion Hfind'; subst.
  by apply get_color_info_entry.
Qed.

Lemma distances_lookup (p : t) (target : RGB) (method : string) (j : nat) (c : RGB) :
  wf_palette p -> colors_rgb p !! j = Some c ->
  distances p target method !! j
  = Some (calculate_color_distance c target method).
Proof.
  intros (_ & _ & Hlab & _) Hc.
  unfold distances, calculate_color_distance, lab_distances, rgb_distances.
  destruct (String.eqb _ _).
  - by rewrite Hlab, !list_lookup_fmap, Hc.
  - by rewrite list_lookup_fmap, Hc.
Qed.

(** X7. The colour that nearest colour lookup returns is at least as close
    to the target, by [calculate_color_distance] under the same method, as
    every colour of the palette, and strictly closer than every entry
    before it. *)
Theorem closest_color_minimises_distance (p : t) (target : RGB) (method : string)
    (idx : nat) (rgb : RGB) (hex : string) :
  wf_palette p ->
  find_closest_color p target method = Ok (idx, rgb, hex) ->
  (forall c, c ∈ colors_rgb p ->
     (calculate_color_distance rgb target method
      <= calculate_color_distance c target method)%Q)
  /\ (forall j c, j < idx -> colors_rgb p !! j = Some c ->
        (calculate_color_distance rgb target method
         < calculate_color_distance c target method)%Q).
Proof.
  intros Hwf Hfind.
  destruct (find_closest_color_spec p target method (wf_built _ Hwf))
    as (idx' & rgb' & hex' & Hfind' & Hrgb & _ & (m & Hm & Hle & Hlt)).
  rewrite Hfind in Hfind'. inversion Hfind'; subst.
  rewrite (distances_lookup _ _ _ _ _ Hwf Hrgb) in Hm. inversion Hm; subst.
  split.
  - intros c Hc. apply list_elem_of_lookup in Hc as (j & Hj).
    apply (Hle j). by apply distances_lookup.
  - intros j c Hj Hc. apply (Hlt j); [done|]. by apply distances_lookup.
Qed.

End PaletteQueries.

Section PaletteExamples.
Import MinecraftPalette PaletteTools.

Lemma palette_init_entries_witness :
  init ["#DC0000"; "#00bb32"]%string
    = Ok {| carpet_colors := ["#DC0000"; "#00bb32"]%string;
            colors_rgb := [(220, 0, 0); (0, 187, 50)]%Z;
            colors_lab := map rgb_to_lab [(220, 0, 0); (0, 187, 50)]%Z |}
  /\ forall i s, ["#DC0000"; "#00bb32"]%string !! i = Some s ->
       exists c, hex_to_rgb s = Ok c
                 /\ [(220, 0, 0); (0, 187, 50)]%Z !! i = Some c
                 /\ map rgb_to_lab [(220, 0, 0); (0, 187, 50)]%Z !! i
                    = Some (rgb_to_lab c).
Proof.
  assert (init ["#DC0000"; "#00bb32"]%string
          = Ok {| carpet_colors := ["#DC0000"; "#00bb32"]%string;
                  colors_rgb := [(220, 0, 0); (0, 187, 50)]%Z;
                  colors_lab := map rgb_to_lab [(220, 0, 0); (0, 187, 50)]%Z |})
    as Hp by reflexivity.
  split; [exact Hp|].
  exact (proj2 (proj2 (proj2 (palette_init_entries _ _ Hp)))).
Defined.

Lemma get_color_info_spec_witness :
  wf_palette twin_palette
  /\ ((1 < 0 \/ Z.of_nat (length (carpet_colors twin_palette)) <= 1)%Z ->
        get_color_info twin_palette 1 = Ok None)
  /\ ((0 <= 1 < Z.of_nat (length (carpet_colors twin_palette)))%Z ->
        exists hex rgb,
          carpet_colors twin_palette !! Z.to_nat 1 = Some hex
          /\ colors_rgb twin_palette !! Z.to_nat 1 = Some rgb
          /\ get_color_info twin_palette 1
             = Ok (Some {| info_index := 1; info_hex := hex; info_rgb := rgb;
                           info_lab := rgb_to_lab rgb;
                           info_name :=
                             ("Carpet_" ++ pretty (Z.to_nat 1 + 1))%string |})).
Proof.
  split; [exact twin_palette_wf|].
  exact (get_color_info_spec twin_palette 1 twin_palette_wf).
Defined.

Lemma get_color_info_of_closest_witness :
  wf_palette twin_palette
  /\ find_closest_color twin_palette (10, 200, 30)%Z "lab"
     = Ok (0, (128, 128, 128)%Z, "#808080"%string)
  /\ get_color_info twin_palette 0
     = Ok (Some {| info_index := 0; info_hex := "#808080";
                   info_rgb := (128, 128, 128)%Z;
                   info_lab := rgb_to_lab (128, 128, 128)%Z;
                   info_name := "Carpet_1" |}).
Proof.
  assert (find_closest_color twin_palette (10, 200, 30)%Z "lab"
          = Ok (0, (128, 128, 128)%Z, "#808080"%string)) as Hfind
    by (vm_compute; reflexivity).
  split; [exact twin_palette_wf|]. split; [exact Hfind|].
  exact (get_color_info_of_closest twin_palette (10, 200, 30)%Z "lab" 0
           (128, 128, 128)%Z "#808080" twin_palette_wf Hfind).
Defined.

Lemma closest_color_minimises_distance_witness :
  wf_palette twin_palette
  /\ find_closest_color twin_palette (10, 200, 30)%Z "rgb"
     = Ok (0, (128, 128, 128)%Z, "#808080"%string)
  /\ (forall c, c ∈ colors_rgb twin_palette ->
        (calculate_color_distance (128, 128, 128)%Z (10, 200, 30)%Z "rgb"
         <= calculate_color_distance c (10, 200, 30)%Z "rgb")%Q)
  /\ (forall j c, j < 0 -> colors_rgb twin_palette !! j = Some c ->
        (calculate_color_distance (128, 128, 128)%Z (10, 200, 30)%Z "rgb"
         < calculate_color_distance c (10, 200, 30)%Z "rgb")%Q).
Proof.
  assert (find_closest_color twin_palette (10, 200, 30)%Z "rgb"
          = Ok (0, (128, 128, 128)%Z, "#808080"%string)) as Hfind
    by (vm_compute; reflexivity).
  split; [exact twin_palette_wf|]. split; [exact Hfind|].
  exact (closest_color_minimises_distance twin_palette (10, 200, 30)%Z "rgb" 0
           (128, 128, 128)%Z "#808080" twin_palette_wf Hfind).
Defined.

End PaletteExamples.

(** ** Resizing helpers and conversions of image_utils.py *)

Section ImageHelpers.
Context `{PILOps} `{PILResizeOps}.

(** X8. With [maintain_aspect], [resize_image] hands the image object it
    was given to [thumbnail] and returns it: an image that fits in the
    target size is left as it is, one that does not fit is reduced in
    place, and when [thumbnail] raises - as it does, with
    ZeroDivisionError, for an image that does not fit when its height or
    the height asked for is zero - the image is left as it is.  Without
    [maintain_aspect], [resize_image] returns a new image, a copy when
    the size asked for is the size of the image, and leaves every image
    that was there untouched; a size with a zero side that is not the
    size of the image is refused with ValueError. *)
Theorem resize_image_in_place (h : heap) (l : loc) (img : Image) (sz : nat * nat) :
  h !! l = Some img ->
  ImageTools.resize_image (Some l) sz true h
    = match PIL.thumbnail_image img sz with
      | Ok reduced => (Ok l, <[l := reduced]> h)
      | Raise e => (Raise e, h)
      end
  /\ (fits img sz -> ImageTools.resize_image (Some l) sz true h = (Ok l, h))
  /\ (~ fits img sz -> (size img).2 = 0 \/ sz.2 = 0 ->
        ImageTools.resize_image (Some l) sz true h
        = (Raise (ZeroDivisionError "division by zero"), h))
  /\ h !! fresh (dom h) = None
  /\ (size img = sz ->
        ImageTools.resize_image (Some l) sz false h
        = (Ok (fresh (dom h)), <[fresh (dom h) := img]> h))
  /\ (size img <> sz -> sz.1 = 0 \/ sz.2 = 0 ->
        ImageTools.resize_image (Some l) sz false h
        = (Raise (ValueError "height and width must be > 0"), h))
  /\ (size img <> sz -> sz.1 <> 0 -> sz.2 <> 0 ->
        ImageTools.resize_image (Some l) sz false h
        = match resize_to img sz with
          | Ok im => (Ok (fresh (dom h)), <[fresh (dom h) := im]> h)
          | Raise e => (Raise e, h)
          end).
Proof.
  intros Hl.
  assert (ImageTools.resize_image (Some l) sz true h
          = match PIL.thumbnail_image img sz with
            | Ok reduced => (Ok l, <[l := reduced]> h)
            | Raise e => (Raise e, h)
            end) as Htrue.
  { unfold ImageTools.resize_image. unfold bindM at 1.
    rewrite (thumbnail_run h l img sz Hl).
    by destruct (PIL.thumbnail_image img sz). }
  assert (forall k : Image -> M loc,
            (i <~ deref l ;; k i) h = k img h) as Hderef.
  { intros k. by rewrite (bindM_ok _ _ _ _ _ (deref_ok _ _ _ Hl)). }
  split; [exact Htrue|]. split; [|split; [|split; [apply fresh_None|]]].
  - intros Hfit. rewrite Htrue, (thumbnail_image_fits _ _ Hfit). by rewrite insert_id.
  - intros Hfit Hz. by rewrite Htrue, (thumbnail_image_zero _ _ Hfit Hz).
  - unfold ImageTools.resize_image, ImageTools.resize. rewrite Hderef.
    split; [|split].
    + intros Hsz. by rewrite decide_True.
    + intros Hsz Hz. rewrite decide_False by done.
      destruct Hz as [-> | ->]; [done|]. by rewrite orb_true_r.
    + intros Hsz Hw Hh. rewrite decide_False by done.
      destruct (Nat.eqb_spec sz.1 0); [done|].
      destruct (Nat.eqb_spec sz.2 0); [done|].
      cbn [orb]. unfold bindM, liftM, alloc. by destruct (resize_to img sz).
Qed.

(** X9. [create_thumbnail] copies its argument and hands the copy to
    [thumbnail] with the size asked for, or 200x200.  When [thumbnail]
    returns, the copy is returned: a new image, the argument itself if it
    fits in that size.  When [thumbnail] raises - as it does, with
    ZeroDivisionError, for an argument that does not fit when its height
    or the height asked for is zero - the call raises the same.  Either
    way the argument, and every other image, is left untouched.  Without
    an image the call raises AttributeError. *)
Theorem create_thumbnail_copies (h : heap) (l : loc) (img : Image)
    (sz : option (nat * nat)) :
  h !! l = Some img ->
  h !! fresh (dom h) = None
  /\ (exists h', h ⊆ h'
        /\ match PIL.thumbnail_image img (default (200, 200) sz) with
           | Ok reduced =>
               ImageTools.create_thumbnail (Some l) sz h = (Ok (fresh (dom h)), h')
               /\ h' !! fresh (dom h) = Some reduced
           | Raise e => ImageTools.create_thumbnail (Some l) sz h = (Raise e, h')
           end)
  /\ (fits img (default (200, 200) sz) ->
        ImageTools.create_thumbnail (Some l) sz h
        = (Ok (fresh (dom h)), <[fresh (dom h) := img]> h))
  /\ (~ fits img (default (200, 200) sz) ->
      (size img).2 = 0 \/ (default (200, 200) sz).2 = 0 ->
        ImageTools.create_thumbnail (Some l) sz h
        = (Raise (ZeroDivisionError "division by zero"), <[fresh (dom h) := img]> h))
  /\ ImageTools.create_thumbnail None sz h
     = (Raise (AttributeError "'NoneType' object has no attribute 'copy'"), h).
Proof.
  intros Hl.
  set (l1 := fresh (dom h)). set (h1 := <[l1 := img]> h).
  assert (h !! l1 = None) as Hfresh by apply fresh_None.
  assert (PIL.copy (Some l) h = (Ok l1, h1)) as Hcopy.
  { unfold PIL.copy. by rewrite (bindM_ok _ _ _ _ _ (deref_ok _ _ _ Hl)). }
  assert (ImageTools.create_thumbnail (Some l) sz h
          = match PIL.thumbnail_image img (default (200, 200) sz) with
            | Ok reduced => (Ok l1, <[l1 := reduced]> h1)
            | Raise e => (Raise e, h1)
            end) as Hrun.
  { unfold ImageTools.create_thumbnail.
    rewrite (bindM_ok _ _ _ _ _ Hcopy). cbv beta. unfold bindM at 1.
    rewrite (thumbnail_run h1 l1 img _ ltac:(apply lookup_insert_eq)).
    by destruct (PIL.thumbnail_image img (default (200, 200) sz)). }
  split; [exact Hfresh|]. split; [|split; [|split; [|reflexivity]]].
  - rewrite Hrun. destruct (PIL.thumbnail_image img (default (200, 200) sz)) as [t|e].
    + exists (<[l1 := t]> h1). split.
      * apply insert_subseteq_r; [done|]. by apply insert_subseteq.
      * split; [done|]. apply lookup_insert_eq.
    + exists h1. split; [by apply insert_subseteq|done].
  - intros Hfit. rewrite Hrun, (thumbnail_image_fits _ _ Hfit).
    unfold h1. by rewrite insert_insert_eq.
  - intros Hfit Hz. by rewrite Hrun, (thumbnail_image_zero _ _ Hfit Hz).
Qed.

Lemma clipped_id (a : array3 RGB) :
  all_cells rgb_uint8 a -> ImageProcessor.clipped a = a.
Proof.
  intros Hbytes. destruct a as [hh ww cs]. unfold ImageProcessor.clipped. simpl.
  f_equal. apply list_eq. intros j. rewrite list_lookup_fmap.
  destruct (cs !! j) as [row|] eqn:Hrow; simpl; [|done]. f_equal.
  apply list_eq. intros i. rewrite list_lookup_fmap.
  destruct (row !! i) as [c|] eqn:Hc; simpl; [|done]. f_equal.
  apply clip_uint8_id. apply (Hbytes i j). unfold cell. simpl. by rewrite Hrow.
Qed.

(** X10. Conversion to an array and back: [image_to_array] of a
    well-formed RGB image leaves the heap as it is, and [array_to_image]
    of the array it returns makes a new image with the same mode, size
    and pixels; [image_to_array] of the image that [array_to_image] makes
    of an array of bytes returns that array. *)
Theorem array_image_round_trip (h : heap) (l : loc) (img : Image) (a : array3 RGB) :
  h !! l = Some img -> wf_image img -> all_cells rgb_uint8 a ->
  (exists b l' h',
     ImageProcessor.image_to_array (Some l) h = (Ok (Array3 b), h)
     /\ ImageProcessor.array_to_image b h = (Ok l', h')
     /\ h !! l' = None /\ h ⊆ h' /\ h' !! l' = Some img)
  /\ (exists l' h',
        ImageProcessor.array_to_image a h = (Ok l', h')
        /\ ImageProcessor.image_to_array (Some l') h' = (Ok (Array3 a), h')).
Proof.
  intros Hl Hwf Ha. split.
  - exists (PIL.array_of img), (fresh (dom h)), (<[fresh (dom h) := img]> h).
    split; [|split; [|split; [apply fresh_None|split; [apply alloc_extends|]]]].
    + unfold ImageProcessor.image_to_array, PIL.np_array.
      by rewrite (bindM_ok _ _ _ _ _ (deref_ok _ _ _ Hl)).
    + unfold ImageProcessor.array_to_image, PIL.fromarray, alloc.
      rewrite clipped_id by (by apply wf_image_array).
      destruct Hwf as (Hmode & _). destruct img as [m [w hh] px]. simpl in *.
      subst m. reflexivity.
    + apply lookup_insert_eq.
  - exists (fresh (dom h)), (<[fresh (dom h) := PIL.image_of a]> h). split.
    + unfold ImageProcessor.array_to_image, PIL.fromarray, alloc.
      by rewrite clipped_id.
    + unfold ImageProcessor.image_to_array, PIL.np_array.
      rewrite (bindM_ok _ _ _ _ _
                 (deref_ok _ _ (PIL.image_of a) ltac:(apply lookup_insert_eq))).
      by destruct a.
Qed.

End ImageHelpers.

Section Centring.
Context `{PILOps}.

Lemma pixel_paste_image (dest src : Image) (box : Z * Z) (i j : nat) :
  pixel (PIL.paste_image dest src box) i j
  = (fun px => match PIL.pasted src box i j with
               | Some c => uint8_rgb c
               | None => px
               end) <$> pixel dest i j.
Proof.
  unfold pixel, PIL.paste_image. simpl. rewrite list_lookup_imap.
  destruct (pixels dest !! j) as [row|]; simpl; [|done].
  by rewrite list_lookup_imap.
Qed.

Lemma pixel_blank (m : string) (sz : nat * nat) (c : RGB) (i j : nat) :
  i < sz.1 -> j < sz.2 -> pixel (PIL.blank m sz c) i j = Some (ink c).
Proof.
  intros Hi Hj. unfold pixel, PIL.blank, range. simpl.
  rewrite list_lookup_fmap, lookup_seq_lt by done. simpl.
  by rewrite list_lookup_fmap, lookup_seq_lt by done.
Qed.

Lemma pixel_wf (img : Image) (i j : nat) :
  wf_image img -> i < (size img).1 -> j < (size img).2 ->
  exists c, pixel img i j = Some c /\ rgb_uint8 c.
Proof.
  intros (_ & Hrows & Hcols & Hbytes) Hi Hj. unfold pixel.
  destruct (lookup_lt_is_Some_2 (pixels img) j) as [row Hrow]; [lia|].
  rewrite Hrow. simpl.
  destruct (lookup_lt_is_Some_2 row i) as [c Hc].
  { by rewrite (Forall_lookup_1 _ _ _ _ Hcols Hrow). }
  exists c. split; [done|].
  exact (Forall_lookup_1 _ _ _ _ (Forall_lookup_1 _ _ _ _ Hbytes Hrow) Hc).
Qed.

(** The pixels of the canvas that [resize_for_minecraft] builds from an
    image that fits in it. *)
Lemma resized_centred (img : Image) (ms : nat * nat) (i j : nat) :
  wf_image img -> (size img).1 <= ms.1 -> (size img).2 <= ms.2 ->
  i < ms.1 -> j < ms.2 ->
  exists canvas, resized img ms = Ok canvas
    /\ pixel canvas i j = centred img ms i j.
Proof.
  intros Hwf Hw Hh Hi Hj.
  eexists. split; [apply resized_fits; [apply Hwf|by split]|].
  rewrite pixel_paste_image, pixel_blank by done.
  change (ink (0, 0, 0)%Z) with (0, 0, 0)%Z.
  unfold centred, PIL.pasted. cbn [fst snd fmap option_fmap option_map].
  set (x0 := (ms.1 - (size img).1) / 2).
  set (y0 := (ms.2 - (size img).2) / 2).
  assert (((Z.of_nat ms.1 - Z.of_nat (size img).1) `div` 2)%Z = Z.of_nat x0) as ->.
  { unfold x0. rewrite Nat2Z.inj_div, Nat2Z.inj_sub by done. done. }
  assert (((Z.of_nat ms.2 - Z.of_nat (size img).2) `div` 2)%Z = Z.of_nat y0) as ->.
  { unfold y0. rewrite Nat2Z.inj_div, Nat2Z.inj_sub by done. done. }
  destruct (decide (x0 <= i < x0 + (size img).1 /\ y0 <= j < y0 + (size img).2))
    as [Hin|Hout].
  - destruct (Z.leb_spec 0 (Z.of_nat i - Z.of_nat x0)); [|lia].
    destruct (Z.ltb_spec (Z.of_nat i - Z.of_nat x0) (Z.of_nat (size img).1)); [|lia].
    destruct (Z.leb_spec 0 (Z.of_nat j - Z.of_nat y0)); [|lia].
    destruct (Z.ltb_spec (Z.of_nat j - Z.of_nat y0) (Z.of_nat (size img).2)); [|lia].
    cbn [andb].
    replace (Z.to_nat (Z.of_nat j - Z.of_nat y0)) with (j - y0) by lia.
    replace (Z.to_nat (Z.of_nat i - Z.of_nat x0)) with (i - x0) by lia.
    destruct (pixel_wf img (i - x0) (j - y0) Hwf) as (c & Hc & Hbytes); [lia..|].
    unfold pixel in Hc |- *. rewrite Hc. by rewrite uint8_rgb_id.
  - destruct (Z.leb_spec 0 (Z.of_nat i - Z.of_nat x0));
      destruct (Z.ltb_spec (Z.of_nat i - Z.of_nat x0) (Z.of_nat (size img).1));
      destruct (Z.leb_spec 0 (Z.of_nat j - Z.of_nat y0));
      destruct (Z.ltb_spec (Z.of_nat j - Z.of_nat y0) (Z.of_nat (size img).2));
      cbn [andb]; try reflexivity.
    exfalso. apply Hout. lia.
Qed.

(** X11. For an image that fits in the map size, [resize_for_minecraft]
    returns a new image of exactly the map size that shows the image
    unchanged in its centre, at offset ((W - w) div 2, (H - h) div 2),
    and black everywhere else. *)
Theorem resize_for_minecraft_centred (h : heap) (l : loc) (img : Image)
    (map_size : option (nat * nat)) :
  h !! l = Some img -> wf_image img ->
  (size img).1 <= (default ImageProcessor.MINECRAFT_MAP_SIZE map_size).1 ->
  (size img).2 <= (default ImageProcessor.MINECRAFT_MAP_SIZE map_size).2 ->
  exists final_image h' canvas,
    ImageProcessor.resize_for_minecraft (Some l) map_size h = (Ok final_image, h')
    /\ h !! final_image = None
    /\ h' !! final_image = Some canvas
    /\ size canvas = default ImageProcessor.MINECRAFT_MAP_SIZE map_size
    /\ forall i j,
         i < (default ImageProcessor.MINECRAFT_MAP_SIZE map_size).1 ->
         j < (default ImageProcessor.MINECRAFT_MAP_SIZE map_size).2 ->
         pixel canvas i j
         = centred img (default ImageProcessor.MINECRAFT_MAP_SIZE map_size) i j.
Proof.
  intros Hl Hwf Hw Hh.
  pose proof (resized_fits img (default ImageProcessor.MINECRAFT_MAP_SIZE map_size)
                (proj1 Hwf) (conj Hw Hh)) as Hr.
  destruct (resize_for_minecraft_ok h l img map_size _ Hl Hr)
    as (final_image & h' & Hrun & _ & Hfresh & Hfinal).
  eexists final_image, h', _.
  split; [done|]. split; [done|]. split; [done|].
  split; [by apply (resized_wf _ _ _ Hr)|].
  intros i j Hi Hj.
  destruct (resized_centred img _ i j Hwf Hw Hh Hi Hj) as (canvas & Hc & Hpx).
  rewrite Hr in Hc. inversion Hc; subst canvas. exact Hpx.
Qed.

End Centring.

(** ** Progress tracking and the first row of the sweep *)

Section Progress.
Context `{Float64Ops}.
Import MinecraftDitherer Stencil.

(** One pass of the loop body, with the state it builds written out. *)
Lemma process_pixel_step (self0 : t) (h w : nat) (D : nat * nat -> Prop)
    (st : sweep) (x y : nat) :
  wf_ditherer self0 -> sweep_inv self0 h w D st -> x < w -> y < h ->
  exists v c img' out',
    let error := sub3 (float_of_rgb (int_of_floats v)) (float_of_rgb c) in
    let st' := {| self := set_processed (self st) (processed_pixels (self st) + 1);
                  image_array := img'; output_array := out' |} in
    cell (image_array st) x y = Some v
    /\ closest (palette self0) (int_of_floats v) = Some c
    /\ (forall i j, cell out' i j
                    = if decide (i = x /\ j = y) then Some c
                      else cell (output_array st) i j)
    /\ (forall i j, cell img' i j
                    = diffused x y error i j <$> cell (image_array st) i j)
    /\ sweep_inv self0 h w (fun q => q = (x, y) \/ D q) st'
    /\ process_pixel st (x, y)
       = (_ ← (if (processed_pixels (self st) + 1) mod 1000 =? 0
               then _update_progress (self st') else Ok tt);
          Ok st').
Proof.
  intros Hself Hinv Hx Hy.
  destruct (process_pixel_spec self0 h w D st x y Hself Hinv Hx Hy)
    as (v & idx & c & st1 & Hv & Hfind & _).
  destruct Hself as [Hpal Hmat].
  destruct Hinv as (Hcfg & Hwi & Hhi & Hwdi & Hwo & Hho & Hwdo & Hrange & Hdone).
  destruct Hcfg as (Hp & Hm & Hcb).
  assert (Hc : rgb_uint8 c /\ closest (palette self0) (int_of_floats v) = Some c).
  { unfold _find_closest_color in Hfind. rewrite Hp in Hfind.
    apply bind_ok in Hfind as ([[idx' c'] hex] & Hfind & [= -> ->]).
    destruct (find_closest_color_spec (palette self0) (int_of_floats v) "lab" (wf_built _ Hpal))
      as (i0 & c0 & hex0 & Hfind0 & Hc0 & _ & _).
    rewrite Hfind in Hfind0. inversion Hfind0; subst.
    split; [|unfold closest; by rewrite Hfind].
    destruct Hpal as (_ & _ & _ & Hall). by eapply Forall_lookup_1. }
  destruct Hc as [Hbyte Hclosest].
  destruct (set2_cell (output_array st) x y (uint8_rgb c) Hwo)
    as (out' & Hset & Hwo' & Hso' & Hco'); [lia..|].
  destruct (apply_error_diffusion_cells (self st) (image_array st) x y
              (sub3 (float_of_rgb (int_of_floats v)) (float_of_rgb c)))
    as (img' & Hdiff & Hwi' & Hsi' & Hci'); [by rewrite Hm| done |].
  assert (Hrun : process_pixel st (x, y)
                 = (_ ← (if (processed_pixels (self st) + 1) mod 1000 =? 0
                         then _update_progress
                                (set_processed (self st) (processed_pixels (self st) + 1))
                         else Ok tt);
                    Ok {| self := set_processed (self st) (processed_pixels (self st) + 1);
                          image_array := img'; output_array := out' |})).
  { unfold process_pixel, current_rgb. rewrite (get2_cell _ _ _ _ Hv).
    cbn [mbind result_bind]. rewrite Hfind. cbn [mbind result_bind].
    rewrite Hset. cbn [mbind result_bind]. rewrite Hdiff. reflexivity. }
  exists v, c, img', out'. cbv zeta.
  split; [done|]. split; [done|]. split.
  { intros i j. rewrite Hco'. by rewrite uint8_rgb_id. }
  split; [done|]. split; [|exact Hrun].
  unfold sweep_inv; simpl. destruct Hso' as [? ?], Hsi' as [? ?].
  split; [by repeat split|]. split; [exact Hwi'|].
  split; [congruence|]. split; [congruence|]. split; [exact Hwo'|].
  split; [congruence|]. split; [congruence|]. split.
  - intros i j u. rewrite Hci'. destruct (cell (image_array st) i j) as [old|] eqn:Hold;
      [|done]. simpl. intros [= <-]. unfold diffused.
    destruct (stencil_weight x y i j); [apply clip3_in_range|by eapply Hrange].
  - intros x' y' [Heq|HD].
    + inversion Heq; subst. exists c. rewrite Hco', decide_True by done.
      rewrite uint8_rgb_id by done. split; [done|].
      unfold closest in Hclosest.
      destruct (find_closest_color_spec (palette self0) (int_of_floats v) "lab" (wf_built _ Hpal))
        as (i0 & c0 & hex0 & Hfind0 & Hc0 & _ & _).
      rewrite Hfind0 in Hclosest. inversion Hclosest; subst.
      apply list_elem_of_lookup. eauto.
    + destruct (Hdone _ _ HD) as (c' & Hc' & Hin'). rewrite Hco'.
      destruct (decide _) as [[-> ->]|]; [|eauto].
      exists c. rewrite uint8_rgb_id by done. split; [done|].
      unfold closest in Hclosest.
      destruct (find_closest_color_spec (palette self0) (int_of_floats v) "lab" (wf_built _ Hpal))
        as (i0 & c0 & hex0 & Hfind0 & Hc0 & _ & _).
      rewrite Hfind0 in Hclosest. inversion Hclosest; subst.
      apply list_elem_of_lookup. eauto.
Qed.

Lemma foldM_app {A B} (f : A -> B -> result A) (l1 l2 : list B) (a : A) :
  foldM f (l1 ++ l2) a = (a' ← foldM f l1 a; foldM f l2 a').
Proof.
  revert a. induction l1 as [|b l1 IH]; intros a; simpl; [done|].
  destruct (f a b) as [a1|e]; simpl; [apply IH|done].
Qed.

Lemma pixel_order_length (h w : nat) : length (pixel_order h w) = h * w.
Proof.
  unfold pixel_order, range.
  assert (Hrow : forall (y : nat) (xs : list nat),
            length (xs ≫= (fun x => [(x, y)])) = length xs).
  { intros y xs. induction xs as [|x xs IH]; [done|].
    rewrite bind_cons. simpl. by rewrite IH. }
  assert (Hall : forall ys : list nat,
            length (ys ≫= (fun y => seq 0 w ≫= (fun x => [(x, y)])))
            = length ys * w).
  { intros ys. induction ys as [|y ys IH]; [done|].
    rewrite bind_cons, length_app, IH, Hrow, length_seq.
    cbn [length]. lia. }
  by rewrite Hall, length_seq.
Qed.

Lemma update_progress_used (self0 s : t) :
  progress_callback s = progress_callback self0 ->
  _update_progress s
  = _update_progress (used self0 (processed_pixels s) (total_pixels s)).
Proof. intros Hcb. unfold _update_progress, used. simpl. by rewrite Hcb. Qed.

(** The pixel loop over [l] from a state with [p] pixels counted: it
    raises what the first failing call of the observer raises, among the
    calls at the multiples of 1000 in (p, p + |l|]; otherwise it returns,
    with [p + |l|] pixels counted and the total unchanged. *)
Lemma sweep_notifies (self0 : t) (h w : nat) (l : list (nat * nat)) :
  wf_ditherer self0 ->
  (forall x y, (x, y) ∈ l -> x < w /\ y < h) ->
  forall D st p T, sweep_inv self0 h w D st ->
    processed_pixels (self st) = p -> total_pixels (self st) = T ->
    match foldM process_pixel l st with
    | Ok st' =>
        processed_pixels (self st') = p + length l
        /\ total_pixels (self st') = T
        /\ sweep_inv self0 h w (fun q => q ∈ l \/ D q) st'
        /\ foldM (fun _ n => _update_progress (used self0 n T))
                 (filter (fun n => n mod 1000 = 0) (seq (p + 1) (length l))) tt
           = Ok tt
    | Raise e =>
        foldM (fun _ n => _update_progress (used self0 n T))
              (filter (fun n => n mod 1000 = 0) (seq (p + 1) (length l))) tt
        = Raise e
    end.
Proof.
  intros Hself. induction l as [|[x y] l IH]; intros Hl D st p T Hinv Hp HT.
  - simpl. split; [lia|]. split; [done|]. split; [|done].
    eapply sweep_inv_mono; [|exact Hinv].
    intros q [Hq|Hq]; [by apply elem_of_nil in Hq|done].
  - destruct (Hl x y ltac:(left)) as [Hx Hy].
    destruct (process_pixel_step self0 h w D st x y Hself Hinv Hx Hy)
      as (v & c & img' & out' & _ & _ & _ & _ & Hinv1 & Hstep).
    cbv zeta in Hinv1, Hstep. rewrite Hp in Hinv1, Hstep.
    set (st1 := {| self := set_processed (self st) (p + 1);
                   image_array := img'; output_array := out' |}) in *.
    assert (Hup : _update_progress (self st1) = _update_progress (used self0 (p + 1) T)).
    { rewrite (update_progress_used self0); [by rewrite <- HT|].
      simpl. apply Hinv. }
    specialize (IH (fun x' y' Hq => Hl x' y' ltac:(by right)) _ st1 (p + 1) T
                  Hinv1 eq_refl HT).
    cbn [foldM length seq]. rewrite Hstep, filter_cons.
    replace (S (p + 1)) with (p + 1 + 1) by lia.
    assert (Hmono : forall st', sweep_inv self0 h w (fun q => q ∈ l \/ q = (x, y) \/ D q) st'
              -> sweep_inv self0 h w (fun q => q ∈ (x, y) :: l \/ D q) st').
    { intros st'. apply sweep_inv_mono. intros q [Hq|Hq]; [|tauto].
      apply elem_of_cons in Hq as [->|Hq]; tauto. }
    destruct (decide ((p + 1) mod 1000 = 0)) as [Hmod|Hmod].
    + rewrite (proj2 (Nat.eqb_eq _ _) Hmod). cbn [foldM]. rewrite Hup.
      destruct (_update_progress (used self0 (p + 1) T)) as [[]|e];
        cbn [mbind result_bind]; [|done].
      destruct (foldM process_pixel l st1) as [st'|e]; [|done].
      destruct IH as (? & ? & ? & ?).
      split; [lia|]. split; [done|]. split; [by apply Hmono|done].
    + rewrite (proj2 (Nat.eqb_neq _ _) Hmod). cbn [mbind result_bind].
      destruct (foldM process_pixel l st1) as [st'|e]; [|done].
      destruct IH as (? & ? & ? & ?).
      split; [lia|]. split; [done|]. split; [by apply Hmono|done].
Qed.

(** The sweep raises what the first failing notification raises, and
    otherwise returns with both counters at the number of pixels. *)
Lemma dither_array_notifies (self0 : t) (source : array3 RGB) :
  wf_ditherer self0 -> wf_array source -> all_cells rgb_uint8 source ->
  match dither_array self0 source with
  | Ok st =>
      notify self0 (height source * width source) = Ok tt
      /\ processed_pixels (self st) = height source * width source
      /\ total_pixels (self st) = height source * width source
  | Raise e => notify self0 (height source * width source) = Raise e
  end.
Proof.
  intros Hself Hwf Hrgb. unfold dither_array, notify, notifications.
  rewrite foldM_app.
  pose proof (sweep_notifies self0 (height source) (width source)
                (pixel_order (height source) (width source)) Hself
                (fun x y Hq => proj1 (pixel_order_elem _ _ _ _) Hq)
                _ _ 0 (height source * width source)
                (start_inv self0 source Hwf Hrgb) eq_refl eq_refl) as Hfold.
  rewrite pixel_order_length in Hfold. cbn [Nat.add] in Hfold.
  destruct (foldM process_pixel _ (start self0 source)) as [st|e];
    cbn [mbind result_bind]; [|by rewrite Hfold].
  destruct Hfold as (Hp & HT & Hinv & ->). cbn [mbind result_bind foldM].
  rewrite (update_progress_used self0) by apply Hinv. rewrite Hp, HT.
  cbn [Nat.add].
  destruct (_update_progress _) as [[]|e]; cbn [mbind result_bind]; done.
Qed.

End Progress.

Section FirstRow.
Context `{Float64Ops}.
Import MinecraftDitherer Stencil.

Lemma int_of_floats_float_of_rgb (c : RGB) : int_of_floats (float_of_rgb c) = c.
Proof.
  destruct c as [[r g] b]. unfold int_of_floats, float_of_rgb, astype_int. simpl.
  by rewrite !Z.quot_1_r.
Qed.

Lemma diffused_first_row (x y i : nat) (error old : floats3) :
  diffused x y error i 0 old = old.
Proof.
  unfold diffused, stencil_weight.
  destruct (Nat.eqb_spec 0 (y + 1)); [lia|].
  destruct (Nat.eqb_spec 0 (y + 2)); [lia|]. reflexivity.
Qed.

(** Row 0 of the working buffer never takes error, so the pixels of row 0
    are looked up as the source has them. *)
Lemma sweep_first_row (self0 : t) (source : array3 RGB) (h w : nat)
    (l : list (nat * nat)) :
  wf_ditherer self0 ->
  (forall x y, (x, y) ∈ l -> x < w /\ y < h) ->
  forall D st st', sweep_inv self0 h w D st ->
    (forall i, cell (image_array st) i 0 = float_of_rgb <$> cell source i 0) ->
    foldM process_pixel l st = Ok st' ->
    (forall i, cell (image_array st') i 0 = float_of_rgb <$> cell source i 0)
    /\ (forall i, cell (output_array st') i 0
                  = if decide ((i, 0) ∈ l)
                    then cell source i 0 ≫= closest (palette self0)
                    else cell (output_array st) i 0).
Proof.
  intros Hself. induction l as [|[x y] l IH]; intros Hl D st st' Hinv Hrow Hrun.
  - inversion Hrun; subst. split; [done|]. intros i.
    destruct (decide _) as [Hin|]; [by apply elem_of_nil in Hin|done].
  - destruct (Hl x y ltac:(left)) as [Hx Hy].
    destruct (process_pixel_step self0 h w D st x y Hself Hinv Hx Hy)
      as (v & c & img' & out' & Hv & Hc & Hout & Himg & Hinv1 & Hstep).
    cbv zeta in Hinv1, Hstep, Himg.
    cbn [foldM] in Hrun. rewrite Hstep in Hrun.
    apply bind_ok in Hrun as (st1 & Hst1 & Hrun).
    apply bind_ok in Hst1 as ([] & _ & [= <-]).
    destruct (IH (fun x' y' Hq => Hl x' y' ltac:(by right)) _ _ st' Hinv1) as [Hrow' Hout'];
      [|exact Hrun|].
    { intros i. cbn [image_array]. rewrite Himg, <- Hrow.
      destruct (cell (image_array st) i 0) as [old|]; [|done].
      simpl. by rewrite diffused_first_row. }
    split; [exact Hrow'|]. intros i. rewrite Hout'. cbn [output_array].
    rewrite Hout.
    destruct (decide ((i, 0) ∈ l)) as [Hin|Hnin].
    + rewrite decide_True by (by right). done.
    + destruct (decide (i = x /\ 0 = y)) as [[-> <-]|Hne].
      * rewrite decide_True by left.
        rewrite Hrow in Hv. destruct (cell source x 0) as [s|]; [|done].
        simpl in Hv. inversion Hv; subst.
        rewrite int_of_floats_float_of_rgb in Hc. by rewrite <- Hc.
      * rewrite decide_False; [done|].
        intros Hin. apply elem_of_cons in Hin as [Heq|Hin]; [|done].
        inversion Heq; subst. tauto.
Qed.

(** After the sweep, every pixel of row 0 of the output is the palette
    colour nearest to the source pixel. *)
Lemma dither_array_first_row (self0 : t) (source : array3 RGB) (st : sweep) (i : nat) :
  wf_ditherer self0 -> wf_array source -> all_cells rgb_uint8 source ->
  dither_array self0 source = Ok st ->
  i < width source -> 0 < height source ->
  cell (output_array st) i 0 = cell source i 0 ≫= closest (palette self0).
Proof.
  intros Hself Hwf Hrgb Hrun Hi Hh. unfold dither_array in Hrun.
  apply bind_ok in Hrun as (st1 & Hfold & Hrun).
  apply bind_ok in Hrun as ([] & _ & [= <-]).
  destruct (sweep_first_row self0 source (height source) (width source)
              (pixel_order (height source) (width source)) Hself
              (fun x y Hq => proj1 (pixel_order_elem _ _ _ _) Hq)
              _ _ st1 (start_inv self0 source Hwf Hrgb)) as [_ Hout];
    [|exact Hfold|].
  { intros k. unfold start; cbn [image_array]. by rewrite cell_map. }
  rewrite Hout, decide_True; [done|]. apply pixel_order_elem. lia.
Qed.

(** One pass of the body of the quantize-only loop. *)
Lemma quantize_pixel_cells (self0 : t) (a out : array3 RGB) (x y : nat) :
  built_palette (palette self0) -> wf_array a -> wf_array out -> same_shape out a ->
  x < width a -> y < height a ->
  exists out', quantize_pixel self0 a out (x, y) = Ok out'
    /\ wf_array out' /\ same_shape out' a
    /\ forall i j, cell out' i j
         = if decide (i = x /\ j = y)
           then uint8_rgb <$> (cell a x y ≫= closest (palette self0))
           else cell out i j.
Proof.
  intros Hpal Hwf Hwo [Hh Hw] Hx Hy.
  destruct (cell_is_Some a x y Hwf Hx Hy) as [v Hv].
  destruct (find_closest_color_spec (palette self0) v "lab" Hpal)
    as (idx & c & hex & Hfind & Hc & _ & _).
  destruct (set2_cell out x y (uint8_rgb c) Hwo) as (out' & Hset & Hwo' & Hso' & Hco');
    [lia..|].
  exists out'. split; [|split; [done|split; [by eapply same_shape_trans|]]].
  - unfold quantize_pixel. rewrite (get2_cell _ _ _ _ Hv). cbn [mbind result_bind].
    rewrite Hfind. cbn [mbind result_bind]. exact Hset.
  - intros i j. rewrite Hco', Hv. simpl. unfold closest. by rewrite Hfind.
Qed.

(** The quantize-only loop over [l] writes, at every pixel of [l], the
    palette colour nearest to the source pixel, cast to bytes, and nothing
    else. *)
Lemma quantize_fold_cells (self0 : t) (a : array3 RGB) (l : list (nat * nat)) :
  built_palette (palette self0) -> wf_array a ->
  (forall x y, (x, y) ∈ l -> x < width a /\ y < height a) ->
  forall out, wf_array out -> same_shape out a ->
    exists out', foldM (quantize_pixel self0 a) l out = Ok out'
      /\ wf_array out' /\ same_shape out' a
      /\ forall i j, cell out' i j
           = if decide ((i, j) ∈ l)
             then uint8_rgb <$> (cell a i j ≫= closest (palette self0))
             else cell out i j.
Proof.
  intros Hself Hwf. induction l as [|[x y] l IH]; intros Hl out Hwo Hso.
  - exists out. split; [done|]. split; [done|]. split; [done|]. intros i j.
    destruct (decide _) as [Hin|]; [by apply elem_of_nil in Hin|done].
  - destruct (Hl x y ltac:(left)) as [Hx Hy].
    destruct (quantize_pixel_cells self0 a out x y Hself Hwf Hwo Hso Hx Hy)
      as (out1 & Hstep & Hwo1 & Hso1 & Hc1).
    destruct (IH (fun x' y' Hq => Hl x' y' ltac:(by right)) out1 Hwo1 Hso1)
      as (out' & Hrun & Hwo' & Hso' & Hc').
    exists out'. split; [cbn [foldM]; by rewrite Hstep|].
    split; [done|]. split; [done|]. intros i j. rewrite Hc', Hc1.
    destruct (decide ((i, j) ∈ l)) as [Hin|Hnin].
    + by rewrite decide_True by (by right).
    + destruct (decide (i = x /\ j = y)) as [[-> ->]|Hne].
      * by rewrite decide_True by left.
      * rewrite decide_False; [done|].
        intros Hin. apply elem_of_cons in Hin as [Heq|Hin]; [|done].
        inversion Heq; subst. tauto.
Qed.

Lemma quantize_array_cast (self0 : t) (a : array3 RGB) :
  built_palette (palette self0) -> wf_array a ->
  exists out, quantize_array self0 a = Ok out
    /\ wf_array out /\ same_shape out a
    /\ forall i j, i < width a -> j < height a ->
         cell out i j = uint8_rgb <$> (cell a i j ≫= closest (palette self0)).
Proof.
  intros Hself Hwf.
  destruct (quantize_fold_cells self0 a (pixel_order (height a) (width a)) Hself Hwf
              (fun x y Hq => proj1 (pixel_order_elem _ _ _ _) Hq) (zeros_like a))
    as (out & Hrun & Hwo & Hso & Hcells).
  { exact (wf_array_map (fun _ => (0, 0, 0)%Z) a Hwf). }
  { by split. }
  exists out. split; [exact Hrun|]. split; [done|]. split; [done|].
  intros i j Hi Hj. rewrite Hcells, decide_True; [done|].
  by apply pixel_order_elem.
Qed.

(** The lookup returns a colour of the palette. *)
Lemma closest_palette (p : MinecraftPalette.t) (rgb : RGB) :
  built_palette p ->
  exists c, closest p rgb = Some c /\ c ∈ MinecraftPalette.colors_rgb p.
Proof.
  intros Hpal.
  destruct (find_closest_color_spec p rgb "lab" Hpal)
    as (idx & c & hex & Hfind & Hc & _ & _).
  exists c. unfold closest. rewrite Hfind. split; [done|].
  apply list_elem_of_lookup; eauto.
Qed.

(** With a palette of bytes the cast changes nothing. *)
Lemma closest_bytes (p : MinecraftPalette.t) (o : option RGB) :
  built_palette p -> Forall rgb_uint8 (MinecraftPalette.colors_rgb p) ->
  uint8_rgb <$> (o ≫= closest p) = o ≫= closest p.
Proof.
  intros Hpal Hbytes. destruct o as [rgb|]; [|done]. simpl.
  destruct (closest_palette p rgb Hpal) as (c & -> & Hin). simpl.
  rewrite uint8_rgb_id; [done|].
  apply list_elem_of_lookup in Hin as [k Hk]. by eapply Forall_lookup_1.
Qed.

Lemma quantize_array_cells (self0 : t) (a : array3 RGB) :
  wf_ditherer self0 -> wf_array a ->
  exists out, quantize_array self0 a = Ok out
    /\ wf_array out /\ same_shape out a
    /\ forall i j, i < width a -> j < height a ->
         cell out i j = cell a i j ≫= closest (palette self0).
Proof.
  intros [Hpal _] Hwf.
  destruct (quantize_array_cast self0 a (wf_built _ Hpal) Hwf)
    as (out & Hrun & Hwo & Hso & Hcells).
  exists out. split; [exact Hrun|]. split; [done|]. split; [done|].
  intros i j Hi Hj. rewrite Hcells by done.
  apply closest_bytes; [by apply wf_built|apply Hpal].
Qed.

End FirstRow.

Section Comparison.
Context `{Float64Ops} `{PILOps}.
Import MinecraftDitherer.

Lemma fresh_ne (h : heap) (l : loc) (img : Image) :
  h !! l = Some img -> l <> fresh (dom h).
Proof.
  intros Hl ->. by rewrite fresh_None in Hl.
Qed.

Lemma pixel_image_of_clipped (out : array3 RGB) (i j : nat) :
  pixel (PIL.image_of (ImageProcessor.clipped out)) i j
  = ImageProcessor.clip_uint8 <$> cell out i j.
Proof.
  unfold pixel, cell. simpl. rewrite list_lookup_fmap.
  destruct (cells out !! j) as [row|]; simpl; [|done]. by rewrite list_lookup_fmap.
Qed.

(** Two arrays of the same shape whose cells of row 0 agree have the same
    row 0. *)
Lemma first_row_eq {A} (a b : array3 A) :
  wf_array a -> wf_array b -> same_shape a b ->
  (forall i, i < width a -> cell a i 0 = cell b i 0) ->
  cells a !! 0 = cells b !! 0.
Proof.
  intros [Hha Hwa] [Hhb Hwb] [Hh Hw] Hcells.
  destruct (cells a !! 0) as [ra|] eqn:Hra.
  - destruct (lookup_lt_is_Some_2 (cells b) 0) as [rb Hrb].
    { apply lookup_lt_Some in Hra. lia. }
    rewrite Hrb. f_equal.
    pose proof (Forall_lookup_1 _ _ _ _ Hwa Hra) as Hla.
    pose proof (Forall_lookup_1 _ _ _ _ Hwb Hrb) as Hlb. simpl in Hla, Hlb.
    apply list_eq. intros i. destruct (decide (i < width a)) as [Hi|Hi].
    + specialize (Hcells i Hi). unfold cell in Hcells.
      by rewrite Hra, Hrb in Hcells.
    + rewrite !lookup_ge_None_2 by lia. done.
  - symmetry. apply lookup_ge_None_2. apply lookup_ge_None_1 in Hra. lia.
Qed.

(** The full sweep and the quantize-only loop leave the same row 0. *)
Lemma dither_quantize_first_row (self0 : t) (source : array3 RGB) (st : sweep)
    (qout : array3 RGB) :
  wf_ditherer self0 -> wf_array source -> all_cells rgb_uint8 source ->
  dither_array self0 source = Ok st -> quantize_array self0 source = Ok qout ->
  same_shape (output_array st) qout
  /\ wf_array (output_array st) /\ wf_array qout
  /\ cells (output_array st) !! 0 = cells qout !! 0.
Proof.
  intros Hself Hwf Hrgb Hrun Hq.
  destruct (proj1 (dither_array_spec self0 source Hself Hwf Hrgb) st Hrun)
    as (_ & _ & _ & _ & Hwo & Hho & Hwdo & _ & _).
  destruct (quantize_array_cells self0 source Hself Hwf)
    as (qout' & Hq' & Hwq & [Hhq Hwdq] & Hcells).
  assert (qout' = qout) as -> by congruence.
  assert (Hshape : same_shape (output_array st) qout) by (split; congruence).
  split; [done|]. split; [done|]. split; [done|].
  apply first_row_eq; [done..|]. intros i Hi.
  destruct (decide (0 < height source)) as [Hh|Hh].
  - rewrite (dither_array_first_row self0 source st i Hself Hwf Hrgb Hrun) by lia.
    rewrite Hcells by lia. done.
  - unfold cell. destruct Hwo as [Hlo _], Hwq as [Hlq _].
    rewrite !lookup_ge_None_2 by lia. done.
Qed.

(** What a call of [dither_with_comparison] amounts to, image by image,
    once the image is prepared. *)
Lemma comparison_images (self0 : t) (h : heap) (l : loc) (img pimg : Image)
    (resize : bool) :
  wf_ditherer self0 -> wf_bands img -> h !! l = Some img ->
  prepared resize img = Ok pimg ->
  exists original h1 qout h2,
    h ⊆ h1 /\ h !! original = None
    /\ h1 !! original = Some pimg
    /\ quantize_array self0 (PIL.array_of pimg) = Ok qout
    /\ <[fresh (dom h1) := PIL.image_of (ImageProcessor.clipped qout)]> h1 ⊆ h2
    /\ dither_with_comparison self0 (Some l) resize h
       = match dither_array self0 (PIL.array_of pimg) with
         | Ok st =>
             (Ok (original, fresh (dom h1), fresh (dom h2), self st),
              <[fresh (dom h2) :=
                  PIL.image_of (ImageProcessor.clipped (output_array st))]> h2)
         | Raise e => (Raise e, h2)
         end.
Proof.
  intros Hself Hwf Hl Hp.
  destruct (comparison_original h l img resize Hl) as (h1 & Hsub & Hprep).
  rewrite Hp in Hprep. destruct Hprep as (lo & Hfresh & Hlo & Hprep).
  pose proof (prepared_bands resize img pimg Hwf Hp) as Hwfp.
  destruct (create_quantized_run self0 h1 lo _ Hself Hwfp Hlo) as (qout & Hq & Hquant).
  set (h2 := <[fresh (dom h1) := PIL.image_of (ImageProcessor.clipped qout)]> h1).
  assert (Hlo2 : h2 !! lo = Some pimg).
  { unfold h2. rewrite lookup_insert_ne; [done|]. intros Heq.
    apply (is_fresh (dom h1)). rewrite Heq. apply elem_of_dom. eauto. }
  destruct (dither_image_run self0 h2 lo _ false Hlo2) as (h3 & Hsub3 & Hrun).
  exists lo, h1, qout, h3.
  split; [done|]. split; [done|]. split; [done|]. split; [done|]. split; [done|].
  unfold dither_with_comparison.
  rewrite (bindM_ok _ _ _ _ _ Hprep). cbv beta.
  rewrite (bindM_ok _ _ _ _ _ Hquant). cbv beta.
  unfold bindM at 1. fold h2. rewrite Hrun.
  cbn [prepared mbind result_bind].
  destruct (dither_array self0 (PIL.array_of pimg)); reflexivity.
Qed.

(** [dither_with_comparison] returns when the preparation of the image
    returns and the observer does not raise. *)
Lemma comparison_returns (self0 : t) (h : heap) (l : loc) (img pimg : Image)
    (resize : bool) :
  wf_ditherer self0 -> quiet self0 -> wf_bands img -> h !! l = Some img ->
  prepared resize img = Ok pimg ->
  exists o q d s h',
    dither_with_comparison self0 (Some l) resize h = (Ok (o, q, d, s), h').
Proof.
  intros Hself Hquiet Hwf Hl Hp.
  destruct (comparison_images self0 h l img pimg resize Hself Hwf Hl Hp)
    as (lo & h1 & qout & h2 & _ & _ & _ & _ & _ & ->).
  destruct (wf_bands_array _ (prepared_bands resize img pimg Hwf Hp)) as [Hwa Hbytes].
  destruct (proj2 (dither_array_spec self0 _ Hself Hwa Hbytes) Hquiet) as [st ->].
  by eexists _, _, _, _, _.
Qed.

(** A call that returns has prepared its image. *)
Lemma dither_image_prepared (self0 : t) (h : heap) (l : loc) (img : Image)
    (resize : bool) (r : loc) (s : t) (h' : heap) :
  h !! l = Some img ->
  dither_image self0 (Some l) resize h = (Ok (r, s), h') ->
  exists pimg, prepared resize img = Ok pimg.
Proof.
  intros Hl Hrun. destruct (dither_image_run self0 h l img resize Hl) as (h1 & _ & Heq).
  rewrite Heq in Hrun. destruct (prepared resize img) as [pimg|e]; [by exists pimg|].
  discriminate.
Qed.

Lemma comparison_prepared (self0 : t) (h : heap) (l : loc) (img : Image)
    (resize : bool) (o q d : loc) (s : t) (h' : heap) :
  h !! l = Some img ->
  dither_with_comparison self0 (Some l) resize h = (Ok (o, q, d, s), h') ->
  exists pimg, prepared resize img = Ok pimg.
Proof.
  intros Hl Hrun. destruct (prepared resize img) as [pimg|e] eqn:Hp; [by exists pimg|].
  destruct (comparison_raises self0 h l img resize e Hl Hp) as (h1 & _ & Heq).
  rewrite Heq in Hrun. discriminate.
Qed.

(** X12. When [dither_image] returns, the image it returns has the size of
    the map, 128 by 128, if resizing was asked for and the size of the
    input otherwise; the ditherer is left with both counters at the
    number of pixels of that image, and with its palette, matrix and
    observer as they were. *)
Theorem dither_image_counters (self0 : t) (h : heap) (l : loc) (img : Image)
    (resize : bool) (r : loc) (s : t) (h' : heap) :
  wf_ditherer self0 -> h !! l = Some img -> wf_image img ->
  dither_image self0 (Some l) resize h = (Ok (r, s), h') ->
  exists out,
    h' !! r = Some out
    /\ size out = (if resize then ImageProcessor.MINECRAFT_MAP_SIZE else size img)
    /\ processed_pixels s = (size out).2 * (size out).1
    /\ total_pixels s = (size out).2 * (size out).1
    /\ same_config s self0.
Proof.
  intros Hself Hl Hwf Hrun.
  destruct (dither_image_prepared self0 h l img resize r s h' Hl Hrun) as (pimg & Hp).
  destruct (dither_image_run self0 h l img resize Hl) as (h1 & _ & Heq).
  rewrite Heq, Hp in Hrun. cbn [mbind result_bind] in Hrun. clear Heq.
  destruct (wf_image_array _ (prepared_wf resize img pimg Hwf Hp)) as [Hwa Hbytes].
  pose proof (dither_array_notifies self0 _ Hself Hwa Hbytes) as Hcount.
  destruct (dither_array self0 (PIL.array_of pimg)) as [st|e] eqn:Hst;
    [|discriminate].
  inversion Hrun; subst; clear Hrun. destruct Hcount as (_ & Hc & HT).
  destruct (dither_array_image self0 _ st Hself Hwa Hbytes Hst) as (_ & Hsz & _).
  eexists. rewrite lookup_insert_eq. split; [reflexivity|].
  rewrite Hsz. cbn [PIL.array_of width height fst snd] in *.
  split; [|split; [done|split; [done|by eapply dither_array_keeps_config]]].
  rewrite <- (prepared_size resize img pimg Hp). by destruct (size pimg).
Qed.

(** X13. Once the image is prepared, whether [dither_image] returns is
    decided by the observer alone: the call raises what
    [_update_progress] raises at the first failing notification, the
    notifications being made at every multiple of 1000 processed pixels
    and once more at the end, with the number of pixels of the prepared
    image as the total; when none fails, the call returns.  When the
    preparation raises, the call raises the same and notifies nobody.
    The prepared image has the size of the map if resizing was asked for
    and the size of the input otherwise, and the preparation returns when
    no resizing is asked for and when the image fits in the map. *)
Theorem dither_image_notifies (self0 : t) (h : heap) (l : loc) (img : Image)
    (resize : bool) :
  wf_ditherer self0 -> h !! l = Some img -> wf_image img ->
  (_ ← (dither_image self0 (Some l) resize h).1; Ok tt)
  = (pimg ← prepared resize img; notify self0 ((size pimg).2 * (size pimg).1))
  /\ (forall pimg, prepared resize img = Ok pimg ->
        size pimg = if resize then ImageProcessor.MINECRAFT_MAP_SIZE else size img)
  /\ (resize = false \/ fits img ImageProcessor.MINECRAFT_MAP_SIZE ->
        exists pimg, prepared resize img = Ok pimg).
Proof.
  intros Hself Hl Hwf. split; [|split].
  - destruct (dither_image_run self0 h l img resize Hl) as (h1 & _ & ->).
    destruct (prepared resize img) as [pimg|e] eqn:Hp; cbn [mbind result_bind]; [|done].
    destruct (wf_image_array _ (prepared_wf resize img pimg Hwf Hp)) as [Hwa Hbytes].
    pose proof (dither_array_notifies self0 _ Hself Hwa Hbytes) as Hcount.
    cbn [PIL.array_of width height] in Hcount.
    destruct (dither_array self0 (PIL.array_of pimg)) as [st|e].
    + destruct Hcount as (-> & _). reflexivity.
    + rewrite Hcount. reflexivity.
  - intros pimg Hp. exact (prepared_size resize img pimg Hp).
  - intros [-> | Hfit]; [by exists img|].
    destruct resize; [apply prepared_fits; [apply Hwf|done]|by exists img].
Qed.

(** X14. For every palette that the constructor builds,
    [_create_quantized_image] returns a new image of the size of its
    argument in which every pixel is the palette colour that the LAB
    lookup returns for the pixel of the argument at the same place, with
    each channel cast to a byte, that is, taken modulo 256; for a palette
    of bytes the pixel is the colour itself.  The argument is left as it
    is. *)
Theorem quantized_image_nearest (self0 : t) (h : heap) (l : loc) (img : Image) :
  built_palette (palette self0) -> wf_image img -> h !! l = Some img ->
  exists q h' qimg,
    _create_quantized_image self0 (Some l) h = (Ok q, h')
    /\ h !! q = None /\ h ⊆ h'
    /\ h' !! q = Some qimg
    /\ size qimg = size img
    /\ (forall i j, i < (size img).1 -> j < (size img).2 ->
          pixel qimg i j = uint8_rgb <$> (pixel img i j ≫= closest (palette self0)))
    /\ (Forall rgb_uint8 (MinecraftPalette.colors_rgb (palette self0)) ->
        forall i j, i < (size img).1 -> j < (size img).2 ->
          pixel qimg i j = pixel img i j ≫= closest (palette self0)).
Proof.
  intros Hpal Hwf Hl.
  destruct (quantize_array_cast self0 (PIL.array_of img) Hpal
              (proj1 (wf_image_array img Hwf)))
    as (out & Hq & Hwo & [Hh Hw] & Hcells).
  assert (Hrun : _create_quantized_image self0 (Some l) h
                 = (Ok (fresh (dom h)),
                    <[fresh (dom h) := PIL.image_of (ImageProcessor.clipped out)]> h)).
  { unfold _create_quantized_image, ImageProcessor.image_to_array, PIL.np_array.
    unfold bindM at 1. rewrite (bindM_ok _ _ _ _ _ (deref_ok _ _ _ Hl)). cbv beta.
    unfold retM at 1. unfold bindM at 1, liftM at 1, unpack_shape.
    unfold bindM at 1, liftM at 1. rewrite Hq.
    by unfold ImageProcessor.array_to_image, PIL.fromarray, alloc. }
  assert (Hpx : forall i j, i < (size img).1 -> j < (size img).2 ->
            pixel (PIL.image_of (ImageProcessor.clipped out)) i j
            = uint8_rgb <$> (pixel img i j ≫= closest (palette self0))).
  { intros i j Hi Hj. rewrite pixel_image_of_clipped, Hcells by done.
    change (cell (PIL.array_of img) i j) with (pixel img i j).
    destruct (pixel img i j ≫= closest (palette self0)) as [c|]; [|done]. simpl.
    by rewrite clip_uint8_id by apply uint8_rgb_bytes. }
  eexists _, _, _. split; [exact Hrun|]. split; [apply fresh_None|].
  split; [apply alloc_extends|]. split; [apply lookup_insert_eq|]. split; [|split].
  - cbn [PIL.image_of ImageProcessor.clipped size width height].
    rewrite Hh, Hw. cbn [PIL.array_of width height]. by destruct (size img).
  - exact Hpx.
  - intros Hbytes i j Hi Hj. rewrite Hpx by done. by apply closest_bytes.
Qed.

(** X15. In the images that [dither_with_comparison] returns, the first
    row of the dithered image is the first row of the quantize-only
    image: no error reaches row 0.  When the swept image has one
    row, the two images are the same. *)
Theorem comparison_first_row (self0 : t) (h : heap) (l : loc) (img : Image)
    (resize : bool) (o q d : loc) (s : t) (h' : heap) :
  wf_ditherer self0 -> wf_image img -> h !! l = Some img ->
  dither_with_comparison self0 (Some l) resize h = (Ok (o, q, d, s), h') ->
  exists pimg qimg dimg,
    prepared resize img = Ok pimg
    /\ h' !! q = Some qimg /\ h' !! d = Some dimg
    /\ pixels dimg !! 0 = pixels qimg !! 0
    /\ ((size pimg).2 <= 1 -> dimg = qimg).
Proof.
  intros Hself Hwf Hl Hrun.
  destruct (comparison_prepared self0 h l img resize o q d s h' Hl Hrun) as (pimg & Hp).
  destruct (comparison_images self0 h l img pimg resize Hself (proj2 Hwf) Hl Hp)
    as (lo & h1 & qout & h2 & _ & _ & _ & Hq & Hsub2 & Heq).
  rewrite Heq in Hrun. clear Heq.
  destruct (wf_image_array _ (prepared_wf resize img pimg Hwf Hp)) as [Hwa Hbytes].
  destruct (dither_array self0 (PIL.array_of pimg)) as [st|e] eqn:Hst;
    [|discriminate].
  inversion Hrun; subst; clear Hrun.
  destruct (dither_quantize_first_row self0 _ st qout Hself Hwa Hbytes Hst Hq)
    as ([Hh Hw] & Hwo & Hwq & Hrow).
  exists pimg, (PIL.image_of (ImageProcessor.clipped qout)),
         (PIL.image_of (ImageProcessor.clipped (output_array st))).
  assert (h2 !! fresh (dom h1) = Some (PIL.image_of (ImageProcessor.clipped qout)))
    as Hq2 by (eapply lookup_weaken; [apply lookup_insert_eq|exact Hsub2]).
  split; [done|]. split.
  { rewrite lookup_insert_ne; [done|]. intros Heq.
    apply (is_fresh (dom h2)). rewrite Heq. apply elem_of_dom. eauto. }
  split; [apply lookup_insert_eq|].
  assert (Hrow' : pixels (PIL.image_of (ImageProcessor.clipped (output_array st))) !! 0
                  = pixels (PIL.image_of (ImageProcessor.clipped qout)) !! 0).
  { cbn [PIL.image_of ImageProcessor.clipped pixels cells].
    by rewrite !list_lookup_fmap, Hrow. }
  split; [exact Hrow'|]. intros Hone.
  destruct (quantize_array_cells self0 _ Hself Hwa) as (qout' & Hq' & _ & [Hhq _] & _).
  assert (qout' = qout) as -> by congruence.
  cbn [PIL.array_of height] in Hhq.
  unfold PIL.image_of. cbn [ImageProcessor.clipped width height cells].
  rewrite Hh, Hw. f_equal.
  destruct Hwo as [Hlo _], Hwq as [Hlq _].
  cbn [PIL.image_of ImageProcessor.clipped pixels cells] in Hrow'.
  rewrite !list_lookup_fmap in Hrow'.
  assert (length (cells (output_array st)) = length (cells qout)) as Hlen by lia.
  assert (length (cells qout) <= 1) as Hle by lia.
  destruct (cells (output_array st)) as [|ro [|? ?]], (cells qout) as [|rq [|? ?]];
    simpl in *; try lia; [done|].
  by inversion Hrow'.
Qed.

(** X16. The three images that [dither_with_comparison] returns are three
    new, distinct objects of one size: the prepared input, its
    quantize-only image, and the image that [dither_image] returns for
    the input under the same resize option.  Every image that was on
    the heap is left as it was. *)
Theorem comparison_three_images (self0 : t) (h : heap) (l : loc) (img : Image)
    (resize : bool) (o q d : loc) (s : t) (h' : heap) :
  wf_ditherer self0 -> wf_image img -> h !! l = Some img ->
  dither_with_comparison self0 (Some l) resize h = (Ok (o, q, d, s), h') ->
  h ⊆ h'
  /\ h !! o = None /\ h !! q = None /\ h !! d = None
  /\ o <> q /\ o <> d /\ q <> d
  /\ exists pimg qimg dimg,
       prepared resize img = Ok pimg
       /\ h' !! o = Some pimg
       /\ h' !! q = Some qimg /\ h' !! d = Some dimg
       /\ size qimg = size pimg
       /\ size dimg = size pimg
       /\ outcome (dither_image self0 (Some l) resize h) = Ok dimg.
Proof.
  intros Hself Hwf Hl Hrun.
  destruct (comparison_prepared self0 h l img resize o q d s h' Hl Hrun) as (pimg & Hp).
  destruct (comparison_images self0 h l img pimg resize Hself (proj2 Hwf) Hl Hp)
    as (lo & h1 & qout & h2 & Hsub1 & Hfresh & Hlo & Hq & Hsub2 & Heq).
  rewrite Heq in Hrun. clear Heq.
  destruct (wf_image_array _ (prepared_wf resize img pimg Hwf Hp)) as [Hwa Hbytes].
  destruct (dither_array self0 (PIL.array_of pimg)) as [st|e] eqn:Hst;
    [|discriminate].
  inversion Hrun; subst; clear Hrun.
  set (qimg := PIL.image_of (ImageProcessor.clipped qout)) in *.
  set (dimg := PIL.image_of (ImageProcessor.clipped (output_array st))).
  assert (Hq1 : h1 !! fresh (dom h1) = None) by apply fresh_None.
  assert (Hd2 : h2 !! fresh (dom h2) = None) by apply fresh_None.
  assert (Hq2 : h2 !! fresh (dom h1) = Some qimg)
    by (eapply lookup_weaken; [apply lookup_insert_eq|exact Hsub2]).
  assert (Hsub12 : h1 ⊆ h2).
  { etrans; [|exact Hsub2]. by apply insert_subseteq. }
  assert (Ho2 : h2 !! o = Some pimg) by (by eapply lookup_weaken).
  assert (Hoq : o <> fresh (dom h1)) by (by eapply fresh_ne).
  assert (Hod : o <> fresh (dom h2)) by (by eapply fresh_ne).
  assert (Hqd : fresh (dom h1) <> fresh (dom h2)) by (by eapply fresh_ne).
  split; [etrans; [exact Hsub1|]; etrans; [exact Hsub12|]; by apply insert_subseteq|].
  split; [done|].
  split; [by eapply lookup_weaken_None|].
  split; [eapply lookup_weaken_None; [exact Hd2|by etrans]|].
  split; [done|]. split; [done|]. split; [done|].
  exists pimg, qimg, dimg. split; [done|].
  split; [by rewrite lookup_insert_ne|].
  split; [by rewrite lookup_insert_ne|]. split; [apply lookup_insert_eq|].
  destruct (dither_array_image self0 _ st Hself Hwa Hbytes Hst) as (_ & Hsz & _).
  destruct (quantize_array_cells self0 _ Hself Hwa) as (qout' & Hq' & _ & [Hhq Hwq] & _).
  assert (qout' = qout) as -> by congruence.
  cbn [PIL.array_of width height] in *.
  split; [|split].
  - unfold qimg. cbn [PIL.image_of ImageProcessor.clipped size width height].
    rewrite Hhq, Hwq. by destruct (size pimg).
  - unfold dimg. rewrite Hsz. by destruct (size pimg).
  - rewrite (outcome_run self0 h l img resize Hl), Hp. cbn [mbind result_bind].
    rewrite Hst. reflexivity.
Qed.

End Comparison.

(** ** The reach of error diffusion, and the constructor of the ditherer *)

Section Reach.
Import MinecraftDitherer Stencil.

(** X18. Error diffusion from pixel (x, y) keeps the shape of the buffer
    and changes at most four cells: (x+1, y+1) and (x-1, y+2), (x, y+2),
    (x+1, y+2).  The pixel itself, its right neighbour (x+1, y) and every
    pixel of the rows up to [y] are left as they are. *)
Theorem error_diffusion_reach (self : t) (a a' : array3 floats3) (x y : nat)
    (error : floats3) :
  error_matrix self = floyd_steinberg -> wf_array a ->
  _apply_error_diffusion self a x y error = Ok a' ->
  same_shape a' a
  /\ (forall i j,
        ~ ((j = y + 1 /\ i = x + 1)
           \/ (j = y + 2 /\ (i + 1 = x \/ i = x \/ i = x + 1))) ->
        cell a' i j = cell a i j)
  /\ (forall i j, j <= y -> cell a' i j = cell a i j).
Proof.
  intros Hm Hwf Hrun.
  destruct (apply_error_diffusion_cells self a x y error Hm Hwf)
    as (a'' & Hrun' & _ & Hshape & Hcells).
  rewrite Hrun in Hrun'. inversion Hrun'; subst a''. clear Hrun'.
  assert (Hout : forall i j,
            ~ ((j = y + 1 /\ i = x + 1)
               \/ (j = y + 2 /\ (i + 1 = x \/ i = x \/ i = x + 1))) ->
            cell a' i j = cell a i j).
  { intros i j Hnot. rewrite Hcells. unfold diffused, stencil_weight.
    destruct (Nat.eqb_spec j (y + 1)), (Nat.eqb_spec i (x + 1)),
      (Nat.eqb_spec j (y + 2)), (Nat.eqb_spec (i + 1) x), (Nat.eqb_spec i x);
      cbn [andb]; try (by destruct (cell a i j)); exfalso; apply Hnot; lia. }
  split; [done|]. split; [exact Hout|].
  intros i j Hj. apply Hout. lia.
Qed.

End Reach.

Section DithererInit.
Context `{Float64Ops}.
Import MinecraftDitherer DithererTools.

Lemma default_palette_parses :
  exists rgbs, mapM MinecraftPalette.hex_to_rgb MinecraftPalette.CARPET_COLORS = Ok rgbs
               /\ length rgbs = 61.
Proof. eexists. split; [vm_compute; reflexivity|reflexivity]. Qed.

Lemma default_palette_init :
  exists p, MinecraftPalette.init MinecraftPalette.CARPET_COLORS = Ok p
            /\ MinecraftPalette.carpet_colors p = MinecraftPalette.CARPET_COLORS.
Proof.
  destruct default_palette_parses as (rgbs & Hrgbs & _).
  eexists. split.
  - unfold MinecraftPalette.init.
    change MinecraftPalette.CARPET_COLORS
      with ("#DC0000"%string :: tail MinecraftPalette.CARPET_COLORS) at 1.
    cbv iota. rewrite Hrgbs. reflexivity.
  - reflexivity.
Qed.

(** X19. The constructor of the ditherer returns exactly when every
    custom colour can be read by [hex_to_rgb]; without custom colours,
    or with an empty list of them, it always returns. *)
Theorem ditherer_init_succeeds (custom_colors : option (list string)) :
  (exists d, init custom_colors = Ok d)
  <-> Forall (fun s => exists c, MinecraftPalette.hex_to_rgb s = Ok c)
        (default [] custom_colors).
Proof.
  destruct default_palette_init as (p0 & Hp0 & _).
  unfold init. rewrite Hp0. cbn [mbind result_bind].
  destruct custom_colors as [[|c cs]|]; cbn [default from_option id].
  - split; [constructor|]. intros _. by eexists.
  - split.
    + intros (d & Hd). apply bind_ok in Hd as (p & Hp & _).
      unfold MinecraftPalette.init in Hp. apply bind_ok in Hp as (rgbs & Hrgbs & _).
      apply mapM_ok_iff. by exists rgbs.
    + intros Hall. apply mapM_ok_iff in Hall as (rgbs & Hrgbs).
      unfold MinecraftPalette.init. rewrite Hrgbs. by eexists.
  - split; [constructor|]. intros _. by eexists.
Qed.

(** X20. For a ditherer that the constructor returns, [get_palette_info]
    reports the custom colours when a non-empty list of them was given and
    the 61 default colours otherwise, and its [color_count] is the number
    of colours that the lookups search; the ditherer starts with the
    Floyd-Steinberg matrix, both counters at zero and no observer. *)
Theorem ditherer_init_palette_info (custom_colors : option (list string)) (d : t) :
  init custom_colors = Ok d ->
  colors (get_palette_info d)
  = match custom_colors with
    | Some (c :: cs) => c :: cs
    | _ => MinecraftPalette.CARPET_COLORS
    end
  /\ color_count (get_palette_info d)
     = length (MinecraftPalette.colors_rgb (palette d))
  /\ (default [] custom_colors = [] -> color_count (get_palette_info d) = 61)
  /\ error_matrix d = floyd_steinberg
  /\ processed_pixels d = 0 /\ total_pixels d = 0
  /\ progress_callback d = None.
Proof.
  intros Hd. pose proof (ditherer_init_built _ _ Hd) as [(_ & Hlen & _) _].
  unfold init in Hd. apply bind_ok in Hd as (p0 & Hp0 & Hd).
  apply bind_ok in Hd as (p & Hp & [= <-]).
  cbn [get_palette_info colors color_count palette error_matrix processed_pixels
       total_pixels progress_callback] in *.
  apply init_built in Hp0 as [_ Hc0].
  assert (MinecraftPalette.carpet_colors p
          = match custom_colors with
            | Some (c :: cs) => c :: cs
            | _ => MinecraftPalette.CARPET_COLORS
            end) as Hcolors.
  { destruct custom_colors as [[|c cs]|].
    - by inversion Hp; subst.
    - by apply init_built in Hp as [_ ?].
    - by inversion Hp; subst. }
  split; [done|]. split; [done|]. split; [|done].
  intros Hnone. destruct custom_colors as [[|c cs]|]; [|done|]; by rewrite Hcolors.
Qed.

End DithererInit.

Lemma ditherer_init_palette_info_witness :
  (exists d, MinecraftDitherer.init (Some ["#000000"; "#ffffff"]%string) = Ok d
     /\ DithererTools.colors (DithererTools.get_palette_info d)
        = ["#000000"; "#ffffff"]%string
     /\ DithererTools.color_count (DithererTools.get_palette_info d)
        = length (MinecraftPalette.colors_rgb (MinecraftDitherer.palette d))
     /\ (default [] (Some ["#000000"; "#ffffff"]%string) = [] ->
           DithererTools.color_count (DithererTools.get_palette_info d) = 61)
     /\ MinecraftDitherer.error_matrix d = MinecraftDitherer.floyd_steinberg
     /\ MinecraftDitherer.processed_pixels d = 0
     /\ MinecraftDitherer.total_pixels d = 0
     /\ MinecraftDitherer.progress_callback d = None).
Proof.
  eexists. split; [vm_compute; reflexivity|].
  apply (ditherer_init_palette_info (Some ["#000000"; "#ffffff"]%string)).
  vm_compute; reflexivity.
Defined.

Lemma error_diffusion_reach_witness :
  MinecraftDitherer.error_matrix (ditherer_of black_only)
    = MinecraftDitherer.floyd_steinberg
  /\ wf_array roomy_buffer
  /\ exists a',
       MinecraftDitherer._apply_error_diffusion (ditherer_of black_only) roomy_buffer
         1 0 (16, 16, 16)%Q = Ok a'
       /\ same_shape a' roomy_buffer
       /\ (forall i j,
             ~ ((j = 0 + 1 /\ i = 1 + 1)
                \/ (j = 0 + 2 /\ (i + 1 = 1 \/ i = 1 \/ i = 1 + 1))) ->
             cell a' i j = cell roomy_buffer i j)
       /\ (forall i j, j <= 0 -> cell a' i j = cell roomy_buffer i j).
Proof.
  split; [reflexivity|]. split; [exact roomy_buffer_wf|].
  eexists. split; [vm_compute; reflexivity|].
  apply (error_diffusion_reach (ditherer_of black_only) roomy_buffer _ 1 0
           (16, 16, 16)%Q eq_refl roomy_buffer_wf).
  vm_compute; reflexivity.
Defined.

(** ** Supported file formats *)

Section Formats.
Import FormatTools.

Lemma rfind_from_spec (p : list ascii) (c : ascii) (i last : Z) :
  (last < i)%Z ->
  (rfind_from p c i last = last /\ c ∉ p)
  \/ ((i <= rfind_from p c i last < i + Z.of_nat (length p))%Z
      /\ p !! Z.to_nat (rfind_from p c i last - i) = Some c
      /\ forall j, Z.to_nat (rfind_from p c i last - i) < j -> p !! j <> Some c).
Proof.
  revert i last. induction p as [|a p IH]; intros i last Hlast; cbn [rfind_from].
  - left. split; [done|]. apply not_elem_of_nil.
  - set (last' := if Ascii.eqb a c then i else last).
    assert (last' < i + 1)%Z as Hlast' by (unfold last'; destruct (Ascii.eqb a c); lia).
    destruct (IH (i + 1)%Z last' Hlast') as [[Hk Hnin]|(Hk & Hc & Hafter)].
    + rewrite Hk. unfold last'. destruct (Ascii.eqb_spec a c) as [->|Hne].
      * right. split; [cbn [length]; lia|]. rewrite Z.sub_diag. split; [done|].
        intros [|j] Hj; [lia|]. cbn. intros Hj'. apply Hnin.
        by eapply list_elem_of_lookup_2.
      * left. split; [done|]. by apply not_elem_of_cons.
    + right. set (k := rfind_from p c (i + 1) last') in *.
      replace (Z.to_nat (k - i)) with (S (Z.to_nat (k - (i + 1)))) by lia.
      split; [cbn [length]; lia|]. split; [done|].
      intros [|j] Hj; [lia|]. cbn. apply Hafter. lia.
Qed.

(** [rfind] returns -1 when the character does not occur, and otherwise
    the index of its last occurrence. *)
Lemma rfind_spec (p : list ascii) (c : ascii) :
  (rfind p c = (-1)%Z /\ c ∉ p)
  \/ ((0 <= rfind p c < Z.of_nat (length p))%Z
      /\ p !! Z.to_nat (rfind p c) = Some c
      /\ forall j, Z.to_nat (rfind p c) < j -> p !! j <> Some c).
Proof.
  destruct (rfind_from_spec p c 0 (-1) ltac:(lia)) as [H|H]; [by left|right].
  fold (rfind p c) in H. by rewrite Z.sub_0_r, Z.add_0_l in H.
Qed.

Lemma rfind_unique (p : list ascii) (c : ascii) (k : nat) :
  p !! k = Some c -> (forall j, k < j -> p !! j <> Some c) ->
  rfind p c = Z.of_nat k.
Proof.
  intros Hk Hafter. destruct (rfind_spec p c) as [[_ Hnin]|(Hr & Hc & Hlast)].
  - exfalso. apply Hnin. by eapply list_elem_of_lookup_2.
  - destruct (Nat.lt_trichotomy (Z.to_nat (rfind p c)) k) as [Hlt|[Heq|Hgt]].
    + by destruct (Hlast k Hlt).
    + lia.
    + by destruct (Hafter _ Hgt).
Qed.

Lemma path_sep_index_spec (os : OsPath) (p : list ascii) :
  (path_sep_index os p = (-1)%Z
   \/ (0 <= path_sep_index os p)%Z
      /\ exists a, p !! Z.to_nat (path_sep_index os p) = Some a /\ is_sep os a)
  /\ forall j a, (path_sep_index os p < Z.of_nat j)%Z -> p !! j = Some a -> ~ is_sep os a.
Proof.
  unfold path_sep_index, is_sep.
  destruct (rfind_spec p (sep os)) as [[Hs Hsn]|(Hs & Hsc & Hsl)];
    (destruct (altsep os) as [alt|];
     [destruct (rfind_spec p alt) as [[Ha Han]|(Ha & Hac & Hal)]|]).
  - rewrite Hs, Ha. split; [by left|]. intros j a _ Hj [->|[= ->]].
    + apply Hsn. by eapply list_elem_of_lookup_2.
    + apply Han. by eapply list_elem_of_lookup_2.
  - rewrite Hs, Z.max_r by lia. split; [right; split; [lia|]; eauto|].
    intros j a Hlt Hj [->|[= ->]].
    + apply Hsn. by eapply list_elem_of_lookup_2.
    + apply (Hal j); [lia|done].
  - rewrite Hs. split; [by left|]. intros j a _ Hj [->|[=]].
    apply Hsn. by eapply list_elem_of_lookup_2.
  - rewrite Ha, Z.max_l by lia. split; [right; split; [lia|]; eauto|].
    intros j a Hlt Hj [->|[= ->]].
    + apply (Hsl j); [lia|done].
    + apply Han. by eapply list_elem_of_lookup_2.
  - split.
    + right. split; [lia|].
      destruct (Z.max_spec (rfind p (sep os)) (rfind p alt)) as [[_ ->]|[_ ->]]; eauto.
    + intros j a Hlt Hj [->|[= ->]].
      * apply (Hsl j); [lia|done].
      * apply (Hal j); [lia|done].
  - split; [right; split; [lia|]; eauto|].
    intros j a Hlt Hj [->|[=]]. apply (Hsl j); [lia|done].
Qed.

Lemma splitext_unfold (os : OsPath) (p : list ascii) :
  _splitext p (sep os) (altsep os) "."
  = if (path_sep_index os p <? rfind p ".")%Z then
      if forallb (fun a => Ascii.eqb a ".") (slice p (path_sep_index os p + 1) (rfind p "."))
      then (p, [])
      else (take (Z.to_nat (rfind p ".")) p, drop (Z.to_nat (rfind p ".")) p)
    else (p, []).
Proof. unfold _splitext, path_sep_index. by destruct (altsep os). Qed.

(** The shape of a supported extension: a dot followed by characters that
    are neither dots nor separators. *)
Lemma supported_format_shape (os : OsPath) (e : list ascii) :
  os = posixpath \/ os = ntpath ->
  string_of_list_ascii e ∈ SUPPORTED_FORMATS ->
  exists e', e = "."%char :: e' /\ ~ "."%char ∈ e'
             /\ forall a, a ∈ e -> ~ is_sep os a.
Proof.
  intros Hos He.
  assert (e ∈ map list_ascii_of_string SUPPORTED_FORMATS) as Hin.
  { rewrite <- (list_ascii_of_string_of_list_ascii e). by apply list_elem_of_fmap_2. }
  unfold is_sep. cbn in Hin.
  repeat (apply elem_of_cons in Hin as [->|Hin];
          [eexists; split; [reflexivity|]; split;
           [intros Hd; repeat (apply elem_of_cons in Hd as [Hd|Hd]; [discriminate|]);
            by apply elem_of_nil in Hd
           |intros a Ha [Hs|Hs]; destruct Hos as [-> | ->]; cbn in Hs;
            try discriminate; try (inversion Hs; subst a); subst;
            repeat (apply elem_of_cons in Ha as [Ha|Ha]; [discriminate|]);
            by apply elem_of_nil in Ha]|]).
  by apply elem_of_nil in Hin.
Qed.

(** X24. On POSIX and on Windows alike, [is_supported_format] accepts a
    path exactly when the path in lower case ends with one of the six
    supported extensions and the last component of the path has a
    character other than a dot before that extension: the letter case of
    the extension is ignored, and a name that consists of the extension
    alone, with or without leading dots, is refused. *)
Theorem is_supported_format_iff (os : OsPath) (file_path : string) :
  os = posixpath \/ os = ntpath ->
  is_supported_format os file_path = true
  <-> exists q name e,
        list_ascii_of_string (MinecraftPalette.lower file_path) = q ++ name ++ e
        /\ string_of_list_ascii e ∈ SUPPORTED_FORMATS
        /\ (forall a, a ∈ name -> ~ is_sep os a)
        /\ (exists a, a ∈ name /\ a <> "."%char).
Proof.
  intros Hos. unfold is_supported_format, splitext.
  set (p := list_ascii_of_string (MinecraftPalette.lower file_path)).
  rewrite splitext_unfold.
  destruct (path_sep_index_spec os p) as [Hsep Hafter].
  set (si := path_sep_index os p) in *. set (di := rfind p ".") in *.
  assert (Hempty : ""%string ∉ SUPPORTED_FORMATS).
  { intros Hin. cbn in Hin.
    repeat (apply elem_of_cons in Hin as [Hin|Hin]; [discriminate|]).
    by apply elem_of_nil in Hin. }
  assert (Hsi : (-1 <= si)%Z) by (destruct Hsep as [->|[? _]]; lia).
  split.
  - intros Hok.
    destruct (Z.ltb_spec si di) as [Hlt|Hge];
      [|cbn in Hok; by apply bool_decide_eq_true in Hok].
    destruct (forallb _ _) eqn:Hdots;
      [cbn in Hok; by apply bool_decide_eq_true in Hok|].
    apply bool_decide_eq_true in Hok.
    destruct (rfind_spec p ".") as [[Hd _]|(Hd & _ & _)]; fold di in Hd; [lia|].
    exists (take (Z.to_nat (si + 1)) p), (slice p (si + 1) di), (drop (Z.to_nat di) p).
    split; [|split; [done|split]].
    + unfold slice. rewrite <- (take_drop (Z.to_nat (si + 1)) p) at 1. f_equal.
      rewrite <- (take_drop (Z.to_nat (di - (si + 1))) (drop (Z.to_nat (si + 1)) p)) at 1.
      f_equal. rewrite drop_drop. f_equal. lia.
    + intros a Ha. unfold slice in Ha. apply list_elem_of_lookup in Ha as (j & Hj).
      apply lookup_take_Some in Hj as [Hj Hlen]. rewrite lookup_drop in Hj.
      apply (Hafter (Z.to_nat (si + 1) + j) a); [lia|exact Hj].
    + assert (exists a, a ∈ slice p (si + 1) di /\ Ascii.eqb a "." = false)
        as (a & Ha & Hne).
      { revert Hdots. generalize (slice p (si + 1) di). intros u.
        induction u as [|a u IH]; [done|]. cbn [forallb].
        destruct (Ascii.eqb a ".") eqn:Ea; cbn [andb].
        - intros Hu. destruct (IH Hu) as (b & Hb & Hne). exists b. split; [by right|done].
        - intros _. exists a. split; [left|done]. }
      exists a. split; [done|]. by apply Ascii.eqb_neq.
  - intros (q & name & e & Hp & He & Hname & (a0 & Ha0 & Hdot)).
    destruct (supported_format_shape os e Hos He) as (e' & -> & Hnodot & Hnosep).
    assert (Hdi : di = Z.of_nat (length q + length name)).
    { unfold di. apply rfind_unique.
      - rewrite Hp, app_assoc, lookup_app_r by (rewrite length_app; lia).
        by rewrite length_app, Nat.sub_diag.
      - intros j Hj. rewrite Hp, app_assoc, lookup_app_r by (rewrite length_app; lia).
        rewrite length_app.
        destruct (j - (length q + length name)) as [|k] eqn:Hk; [lia|]. cbn.
        intros Hc. apply Hnodot. by eapply list_elem_of_lookup_2. }
    assert (Hsq : (si < Z.of_nat (length q))%Z).
    { destruct Hsep as [->|[Hpos (a & Ha & Hs)]]; [lia|].
      destruct (decide (Z.to_nat si < length q)) as [?|Hge]; [lia|]. exfalso.
      rewrite Hp, lookup_app_r in Ha by lia.
      apply list_elem_of_lookup_2, elem_of_app in Ha as [Ha|Ha].
      - by apply (Hname a).
      - by apply (Hnosep a). }
    destruct (Z.ltb_spec si di) as [_|?]; [|lia].
    assert (Hslice : slice p (si + 1) di = drop (Z.to_nat (si + 1)) q ++ name).
    { unfold slice. rewrite Hp, Hdi, drop_app_le, app_assoc by lia.
      rewrite take_app_length'; [done|]. rewrite length_app, length_drop. lia. }
    rewrite Hslice.
    assert (forallb (fun a => Ascii.eqb a ".") (drop (Z.to_nat (si + 1)) q ++ name)
            = false) as ->.
    { rewrite forallb_app. apply andb_false_iff. right.
      clear -Ha0 Hdot. induction name as [|a name IH]; [by apply elem_of_nil in Ha0|].
      cbn [forallb]. apply elem_of_cons in Ha0 as [<-|Hin].
      - by rewrite (proj2 (Ascii.eqb_neq _ _) Hdot).
      - rewrite IH by done. apply andb_false_r. }
    apply bool_decide_eq_true.
    rewrite Hdi, Nat2Z.id, Hp, app_assoc, drop_app_length'; [done|].
    by rewrite length_app.
Qed.

End Formats.

Lemma is_supported_format_iff_witness :
  (ntpath = posixpath \/ ntpath = ntpath)
  /\ (FormatTools.is_supported_format ntpath "C:\Maps\Castle.v2.PNG" = true
      <-> exists q name e,
            list_ascii_of_string (MinecraftPalette.lower "C:\Maps\Castle.v2.PNG")
              = q ++ name ++ e
            /\ string_of_list_ascii e ∈ FormatTools.SUPPORTED_FORMATS
            /\ (forall a, a ∈ name -> ~ is_sep ntpath a)
            /\ (exists a, a ∈ name /\ a <> "."%char)).
Proof.
  split; [by right|].
  exact (is_supported_format_iff ntpath "C:\Maps\Castle.v2.PNG" (or_intror eq_refl)).
Defined.

(** Paths that are accepted and paths that are refused. *)
Example is_supported_format_examples :
  FormatTools.is_supported_format posixpath "art/Castle.v2.PNG" = true
  /\ FormatTools.is_supported_format posixpath "photo.JpEg" = true
  /\ FormatTools.is_supported_format posixpath "a..gif" = true
  /\ FormatTools.is_supported_format posixpath ".png" = false
  /\ FormatTools.is_supported_format posixpath "art/...png" = false
  /\ FormatTools.is_supported_format posixpath "art.png/readme" = false
  /\ FormatTools.is_supported_format posixpath "photo.webp" = false
  /\ FormatTools.is_supported_format posixpath "png" = false
  /\ FormatTools.is_supported_format posixpath "art\.png" = true
  /\ FormatTools.is_supported_format ntpath "art\.png" = false.
Proof. repeat split; vm_compute; reflexivity. Qed.

(** ** The palette preview *)

Section Preview.
Context `{Float64Ops} `{FileOps}.
Import MinecraftDitherer PreviewTools.

Lemma putpixel_spec (h : heap) (l : loc) (img : Image) (x y : nat) (c : RGB) :
  h !! l = Some img -> wf_image img -> x < (size img).1 -> y < (size img).2 ->
  exists img', putpixel l (x, y) c h = (Ok tt, <[l := img']> h)
    /\ wf_image img' /\ size img' = size img
    /\ forall x' y', pixel img' x' y'
         = if decide (x' = x /\ y' = y) then Some (ink c) else pixel img x' y'.
Proof.
  intros Hl (Hmode & Hrows & Hcols & Hbytes) Hx Hy.
  unfold putpixel. rewrite (bindM_ok _ _ _ _ _ (deref_ok _ _ _ Hl)). cbn [fst snd].
  destruct (Nat.ltb_spec x (size img).1); [|lia].
  destruct (Nat.ltb_spec y (size img).2); [|lia]. cbn [andb].
  eexists. split; [reflexivity|]. split; [|split; [done|]].
  - split; [done|]. unfold wf_bands. cbn [size pixels].
    split; [by rewrite length_alter|]. split.
    + apply Forall_alter; [done|]. intros row _ Hrow. simpl. by rewrite length_insert.
    + apply Forall_alter; [done|]. intros row _ Hrow.
      apply Forall_insert; [done|]. apply ink_bytes.
  - intros x' y'. unfold pixel. cbn [pixels].
    destruct (decide (y' = y)) as [->|Hy'].
    + rewrite list_lookup_alter_eq.
      destruct (lookup_lt_is_Some_2 (pixels img) y) as [row Hrow]; [lia|].
      rewrite Hrow. simpl.
      pose proof (Forall_lookup_1 _ _ _ _ Hcols Hrow) as Hlen. simpl in Hlen.
      destruct (decide (x' = x)) as [->|Hx'].
      * rewrite list_lookup_insert_eq by lia. by rewrite decide_True by done.
      * rewrite list_lookup_insert_ne by done. by rewrite decide_False by tauto.
    + rewrite list_lookup_alter_ne by done. by rewrite decide_False by tauto.
Qed.

(** The loop over the columns of a swatch in row [y]. *)
Lemma swatch_row_spec (l : loc) (c : RGB) (y pw ph m : nat) :
  forall (x1 : nat) (h : heap) (img : Image),
    h !! l = Some img -> wf_image img -> size img = (pw, ph) ->
    y < ph -> x1 + m <= pw ->
    exists img',
      forM (seq x1 m)
        (fun x => if (x <? pw) && (y <? ph) then putpixel l (x, y) c else retM tt) h
      = (Ok tt, <[l := img']> h)
      /\ wf_image img' /\ size img' = (pw, ph)
      /\ forall x' y', pixel img' x' y'
           = if decide (y' = y /\ x1 <= x' < x1 + m) then Some (ink c)
             else pixel img x' y'.
Proof.
  induction m as [|m IH]; intros x1 h img Hl Hwf Hsz Hy Hx.
  - exists img. cbn [seq forM]. unfold retM. rewrite insert_id by done.
    split; [done|]. split; [done|]. split; [done|]. intros x' y'.
    rewrite decide_False; [done|lia].
  - cbn [seq forM].
    destruct (Nat.ltb_spec x1 pw); [|lia]. destruct (Nat.ltb_spec y ph); [|lia].
    cbn [andb].
    destruct (putpixel_spec h l img x1 y c Hl Hwf) as (img1 & Hput & Hwf1 & Hsz1 & Hpx1);
      [rewrite Hsz; simpl; lia..|].
    rewrite (bindM_ok _ _ _ _ _ Hput).
    destruct (IH (S x1) (<[l := img1]> h) img1) as (img' & Hrun & Hwf' & Hsz' & Hpx');
      [apply lookup_insert_eq|done|congruence|done|lia|].
    exists img'. rewrite Hrun, insert_insert_eq.
    split; [done|]. split; [done|]. split; [done|]. intros x' y'.
    rewrite Hpx', Hpx1.
    destruct (decide (y' = y /\ S x1 <= x' < S x1 + m)) as [Hin|Hout].
    + rewrite decide_True; [done|lia].
    + destruct (decide (x' = x1 /\ y' = y)) as [Hin1|Hout1].
      * rewrite decide_True; [done|lia].
      * rewrite decide_False; [done|lia].
Qed.

(** The two loops over the pixels of a swatch. *)
Lemma swatch_rect_spec (l : loc) (c : RGB) (x1 s pw ph m : nat) :
  x1 + s <= pw ->
  forall (y1 : nat) (h : heap) (img : Image),
    h !! l = Some img -> wf_image img -> size img = (pw, ph) ->
    y1 + m <= ph ->
    exists img',
      forM (seq y1 m) (fun y =>
        forM (seq x1 s)
          (fun x => if (x <? pw) && (y <? ph) then putpixel l (x, y) c else retM tt)) h
      = (Ok tt, <[l := img']> h)
      /\ wf_image img' /\ size img' = (pw, ph)
      /\ forall x' y', pixel img' x' y'
           = if decide (x1 <= x' < x1 + s /\ y1 <= y' < y1 + m) then Some (ink c)
             else pixel img x' y'.
Proof.
  intros Hx. induction m as [|m IH]; intros y1 h img Hl Hwf Hsz Hy.
  - exists img. cbn [seq forM]. unfold retM. rewrite insert_id by done.
    split; [done|]. split; [done|]. split; [done|]. intros x' y'.
    rewrite decide_False; [done|lia].
  - cbn [seq forM].
    destruct (swatch_row_spec l c y1 pw ph s x1 h img Hl Hwf Hsz)
      as (img1 & Hrow & Hwf1 & Hsz1 & Hpx1); [lia..|].
    rewrite (bindM_ok _ _ _ _ _ Hrow).
    destruct (IH (S y1) (<[l := img1]> h) img1) as (img' & Hrun & Hwf' & Hsz' & Hpx');
      [apply lookup_insert_eq|done|done|lia|].
    exists img'. rewrite Hrun, insert_insert_eq.
    split; [done|]. split; [done|]. split; [done|]. intros x' y'.
    rewrite Hpx', Hpx1.
    destruct (decide (x1 <= x' < x1 + s /\ S y1 <= y' < S y1 + m)) as [Hin|Hout].
    + rewrite decide_True; [done|lia].
    + destruct (decide (y' = y1 /\ x1 <= x' < x1 + s)) as [Hin1|Hout1].
      * rewrite decide_True; [done|lia].
      * rewrite decide_False; [done|lia].
Qed.

(** The swatch of entry [k] covers the pixels whose index, in rows of
    four swatches, is [k]. *)
Lemma swatch_index (s k x y : nat) :
  x < 4 * s ->
  ((k mod 4) * s <= x < (k mod 4) * s + s /\ (k / 4) * s <= y < (k / 4) * s + s)
  <-> 4 * (y / s) + x / s = k.
Proof.
  intros Hx. assert (s <> 0) as Hs by lia.
  pose proof (Nat.div_mod_eq x s) as Ex. pose proof (Nat.mod_upper_bound x s Hs) as Bx.
  pose proof (Nat.div_mod_eq y s) as Ey. pose proof (Nat.mod_upper_bound y s Hs) as By.
  pose proof (Nat.div_mod_eq k 4) as Ek.
  pose proof (Nat.mod_upper_bound k 4 ltac:(lia)) as Bk.
  revert Ex Bx Ey By Ek Bk.
  generalize (x / s) (x mod s) (y / s) (y mod s) (k / 4) (k mod 4).
  intros a b c d kd km Ex Bx Ey By Ek Bk. subst x y k.
  assert (a < 4) as Ha by nia.
  split.
  - intros [[H1 H2] [H3 H4]].
    assert (a = km) as -> by nia. assert (c = kd) as -> by nia. lia.
  - intros Heq. assert (a = km) as -> by lia. assert (c = kd) as -> by lia. nia.
Qed.

(** The loop over the colours from entry [k] on. *)
Lemma swatches_spec (l : loc) (s n : nat) (rgbs : list RGB) (cs : list string) :
  length rgbs = n ->
  forall (k : nat) (h : heap) (img : Image),
    k + length cs = n ->
    (forall j hex, cs !! j = Some hex ->
       exists c, MinecraftPalette.hex_to_rgb hex = Ok c
                 /\ rgbs !! (k + j) = Some c) ->
    h !! l = Some img -> wf_image img ->
    size img = (4 * s, (n + 4 - 1) / 4 * s) ->
    (forall x y, x < 4 * s -> y < (n + 4 - 1) / 4 * s ->
       pixel img x y = Some (swatch_at (take k (ink <$> rgbs)) s x y)) ->
    exists img',
      forM (imap (fun i a => (k + i, a)) cs)
        (draw_swatch l 4 s (4 * s) ((n + 4 - 1) / 4 * s)) h
      = (Ok tt, <[l := img']> h)
      /\ wf_image img' /\ size img' = (4 * s, (n + 4 - 1) / 4 * s)
      /\ forall x y, x < 4 * s -> y < (n + 4 - 1) / 4 * s ->
           pixel img' x y = Some (swatch_at (ink <$> rgbs) s x y).
Proof.
  intros Hn. induction cs as [|hex cs IH]; intros k h img Hk Hparse Hl Hwf Hsz Hpx.
  - exists img. cbn [imap forM]. unfold retM. rewrite insert_id by done.
    split; [done|]. split; [done|]. split; [done|]. intros x y Hx Hy.
    rewrite Hpx by done. simpl in Hk. by rewrite take_ge by (rewrite length_fmap; lia).
  - cbn [length] in Hk. rewrite imap_cons. cbn [forM].
    destruct (Hparse 0 hex eq_refl) as (c & Hc & Hrgb).
    rewrite Nat.add_0_r in Hrgb |- *.
    assert (Hdraw : exists img1,
              draw_swatch l 4 s (4 * s) ((n + 4 - 1) / 4 * s) (k, hex) h
              = (Ok tt, <[l := img1]> h)
              /\ wf_image img1 /\ size img1 = (4 * s, (n + 4 - 1) / 4 * s)
              /\ forall x' y', pixel img1 x' y'
                   = if decide ((k mod 4) * s <= x' < (k mod 4) * s + s
                                /\ (k / 4) * s <= y' < (k / 4) * s + s)
                     then Some (ink c) else pixel img x' y').
    { unfold draw_swatch.
      rewrite (bindM_ok (liftM (MinecraftPalette.hex_to_rgb hex)) _ h h c)
        by (unfold liftM; by rewrite Hc).
      apply (swatch_rect_spec l c ((k mod 4) * s) s (4 * s) ((n + 4 - 1) / 4 * s) s);
        try done.
      - pose proof (Nat.mod_upper_bound k 4 ltac:(lia)). nia.
      - pose proof (Nat.div_mod_eq k 4). pose proof (Nat.mod_upper_bound k 4 ltac:(lia)).
        pose proof (Nat.div_mod_eq (n + 4 - 1) 4).
        pose proof (Nat.mod_upper_bound (n + 4 - 1) 4 ltac:(lia)).
        assert (k / 4 + 1 <= (n + 4 - 1) / 4) by lia. nia. }
    destruct Hdraw as (img1 & Hdraw & Hwf1 & Hsz1 & Hpx1).
    rewrite (bindM_ok _ _ _ _ _ Hdraw).
    destruct (IH (S k) (<[l := img1]> h) img1) as (img' & Hrun & Hwf' & Hsz' & Hpx');
      [lia| |apply lookup_insert_eq|done|done| |].
    + intros j hex' Hj. destruct (Hparse (S j) hex' Hj) as (c' & ? & ?).
      exists c'. by rewrite Nat.add_succ_l, <- Nat.add_succ_r.
    + intros x y Hx Hy. rewrite Hpx1. unfold swatch_at.
      destruct (decide _) as [Hin|Hout].
      * apply swatch_index in Hin; [|done]. rewrite Hin.
        rewrite lookup_take_lt by lia.
        assert ((ink <$> rgbs) !! k = Some (ink c)) as Hink
          by (by rewrite list_lookup_fmap, Hrgb).
        symmetry. exact (f_equal (fun o => Some (default (255, 255, 255)%Z o)) Hink).
      * rewrite Hpx by done. unfold swatch_at. f_equal. f_equal.
        assert (4 * (y / s) + x / s <> k) as Hne
          by (intros Heq; by apply Hout, swatch_index).
        destruct (decide (4 * (y / s) + x / s < k)).
        -- by rewrite !lookup_take_lt by lia.
        -- by rewrite !lookup_take_ge by lia.
    + exists img'.
      rewrite (imap_ext _ (fun i a => (S k + i, a))) by (intros; simpl; f_equal; lia).
      rewrite Hrun, insert_insert_eq. done.
Qed.

(** X25. For a ditherer whose palette the constructor built,
    [save_palette_preview] never raises: it draws a new image of 4 by
    ceil(n / 4) swatches of [swatch_size] pixels, in which the swatch of
    entry [i] lies in row [i div 4] and column [i mod 4] and shows the
    colour of that entry with each channel clamped to [0, 255], which for
    a colour of bytes is the colour itself, the rest of the last row
    staying white; it returns [True] when saving that image succeeds and
    [False] when it fails, and it leaves the images that existed
    untouched. *)
Theorem palette_preview_layout (self : t) (colors : list string) (h : heap)
    (output_path : string) (swatch_size : nat) :
  MinecraftPalette.init colors = Ok (palette self) ->
  exists preview h' img,
    draw_preview self swatch_size h = (Ok preview, h')
    /\ h !! preview = None /\ h ⊆ h'
    /\ h' !! preview = Some img
    /\ size img = (4 * swatch_size, (length colors + 4 - 1) / 4 * swatch_size)
    /\ (forall x y,
          x < 4 * swatch_size -> y < (length colors + 4 - 1) / 4 * swatch_size ->
          pixel img x y
          = Some (swatch_at (ink <$> MinecraftPalette.colors_rgb (palette self))
                    swatch_size x y))
    /\ (Forall rgb_uint8 (MinecraftPalette.colors_rgb (palette self)) ->
        ink <$> MinecraftPalette.colors_rgb (palette self)
        = MinecraftPalette.colors_rgb (palette self))
    /\ save_palette_preview self output_path swatch_size h
       = (Ok (is_ok (image_save img output_path)), h').
Proof.
  intros Hinit.
  destruct (init_built _ _ Hinit) as [(_ & Hlen & _) Hcolors].
  set (n := length colors). set (s := swatch_size).
  set (l := fresh (dom h)).
  set (white := PIL.blank "RGB" (4 * s, (n + 4 - 1) / 4 * s) (255, 255, 255)%Z).
  destruct (swatches_spec l s n (MinecraftPalette.colors_rgb (palette self)) colors)
    with (k := 0) (h := <[l := white]> h) (img := white)
    as (img & Hrun & Hwf & Hsz & Hpx).
  - by rewrite <- Hlen, Hcolors.
  - done.
  - intros j hex Hj. destruct (palette_init_lookup _ _ Hinit j hex Hj) as (c & Hc & Hi).
    exists c. by split.
  - apply lookup_insert_eq.
  - apply blank_wf.
  - done.
  - intros x y Hx Hy. unfold white. by rewrite pixel_blank.
  - rewrite insert_insert_eq in Hrun.
    assert (Hdraw : draw_preview self s h = (Ok l, <[l := img]> h)).
    { unfold draw_preview. rewrite Hcolors. fold n.
      rewrite (bindM_ok (PIL.new "RGB" (4 * s, (n + 4 - 1) / 4 * s) (255, 255, 255)%Z)
                 _ h (<[l := white]> h) l) by done.
      change (enumerate colors) with (imap (fun i a => (0 + i, a)) colors).
      by rewrite (bindM_ok _ _ _ _ _ Hrun). }
    exists l, (<[l := img]> h), img.
    split; [done|]. split; [apply fresh_None|]. split; [apply alloc_extends|].
    split; [apply lookup_insert_eq|]. split; [done|]. split; [done|]. split.
    { intros Hbytes. apply list_eq. intros i. rewrite list_lookup_fmap.
      destruct (MinecraftPalette.colors_rgb (palette self) !! i) as [c|] eqn:Hc;
        [|done].
      simpl. f_equal. apply ink_id. by eapply Forall_lookup_1. }
    unfold save_palette_preview. rewrite (bindM_ok _ _ _ _ _ Hdraw).
    rewrite (bindM_ok _ _ _ _ _ (deref_ok _ l img ltac:(apply lookup_insert_eq))).
    unfold liftM. by destruct (image_save img output_path).
Qed.

End Preview.

Lemma palette_preview_layout_witness :
  MinecraftPalette.init ["#000000"]%string
    = Ok (MinecraftDitherer.palette (ditherer_of black_only))
  /\ exists preview h' img,
       PreviewTools.draw_preview (ditherer_of black_only) 2 ∅ = (Ok preview, h')
       /\ h' !! preview = Some img
       /\ size img = (8, 2)
       /\ (forall x y,
             x < 4 * 2 -> y < (length ["#000000"]%string + 4 - 1) / 4 * 2 ->
             pixel img x y
             = Some (swatch_at
                       (ink <$> MinecraftPalette.colors_rgb
                                  (MinecraftDitherer.palette (ditherer_of black_only)))
                       2 x y))
       /\ PreviewTools.save_palette_preview (ditherer_of black_only) "preview.png" 2 ∅
          = (Ok (is_ok (image_save img "preview.png")), h').
Proof.
  assert (MinecraftPalette.init ["#000000"]%string
          = Ok (MinecraftDitherer.palette (ditherer_of black_only))) as Hinit
    by reflexivity.
  split; [exact Hinit|].
  destruct (palette_preview_layout (ditherer_of black_only) ["#000000"]%string ∅
              "preview.png" 2 Hinit)
    as (preview & h' & img & Hrun & _ & _ & Himg & Hsz & Hpx & _ & Hsave).
  by exists preview, h', img.
Defined.

(** The preview of a palette of five colours with swatches of one pixel:
    two rows of four, the last three pixels white. *)
Example palette_preview_example :
  (d ← MinecraftDitherer.init
         (Some ["#000000"; "#111111"; "#222222"; "#333333"; "#444444"]%string);
   match PreviewTools.draw_preview d 1 ∅ with
   | (Ok preview, h') => Ok (pixels <$> h' !! preview)
   | (Raise e, _) => Raise e
   end)
  = Ok (Some [ [ (0, 0, 0); (17, 17, 17); (34, 34, 34); (51, 51, 51) ];
               [ (68, 68, 68); (255, 255, 255); (255, 255, 255); (255, 255, 255) ] ]%Z).
Proof. vm_compute. reflexivity. Qed.

(** The preview of the palette of the one colour (-1, -1, -1), read from
    the code [#-1-1-1]: the swatch is black. *)
Example palette_preview_clamped :
  (d ← MinecraftDitherer.init (Some ["#-1-1-1"]%string);
   match PreviewTools.draw_preview d 1 ∅ with
   | (Ok preview, h') => Ok (pixels <$> h' !! preview)
   | (Raise e, _) => Raise e
   end)
  = Ok (Some [ [ (0, 0, 0); (255, 255, 255); (255, 255, 255); (255, 255, 255) ] ]%Z).
Proof. vm_compute. reflexivity. Qed.

(** ** Extraction of palettes *)

Section Extraction.
Import ExtractColors.

Lemma NoDup_reverse {A} (l : list A) : NoDup (reverse l) <-> NoDup l.
Proof. by rewrite reverse_Permutation. Qed.

Lemma sublist_reverse {A} (l1 l2 : list A) :
  l1 `sublist_of` l2 -> reverse l1 `sublist_of` reverse l2.
Proof.
  induction 1 as [|x l1 l2 _ IH|x l1 l2 _ IH]; [done| |].
  - rewrite !reverse_cons. by apply sublist_app.
  - rewrite reverse_cons. by apply sublist_inserts_r.
Qed.

Lemma remove_dups_cons {A} `{EqDecision A} (x : A) (l : list A) :
  remove_dups (x :: l)
  = if decide (x ∈ l) then remove_dups l else x :: remove_dups l.
Proof. reflexivity. Qed.

Lemma remove_dups_snoc (l : list string) (c : string) :
  reverse (remove_dups (reverse (l ++ [c])))
  = if decide (c ∈ l) then reverse (remove_dups (reverse l))
    else reverse (remove_dups (reverse l)) ++ [c].
Proof.
  rewrite reverse_app, reverse_singleton. cbn [app]. rewrite remove_dups_cons.
  destruct (decide (c ∈ l)) as [Hin|Hnin].
  - by rewrite decide_True by (by rewrite elem_of_reverse).
  - rewrite decide_False by (by rewrite elem_of_reverse).
    by rewrite reverse_cons.
Qed.

(** The state of the loop after the colours of [l]. *)
Lemma keep_first_fold (l : list string) :
  foldl keep_first ([], ∅) l
  = (reverse (remove_dups (reverse l)), list_to_set l).
Proof.
  induction l as [|c l IH] using rev_ind; [done|].
  rewrite foldl_app, IH. cbn [foldl keep_first].
  rewrite remove_dups_snoc, list_to_set_app_L. cbn [list_to_set].
  rewrite (right_id_L ∅ (∪)).
  destruct (decide (c ∈ (list_to_set l : gset string))) as [Hin|Hnin].
  - rewrite elem_of_list_to_set in Hin. rewrite decide_True by done.
    f_equal. apply set_eq. intros x. rewrite elem_of_union, elem_of_singleton,
      !elem_of_list_to_set. split; [tauto|]. intros [?| ->]; tauto.
  - rewrite elem_of_list_to_set in Hnin. by rewrite decide_False by done.
Qed.

Lemma remove_duplicates_reverse (l : list string) :
  remove_duplicates l = reverse (remove_dups (reverse l)).
Proof. unfold remove_duplicates. by rewrite keep_first_fold. Qed.

Lemma remove_duplicates_helper (l : list string) :
  NoDup (remove_duplicates l)
  /\ (forall c, c ∈ remove_duplicates l <-> c ∈ l)
  /\ remove_duplicates l `sublist_of` l.
Proof.
  rewrite remove_duplicates_reverse.
  split; [apply NoDup_reverse, NoDup_remove_dups|].
  split; [intros c; by rewrite elem_of_reverse, elem_of_remove_dups, elem_of_reverse|].
  rewrite <- (reverse_involutive l) at 2. apply sublist_reverse.
  generalize (reverse l). intros u. induction u as [|x u IH]; [done|].
  rewrite remove_dups_cons. destruct (decide (x ∈ u)).
  - by apply sublist_cons.
  - by apply sublist_skip.
Qed.

(** X21. The loop that removes duplicates while preserving order keeps
    the first occurrence of every colour: a colour appended to the list
    is appended to the result when it is new and dropped otherwise.  The
    result has no duplicates, has the colours of the list and no others,
    is a sub-list of the list, and is the list itself exactly when that
    has no duplicates. *)
Theorem remove_duplicates_spec (l : list string) :
  remove_duplicates [] = []
  /\ (forall c, remove_duplicates (l ++ [c])
                = if decide (c ∈ l) then remove_duplicates l
                  else remove_duplicates l ++ [c])
  /\ NoDup (remove_duplicates l)
  /\ (forall c, c ∈ remove_duplicates l <-> c ∈ l)
  /\ remove_duplicates l `sublist_of` l
  /\ (NoDup l <-> remove_duplicates l = l).
Proof.
  split; [reflexivity|]. split.
  { intros c. rewrite !remove_duplicates_reverse. apply remove_dups_snoc. }
  destruct (remove_duplicates_helper l) as (Hnd0 & Hin & Hsub).
  split; [exact Hnd0|]. split; [exact Hin|]. split; [exact Hsub|].
  clear Hnd0 Hin Hsub. rewrite remove_duplicates_reverse.
  split.
  - intros Hnd. rewrite <- (reverse_involutive l) at 2. f_equal.
    apply NoDup_reverse in Hnd. revert Hnd. generalize (reverse l). intros u Hnd.
    induction Hnd as [|x u Hx Hnd IH]; [done|].
    rewrite remove_dups_cons, decide_False by done. by rewrite IH.
  - intros Heq. rewrite <- Heq. apply NoDup_reverse, NoDup_remove_dups.
Qed.

Lemma range3_elem (n i : nat) : i ∈ range3 n <-> exists k, i = 3 * k /\ 3 * k < n.
Proof.
  unfold range3. rewrite list_elem_of_fmap.
  pose proof (Nat.div_mod_eq (n + 2) 3) as Hdiv.
  pose proof (Nat.mod_upper_bound (n + 2) 3 ltac:(lia)) as Hmod.
  split.
  - intros (k & -> & Hk). apply elem_of_seq in Hk. exists k. split; [done|]. lia.
  - intros (k & -> & Hk). exists k. split; [done|]. apply elem_of_seq. lia.
Qed.

Lemma take3_drop {A} (data : list A) (i : nat) (r g b : A) :
  take 3 (drop i data) = [r; g; b]
  <-> data !! i = Some r /\ data !! (i + 1) = Some g /\ data !! (i + 2) = Some b
      .
Proof.
  split.
  - intros Heq.
    assert (forall j, j < 3 -> data !! (i + j) = [r; g; b] !! j) as Hj.
    { intros j Hj. by rewrite <- Heq, lookup_take_lt, lookup_drop by done. }
    pose proof (Hj 0 ltac:(lia)) as H0. pose proof (Hj 1 ltac:(lia)) as H1.
    pose proof (Hj 2 ltac:(lia)) as H2. rewrite Nat.add_0_r in H0. done.
  - intros (Hr & Hg & Hb). apply list_eq. intros j.
    destruct (decide (j < 3)) as [Hj|Hj].
    + rewrite lookup_take_lt, lookup_drop by done.
      destruct j as [|[|[|j]]]; [by rewrite Nat.add_0_r|done|done|lia].
    + rewrite lookup_take_ge by lia. symmetry. apply lookup_ge_None_2. simpl. lia.
Qed.

(** The colours of the loop over the bytes read: one for each complete
    triplet. *)
Lemma act_colors_elem (data : list Byte.byte) (s : string) :
  s ∈ act_colors data
  <-> exists k r g b,
        data !! (3 * k) = Some r /\ data !! (3 * k + 1) = Some g
        /\ data !! (3 * k + 2) = Some b
        /\ s = PaletteTools.rgb_to_hex (unpack_B r, unpack_B g, unpack_B b).
Proof.
  unfold act_colors. rewrite list_elem_of_bind. split.
  - intros (i & Hs & Hi). apply range3_elem in Hi as (k & -> & Hk).
    destruct (Nat.ltb_spec (3 * k + 2) (length data)); [|by apply elem_of_nil in Hs].
    destruct (take 3 (drop (3 * k) data)) as [|r [|g [|b [|? ?]]]] eqn:Htake;
      try (by apply elem_of_nil in Hs).
    apply list_elem_of_singleton in Hs. apply take3_drop in Htake.
    exists k, r, g, b. tauto.
  - intros (k & r & g & b & Hr & Hg & Hb & ->). exists (3 * k).
    pose proof (lookup_lt_Some _ _ _ Hb) as Hlen. split.
    + destruct (Nat.ltb_spec (3 * k + 2) (length data)); [|lia].
      rewrite (proj2 (take3_drop data (3 * k) r g b)) by done.
      by apply list_elem_of_singleton.
    + apply range3_elem. exists k. split; [done|]. lia.
Qed.

Lemma act_colors_length (data : list Byte.byte) :
  length (act_colors data) <= (length data + 2) / 3.
Proof.
  unfold act_colors, range3.
  assert (forall (f : nat -> list string) (l : list nat),
            (forall i, length (f i) <= 1) -> length (l ≫= f) <= length l) as Hbind.
  { intros f l Hf. induction l as [|i l IH]; [done|].
    rewrite bind_cons, length_app. specialize (Hf i). simpl. lia. }
  etrans; [apply Hbind|by rewrite length_map, length_seq].
  intros i. destruct (_ <? _); [|simpl; lia].
  destruct (take 3 (drop i data)) as [|r [|g [|b [|? ?]]]]; simpl; lia.
Qed.

Lemma unpack_B_uint8 (b : Byte.byte) : is_uint8 (unpack_B b).
Proof.
  unfold is_uint8, unpack_B. pose proof (Byte.to_N_bounded b). lia.
Qed.

(** X22. The colours that [extract_from_act_file] returns are the codes
    [#RRGGBB] of the complete byte triplets among the first 256 triplets
    of the file, each once: there are at most 256 of them and none is
    repeated; a trailing group of one or two bytes is dropped.  For a file
    that cannot be opened the result is the empty list. *)
Theorem extract_from_act_file_spec (content : list Byte.byte) :
  NoDup (extract_from_act_file (Some content))
  /\ length (extract_from_act_file (Some content)) <= 256
  /\ (forall s, s ∈ extract_from_act_file (Some content)
        <-> exists k r g b,
              k < 256
              /\ content !! (3 * k) = Some r /\ content !! (3 * k + 1) = Some g
              /\ content !! (3 * k + 2) = Some b
              /\ s = PaletteTools.rgb_to_hex (unpack_B r, unpack_B g, unpack_B b))
  /\ extract_from_act_file None = [].
Proof.
  unfold extract_from_act_file.
  destruct (remove_duplicates_helper (act_colors (take 768 content)))
    as (Hnd & Hin & Hsub).
  split; [exact Hnd|]. split; [|split; [|reflexivity]].
  - etrans; [apply (sublist_length _ _ Hsub)|].
    etrans; [apply act_colors_length|].
    rewrite length_take.
    apply Nat.lt_succ_r, Nat.Div0.div_lt_upper_bound. lia.
  - intros s. rewrite Hin, act_colors_elem. split.
    + intros (k & r & g & b & Hr & Hg & Hb & ->).
      apply lookup_take_Some in Hr as [Hr _], Hg as [Hg _], Hb as [Hb Hk].
      exists k, r, g, b. split; [lia|done].
    + intros (k & r & g & b & Hk & Hr & Hg & Hb & ->).
      exists k, r, g, b. rewrite !lookup_take_Some. repeat split; try done; lia.
Qed.

End Extraction.

Section ExtractedPalette.
Context `{Float64Ops}.
Import ExtractColors.

(** X23. The colours extracted from an ACT file of three bytes or more are
    accepted as custom colours: the constructor of the ditherer returns,
    its colour list is the extracted list, and entry [i] of the RGB table
    it searches is a colour of bytes that [rgb_to_hex] writes as entry
    [i] of the extracted list. *)
Theorem extracted_palette_accepted (content : list Byte.byte) :
  3 <= length content ->
  exists d,
    MinecraftDitherer.init (Some (extract_from_act_file (Some content))) = Ok d
    /\ MinecraftPalette.carpet_colors (MinecraftDitherer.palette d)
       = extract_from_act_file (Some content)
    /\ forall i s, extract_from_act_file (Some content) !! i = Some s ->
         exists c, MinecraftPalette.colors_rgb (MinecraftDitherer.palette d) !! i
                   = Some c
                   /\ rgb_uint8 c /\ PaletteTools.rgb_to_hex c = s.
Proof.
  intros Hlen.
  destruct (remove_duplicates_helper (act_colors (take 768 content)))
    as (_ & Hin & _).
  change (remove_duplicates (act_colors (take 768 content)))
    with (extract_from_act_file (Some content)) in Hin.
  set (cs := extract_from_act_file (Some content)) in *.
  assert (Hparse : forall s, s ∈ cs ->
            exists c, MinecraftPalette.hex_to_rgb s = Ok c
                      /\ rgb_uint8 c /\ PaletteTools.rgb_to_hex c = s).
  { intros s Hs. apply Hin, act_colors_elem in Hs as (k & r & g & b & _ & _ & _ & ->).
    assert (rgb_uint8 (unpack_B r, unpack_B g, unpack_B b)) as Hbytes
      by (repeat split; apply unpack_B_uint8).
    eexists. split; [by apply hex_to_rgb_of_rgb_to_hex|]. by split. }
  assert (Hne : cs <> []).
  { destruct (lookup_lt_is_Some_2 content 0) as [r Hr]; [lia|].
    destruct (lookup_lt_is_Some_2 content 1) as [g Hg]; [lia|].
    destruct (lookup_lt_is_Some_2 content 2) as [b Hb]; [lia|].
    assert (PaletteTools.rgb_to_hex (unpack_B r, unpack_B g, unpack_B b) ∈ cs) as Hs.
    { apply Hin, act_colors_elem. exists 0, r, g, b.
      rewrite !lookup_take_Some. repeat split; try done; lia. }
    intros Hnil. rewrite Hnil in Hs. by apply elem_of_nil in Hs. }
  assert (Hp : exists p, MinecraftPalette.init cs = Ok p).
  { destruct (proj2 (mapM_ok_iff MinecraftPalette.hex_to_rgb cs)) as (rgbs & Hrgbs).
    { apply Forall_lookup_2. intros i s Hs.
      destruct (Hparse s) as (c & Hc & _); [by eapply list_elem_of_lookup_2|].
      by exists c. }
    unfold MinecraftPalette.init. destruct cs as [|c0 cs'] eqn:Hcs; [done|].
    rewrite Hrgbs. by eexists. }
  destruct Hp as (p & Hp).
  destruct default_palette_init as (p0 & Hp0 & _).
  exists {| MinecraftDitherer.palette := p;
            MinecraftDitherer.error_matrix := MinecraftDitherer.floyd_steinberg;
            MinecraftDitherer.processed_pixels := 0;
            MinecraftDitherer.total_pixels := 0;
            MinecraftDitherer.progress_callback := None |}.
  split; [|split].
  - unfold MinecraftDitherer.init. rewrite Hp0. cbn [mbind result_bind].
    destruct cs as [|c0 cs'] eqn:Hcs; [done|]. rewrite Hp. reflexivity.
  - cbn [MinecraftDitherer.palette]. by apply init_built in Hp as [_ ?].
  - cbn [MinecraftDitherer.palette]. intros i s Hs.
    destruct (palette_init_lookup _ _ Hp i s Hs) as (c & Hc & Hi).
    destruct (Hparse s) as (c' & Hc' & Hbytes & Hhex);
      [by eapply list_elem_of_lookup_2|].
    assert (c' = c) as -> by congruence. by exists c.
Qed.

End ExtractedPalette.

(** A palette file of two colours, the first of them twice, followed by
    two stray bytes. *)
Example extract_from_act_file_example :
  ExtractColors.extract_from_act_file
    (Some [ Byte.xdc; Byte.x00; Byte.x00;  Byte.x0a; Byte.xbb; Byte.x32;
            Byte.xdc; Byte.x00; Byte.x00;  Byte.xff; Byte.xff ])
  = ["#DC0000"; "#0ABB32"]%string.
Proof. vm_compute. reflexivity. Qed.

Lemma extracted_palette_accepted_witness :
  3 <= length [ Byte.xdc; Byte.x00; Byte.x00; Byte.x0a ]
  /\ exists d,
       MinecraftDitherer.init
         (Some (ExtractColors.extract_from_act_file
                  (Some [ Byte.xdc; Byte.x00; Byte.x00; Byte.x0a ]))) = Ok d
       /\ MinecraftPalette.carpet_colors (MinecraftDitherer.palette d)
          = ExtractColors.extract_from_act_file
              (Some [ Byte.xdc; Byte.x00; Byte.x00; Byte.x0a ])
       /\ forall i s,
            ExtractColors.extract_from_act_file
              (Some [ Byte.xdc; Byte.x00; Byte.x00; Byte.x0a ]) !! i = Some s ->
            exists c,
              MinecraftPalette.colors_rgb (MinecraftDitherer.palette d) !! i = Some c
              /\ rgb_uint8 c /\ PaletteTools.rgb_to_hex c = s.
Proof.
  assert (3 <= length [ Byte.xdc; Byte.x00; Byte.x00; Byte.x0a ]) as Hlen
    by (simpl; lia).
  split; [exact Hlen|].
  exact (extracted_palette_accepted [ Byte.xdc; Byte.x00; Byte.x00; Byte.x0a ] Hlen).
Defined.

(** ** Colours found in text *)

Section TextExtraction.
Context `{Float64Ops}.
Import ExtractColors.

Lemma hex6_spec (l g : list ascii) :
  hex6 l = Some g -> length g = 6 /\ forallb is_hex g = true.
Proof.
  unfold hex6. destruct (Nat.eqb_spec (length (take 6 l)) 6) as [Hlen|]; [|done].
  destruct (forallb is_hex (take 6 l)) eqn:Hhex; [|done]. by intros [= <-].
Qed.

(** Every group that [findall] returns is six hexadecimal digits. *)
Lemma findall_groups (content : list ascii) (skip : nat) (g : list ascii) :
  g ∈ findall skip content -> length g = 6 /\ forallb is_hex g = true.
Proof.
  revert skip. induction content as [|a rest IH]; intros skip Hg; cbn [findall] in Hg.
  - by apply elem_of_nil in Hg.
  - destruct skip as [|skip]; [|by eapply IH].
    destruct (match_hex (a :: rest)) as [[g' n]|] eqn:Hm; [|by eapply IH].
    apply elem_of_cons in Hg as [->|Hg]; [|by eapply IH].
    unfold match_hex in Hm.
    assert (exists u, hex6 u = Some g') as [u Hu].
    { destruct (Ascii.eqb_spec a "#") as [->|Hne].
      - destruct (hex6 rest) as [g0|] eqn:E; [|done]. inversion Hm; subst. eauto.
      - assert ((fun g => (g, 6)) <$> hex6 (a :: rest) = Some (g', n)) as Hm'.
        { destruct a as [[] [] [] [] [] [] [] []]; done. }
        destruct (hex6 (a :: rest)) as [g0|] eqn:E; [|done]. inversion Hm'; subst. eauto. }
    by eapply hex6_spec.
Qed.

Lemma hex_digit_upper (a : ascii) :
  is_hex a = true ->
  exists d, MinecraftPalette.hex_digit (upper_ascii a) = Some d
            /\ upper_ascii (upper_ascii a) = upper_ascii a
            /\ upper_ascii a <> "#"%char.
Proof.
  unfold is_hex. intros Hd.
  destruct a as [[] [] [] [] [] [] [] []]; vm_compute in Hd; try discriminate;
    (eexists; split; [vm_compute; reflexivity|split; [reflexivity|discriminate]]).
Qed.

(** The code written for a group of six hexadecimal digits is read by
    [hex_to_rgb], and [rgb_to_hex] writes the colour read as that code. *)
Lemma hex_code_of_group (g : list ascii) :
  length g = 6 -> forallb is_hex g = true ->
  exists c, MinecraftPalette.hex_to_rgb (String "#" (upper (string_of_list_ascii g)))
            = Ok c
            /\ PaletteTools.rgb_to_hex c = String "#" (upper (string_of_list_ascii g)).
Proof.
  intros Hlen Hhex.
  destruct g as [|a1 [|a2 [|a3 [|a4 [|a5 [|a6 [|? ?]]]]]]]; try discriminate.
  cbn [forallb] in Hhex. repeat (apply andb_true_iff in Hhex as [? Hhex]).
  destruct (hex_digit_upper a1) as (d1 & D1 & U1 & N1); [done|].
  destruct (hex_digit_upper a2) as (d2 & D2 & U2 & _); [done|].
  destruct (hex_digit_upper a3) as (d3 & D3 & U3 & _); [done|].
  destruct (hex_digit_upper a4) as (d4 & D4 & U4 & _); [done|].
  destruct (hex_digit_upper a5) as (d5 & D5 & U5 & _); [done|].
  destruct (hex_digit_upper a6) as (d6 & D6 & U6 & _); [done|].
  cbn [string_of_list_ascii upper].
  assert (Hr := int16_two_digits _ _ _ _ D1 D2).
  assert (Hg := int16_two_digits _ _ _ _ D3 D4).
  assert (Hb := int16_two_digits _ _ _ _ D5 D6).
  exists ((16 * d1 + d2)%Z, (16 * d3 + d4)%Z, (16 * d5 + d6)%Z). split.
  - unfold MinecraftPalette.hex_to_rgb.
    match goal with
    | |- context [MinecraftPalette.lstrip_hash (String "#" ?u)] =>
        change (MinecraftPalette.lstrip_hash (String "#" u))
          with (MinecraftPalette.lstrip_hash u)
    end.
    rewrite (lstrip_hash_other _ _ N1). cbn [substring]. by rewrite Hr, Hg, Hb.
  - unfold PaletteTools.rgb_to_hex.
    rewrite (format_02X_int16 _ _ _ _ D1 D2), (format_02X_int16 _ _ _ _ D3 D4),
      (format_02X_int16 _ _ _ _ D5 D6).
    by rewrite U1, U2, U3, U4, U5, U6.
Qed.

(** X26. Every colour that [extract_from_text_file] returns is a hash
    followed by six upper-case hexadecimal digits: [hex_to_rgb] reads it
    and [rgb_to_hex] writes the colour read as the same string; no colour
    is returned twice; and the list, when it is not empty, is accepted as
    custom colours by the constructor of the ditherer. *)
Theorem extract_from_text_file_spec (content : string) :
  NoDup (extract_from_text_file (Some content))
  /\ (forall s, s ∈ extract_from_text_file (Some content) ->
        String.length s = 7
        /\ exists c, MinecraftPalette.hex_to_rgb s = Ok c
                     /\ PaletteTools.rgb_to_hex c = s)
  /\ (extract_from_text_file (Some content) <> [] ->
        exists d,
          MinecraftDitherer.init (Some (extract_from_text_file (Some content))) = Ok d
          /\ MinecraftPalette.carpet_colors (MinecraftDitherer.palette d)
             = extract_from_text_file (Some content))
  /\ extract_from_text_file None = [].
Proof.
  unfold extract_from_text_file.
  set (colors := map _ (findall 0 (list_ascii_of_string content))).
  destruct (remove_duplicates_helper colors) as (Hnd & Hin & _).
  set (cs := remove_duplicates colors) in *.
  assert (Hparse : forall s, s ∈ cs ->
            String.length s = 7
            /\ exists c, MinecraftPalette.hex_to_rgb s = Ok c
                         /\ PaletteTools.rgb_to_hex c = s).
  { intros s Hs. apply Hin in Hs. unfold colors in Hs.
    apply list_elem_of_fmap in Hs as (g & -> & Hg).
    apply findall_groups in Hg as [Hlen Hhex]. split; [|by apply hex_code_of_group].
    destruct g as [|a1 [|a2 [|a3 [|a4 [|a5 [|a6 [|? ?]]]]]]]; done. }
  split; [done|]. split; [done|]. split; [|reflexivity].
  intros Hne.
  assert (Hp : exists p, MinecraftPalette.init cs = Ok p).
  { destruct (proj2 (mapM_ok_iff MinecraftPalette.hex_to_rgb cs)) as (rgbs & Hrgbs).
    { apply Forall_lookup_2. intros i s Hs.
      destruct (Hparse s) as (_ & c & Hc & _); [by eapply list_elem_of_lookup_2|].
      by exists c. }
    unfold MinecraftPalette.init. destruct cs as [|c0 cs'] eqn:Hcs; [done|].
    rewrite Hrgbs. by eexists. }
  destruct Hp as (p & Hp). destruct default_palette_init as (p0 & Hp0 & _).
  exists {| MinecraftDitherer.palette := p;
            MinecraftDitherer.error_matrix := MinecraftDitherer.floyd_steinberg;
            MinecraftDitherer.processed_pixels := 0;
            MinecraftDitherer.total_pixels := 0;
            MinecraftDitherer.progress_callback := None |}.
  split.
  - unfold MinecraftDitherer.init. rewrite Hp0. cbn [mbind result_bind].
    destruct cs as [|c0 cs'] eqn:Hcs; [done|]. rewrite Hp. reflexivity.
  - cbn [MinecraftDitherer.palette]. by apply init_built in Hp as [_ ?].
Qed.

End TextExtraction.

(** Colours in several notations, with a repetition, a hash that starts
    no colour and a word of hexadecimal letters. *)
Example extract_from_text_file_example :
  ExtractColors.extract_from_text_file
    (Some "red: #dc0000, 00BB32; #DC0000 ## #12 facade #1234567")
  = ["#DC0000"; "#00BB32"; "#FACADE"; "#123456"]%string.
Proof. vm_compute. reflexivity. Qed.

(** ** Runs on concrete images *)

Lemma dim_image_tight : ~ fits dim_image (1, 0).
Proof. unfold fits. simpl. lia. Defined.

Lemma resize_image_in_place_witness :
  ({[ 1%positive := dim_image ]} : heap) !! 1%positive = Some dim_image
  /\ ~ fits dim_image (1, 0)
  /\ ((size dim_image).2 = 0 \/ (1, 0).2 = 0)
  /\ ImageTools.resize_image (Some 1%positive) (1, 0) true {[ 1%positive := dim_image ]}
     = (Raise (ZeroDivisionError "division by zero"), {[ 1%positive := dim_image ]})
  /\ size dim_image <> (1, 0)
  /\ ((1, 0).1 = 0 \/ (1, 0).2 = 0)
  /\ ImageTools.resize_image (Some 1%positive) (1, 0) false {[ 1%positive := dim_image ]}
     = (Raise (ValueError "height and width must be > 0"), {[ 1%positive := dim_image ]}).
Proof.
  assert (size dim_image <> (1, 0)) as Hsz by discriminate.
  destruct (resize_image_in_place {[ 1%positive := dim_image ]} 1%positive dim_image
              (1, 0) (heap_one dim_image)) as (_ & _ & Hzero & _ & _ & Hrefused & _).
  split; [exact (heap_one dim_image)|]. split; [exact dim_image_tight|].
  split; [by right|]. split; [exact (Hzero dim_image_tight (or_intror eq_refl))|].
  split; [exact Hsz|]. split; [by right|].
  exact (Hrefused Hsz (or_intror eq_refl)).
Defined.

(** [resize_image] on [dim_image]: reduced in place to one pixel by the
    crop that stands for the filter, and copied by a resize to its own
    size. *)
Example resize_image_examples :
  ImageTools.resize_image (Some 1%positive) (1, 1) true {[ 1%positive := dim_image ]}
  = (Ok 1%positive,
     {[ 1%positive := {| mode := "RGB"; size := (1, 1); pixels := [ [ (2, 2, 2)%Z ] ] |} ]})
  /\ ImageTools.resize_image (Some 1%positive) (2, 2) false {[ 1%positive := dim_image ]}
     = (Ok 2%positive, {[ 1%positive := dim_image; 2%positive := dim_image ]}).
Proof. split; vm_compute; reflexivity. Qed.

Lemma create_thumbnail_copies_witness :
  ({[ 1%positive := dim_image ]} : heap) !! 1%positive = Some dim_image
  /\ ~ fits dim_image (default (200, 200) (Some (1, 0)))
  /\ ((size dim_image).2 = 0 \/ (default (200, 200) (Some (1, 0))).2 = 0)
  /\ ImageTools.create_thumbnail (Some 1%positive) (Some (1, 0))
       {[ 1%positive := dim_image ]}
     = (Raise (ZeroDivisionError "division by zero"),
        <[fresh (dom ({[ 1%positive := dim_image ]} : heap)) := dim_image]>
          ({[ 1%positive := dim_image ]} : heap))
  /\ fits dim_image (default (200, 200) None)
  /\ ImageTools.create_thumbnail (Some 1%positive) None {[ 1%positive := dim_image ]}
     = (Ok (fresh (dom ({[ 1%positive := dim_image ]} : heap))),
        <[fresh (dom ({[ 1%positive := dim_image ]} : heap)) := dim_image]>
          ({[ 1%positive := dim_image ]} : heap)).
Proof.
  assert (fits dim_image (default (200, 200) None)) as Hfit by (split; simpl; lia).
  split; [exact (heap_one dim_image)|]. split; [exact dim_image_tight|].
  split; [by right|]. split.
  - exact (proj1 (proj2 (proj2 (proj2
             (create_thumbnail_copies {[ 1%positive := dim_image ]} 1%positive
                dim_image (Some (1, 0)) (heap_one dim_image)))))
             dim_image_tight (or_intror eq_refl)).
  - split; [exact Hfit|].
    exact (proj1 (proj2 (proj2
             (create_thumbnail_copies {[ 1%positive := dim_image ]} 1%positive
                dim_image None (heap_one dim_image)))) Hfit).
Defined.

Lemma array_image_round_trip_witness :
  ({[ 1%positive := dim_image ]} : heap) !! 1%positive = Some dim_image
  /\ wf_image dim_image /\ all_cells rgb_uint8 dim_source
  /\ (exists b l' h',
        ImageProcessor.image_to_array (Some 1%positive) {[ 1%positive := dim_image ]}
          = (Ok (Array3 b), {[ 1%positive := dim_image ]})
        /\ ImageProcessor.array_to_image b {[ 1%positive := dim_image ]} = (Ok l', h')
        /\ ({[ 1%positive := dim_image ]} : heap) !! l' = None
        /\ ({[ 1%positive := dim_image ]} : heap) ⊆ h'
        /\ h' !! l' = Some dim_image)
  /\ (exists l' h',
        ImageProcessor.array_to_image dim_source {[ 1%positive := dim_image ]}
          = (Ok l', h')
        /\ ImageProcessor.image_to_array (Some l') h' = (Ok (Array3 dim_source), h')).
Proof.
  split; [exact (heap_one dim_image)|]. split; [exact dim_image_wf|].
  split; [exact dim_source_bytes|].
  exact (array_image_round_trip {[ 1%positive := dim_image ]} 1%positive dim_image
           dim_source (heap_one dim_image) dim_image_wf dim_source_bytes).
Defined.

Lemma resize_for_minecraft_centred_witness :
  ({[ 1%positive := dim_image ]} : heap) !! 1%positive = Some dim_image
  /\ wf_image dim_image
  /\ (size dim_image).1 <= (default ImageProcessor.MINECRAFT_MAP_SIZE (Some (5, 4))).1
  /\ (size dim_image).2 <= (default ImageProcessor.MINECRAFT_MAP_SIZE (Some (5, 4))).2
  /\ exists final_image h' canvas,
       ImageProcessor.resize_for_minecraft (Some 1%positive) (Some (5, 4))
         {[ 1%positive := dim_image ]} = (Ok final_image, h')
       /\ ({[ 1%positive := dim_image ]} : heap) !! final_image = None
       /\ h' !! final_image = Some canvas
       /\ size canvas = default ImageProcessor.MINECRAFT_MAP_SIZE (Some (5, 4))
       /\ forall i j,
            i < (default ImageProcessor.MINECRAFT_MAP_SIZE (Some (5, 4))).1 ->
            j < (default ImageProcessor.MINECRAFT_MAP_SIZE (Some (5, 4))).2 ->
            pixel canvas i j
            = centred dim_image (default ImageProcessor.MINECRAFT_MAP_SIZE (Some (5, 4)))
                i j.
Proof.
  assert ((size dim_image).1
          <= (default ImageProcessor.MINECRAFT_MAP_SIZE (Some (5, 4))).1) as Hw
    by (simpl; lia).
  assert ((size dim_image).2
          <= (default ImageProcessor.MINECRAFT_MAP_SIZE (Some (5, 4))).2) as Hh
    by (simpl; lia).
  split; [exact (heap_one dim_image)|]. split; [exact dim_image_wf|].
  split; [exact Hw|]. split; [exact Hh|].
  exact (resize_for_minecraft_centred {[ 1%positive := dim_image ]} 1%positive dim_image
           (Some (5, 4)) (heap_one dim_image) dim_image_wf Hw Hh).
Defined.

(** The canvas of 5 by 4 pixels around [dim_image]: the image lies at
    offset (1, 1).  An image of 200 by 0 pixels does not fit in the map of
    128 by 128, and [thumbnail] divides by its height. *)
Example resize_for_minecraft_centred_example :
  (canvas ← resized dim_image (5, 4); Ok (pixels canvas))
  = Ok [ [ (0, 0, 0); (0, 0, 0); (0, 0, 0); (0, 0, 0); (0, 0, 0) ];
         [ (0, 0, 0); (2, 2, 2); (0, 0, 0); (0, 0, 0); (0, 0, 0) ];
         [ (0, 0, 0); (0, 0, 0); (0, 0, 0); (0, 0, 0); (0, 0, 0) ];
         [ (0, 0, 0); (0, 0, 0); (0, 0, 0); (0, 0, 0); (0, 0, 0) ] ]%Z
  /\ resized {| mode := "RGB"; size := (200, 0); pixels := [] |}
       ImageProcessor.MINECRAFT_MAP_SIZE
     = Raise (ZeroDivisionError "division by zero").
Proof. split; vm_compute; reflexivity. Qed.

Lemma dither_image_counters_witness :
  wf_ditherer (ditherer_of black_only)
  /\ ({[ 1%positive := dim_image ]} : heap) !! 1%positive = Some dim_image
  /\ wf_image dim_image
  /\ exists r s h' out,
       MinecraftDitherer.dither_image (ditherer_of black_only) (Some 1%positive) false
         {[ 1%positive := dim_image ]} = (Ok (r, s), h')
       /\ h' !! r = Some out
       /\ size out = size dim_image
       /\ MinecraftDitherer.processed_pixels s = (size out).2 * (size out).1
       /\ MinecraftDitherer.total_pixels s = (size out).2 * (size out).1
       /\ same_config s (ditherer_of black_only).
Proof.
  split; [exact black_ditherer_wf|]. split; [exact (heap_one dim_image)|].
  split; [exact dim_image_wf|].
  destruct (proj2 (dither_image_output (ditherer_of black_only)
                     {[ 1%positive := dim_image ]} 1%positive dim_image false
                     black_ditherer_wf (heap_one dim_image) (proj2 dim_image_wf))
              black_ditherer_quiet dim_image eq_refl) as (r & s & h' & Hrun).
  destruct (dither_image_counters (ditherer_of black_only)
              {[ 1%positive := dim_image ]} 1%positive dim_image false r s h'
              black_ditherer_wf (heap_one dim_image) dim_image_wf Hrun)
    as (out & Hout).
  by exists r, s, h', out.
Defined.

Lemma dither_image_notifies_witness :
  wf_ditherer (ditherer_of black_only)
  /\ ({[ 1%positive := dim_image ]} : heap) !! 1%positive = Some dim_image
  /\ wf_image dim_image
  /\ (_ ← (MinecraftDitherer.dither_image (ditherer_of black_only) (Some 1%positive)
             true {[ 1%positive := dim_image ]}).1; Ok tt)
     = (pimg ← prepared true dim_image;
        notify (ditherer_of black_only) ((size pimg).2 * (size pimg).1)).
Proof.
  split; [exact black_ditherer_wf|]. split; [exact (heap_one dim_image)|].
  split; [exact dim_image_wf|].
  exact (proj1 (dither_image_notifies (ditherer_of black_only)
                  {[ 1%positive := dim_image ]} 1%positive dim_image true
                  black_ditherer_wf (heap_one dim_image) dim_image_wf)).
Defined.

(** The notifications of a sweep of 2500 pixels, and a sweep stopped by
    its observer at the second of them. *)
Example notifications_of_2500 :
  notifications 2500 = [1000; 2000; 2500]
  /\ notify (MinecraftDitherer.set_progress_callback (ditherer_of black_only)
               (fun n _ => if n =? 2000 then Raise (ValueError "stop") else Ok tt))
            2500
     = Raise (ValueError "stop").
Proof. split; vm_compute; reflexivity. Qed.

Lemma quantized_image_nearest_witness :
  built_palette black_only /\ wf_image dim_image
  /\ ({[ 1%positive := dim_image ]} : heap) !! 1%positive = Some dim_image
  /\ exists q h' qimg,
       MinecraftDitherer._create_quantized_image (ditherer_of black_only)
         (Some 1%positive) {[ 1%positive := dim_image ]} = (Ok q, h')
       /\ h' !! q = Some qimg
       /\ size qimg = size dim_image
       /\ forall i j, i < (size dim_image).1 -> j < (size dim_image).2 ->
            pixel qimg i j = uint8_rgb <$> (pixel dim_image i j ≫= closest black_only).
Proof.
  assert (built_palette black_only) as Hpal
    by exact (wf_built _ (proj1 black_ditherer_wf)).
  split; [exact Hpal|]. split; [exact dim_image_wf|].
  split; [exact (heap_one dim_image)|].
  destruct (quantized_image_nearest (ditherer_of black_only)
              {[ 1%positive := dim_image ]} 1%positive dim_image Hpal dim_image_wf
              (heap_one dim_image))
    as (q & h' & qimg & Hrun & _ & _ & Hq & Hsz & Hpx & _).
  by exists q, h', qimg.
Defined.

(** The quantize-only image for the palette of the one colour
    (-1, -1, -1), read from the code [#-1-1-1]: white. *)
Example quantized_image_signed :
  (d ← MinecraftDitherer.init (Some ["#-1-1-1"]%string);
   match MinecraftDitherer._create_quantized_image d (Some 1%positive)
           {[ 1%positive := dim_image ]} with
   | (Ok q, h') => Ok (pixels <$> h' !! q)
   | (Raise e, _) => Raise e
   end)
  = Ok (Some [ [ (255, 255, 255); (255, 255, 255) ];
               [ (255, 255, 255); (255, 255, 255) ] ]%Z).
Proof. vm_compute. reflexivity. Qed.

Lemma comparison_first_row_witness :
  wf_ditherer (ditherer_of black_only) /\ wf_image dim_image
  /\ ({[ 1%positive := dim_image ]} : heap) !! 1%positive = Some dim_image
  /\ exists o q d s h' pimg qimg dimg,
       MinecraftDitherer.dither_with_comparison (ditherer_of black_only)
         (Some 1%positive) false {[ 1%positive := dim_image ]}
       = (Ok (o, q, d, s), h')
       /\ prepared false dim_image = Ok pimg
       /\ h' !! q = Some qimg /\ h' !! d = Some dimg
       /\ pixels dimg !! 0 = pixels qimg !! 0
       /\ ((size pimg).2 <= 1 -> dimg = qimg).
Proof.
  split; [exact black_ditherer_wf|]. split; [exact dim_image_wf|].
  split; [exact (heap_one dim_image)|].
  destruct (comparison_returns (ditherer_of black_only) {[ 1%positive := dim_image ]}
              1%positive dim_image dim_image false black_ditherer_wf
              black_ditherer_quiet (proj2 dim_image_wf) (heap_one dim_image) eq_refl)
    as (o & q & d & s & h' & Hrun).
  destruct (comparison_first_row (ditherer_of black_only) {[ 1%positive := dim_image ]}
              1%positive dim_image false o q d s h' black_ditherer_wf dim_image_wf
              (heap_one dim_image) Hrun) as (pimg & qimg & dimg & Hrest).
  by exists o, q, d, s, h', pimg, qimg, dimg.
Defined.

Lemma comparison_three_images_witness :
  wf_ditherer (ditherer_of black_only) /\ wf_image dim_image
  /\ ({[ 1%positive := dim_image ]} : heap) !! 1%positive = Some dim_image
  /\ exists o q d s h',
       MinecraftDitherer.dither_with_comparison (ditherer_of black_only)
         (Some 1%positive) true {[ 1%positive := dim_image ]}
       = (Ok (o, q, d, s), h')
       /\ ({[ 1%positive := dim_image ]} : heap) ⊆ h'
       /\ ({[ 1%positive := dim_image ]} : heap) !! o = None
       /\ ({[ 1%positive := dim_image ]} : heap) !! q = None
       /\ ({[ 1%positive := dim_image ]} : heap) !! d = None
       /\ o <> q /\ o <> d /\ q <> d
       /\ exists pimg qimg dimg,
            prepared true dim_image = Ok pimg
            /\ h' !! o = Some pimg
            /\ h' !! q = Some qimg /\ h' !! d = Some dimg
            /\ size qimg = size pimg
            /\ size dimg = size pimg
            /\ outcome (MinecraftDitherer.dither_image (ditherer_of black_only)
                          (Some 1%positive) true {[ 1%positive := dim_image ]})
               = Ok dimg.
Proof.
  split; [exact black_ditherer_wf|]. split; [exact dim_image_wf|].
  split; [exact (heap_one dim_image)|].
  destruct (prepared_fits dim_image eq_refl dim_image_fits) as (pimg & Hp).
  destruct (comparison_returns (ditherer_of black_only) {[ 1%positive := dim_image ]}
              1%positive dim_image pimg true black_ditherer_wf black_ditherer_quiet
              (proj2 dim_image_wf) (heap_one dim_image) Hp)
    as (o & q & d & s & h' & Hrun).
  exists o, q, d, s, h'. split; [exact Hrun|].
  exact (comparison_three_images (ditherer_of black_only) {[ 1%positive := dim_image ]}
           1%positive dim_image true o q d s h' black_ditherer_wf dim_image_wf
           (heap_one dim_image) Hrun).
Defined.

Lemma working_buffer_exact_witness :
  wf_ditherer (ditherer_of black_only) /\ wf_array dim_source
  /\ all_cells rgb_uint8 dim_source
  /\ (forall x y, (x, y) ∈ [(0, 0); (1, 0); (0, 1)] ->
        x < width dim_source /\ y < height dim_source)
  /\ exists st,
       foldM MinecraftDitherer.process_pixel [(0, 0); (1, 0); (0, 1)]
         (MinecraftDitherer.start (ditherer_of black_only) dim_source) = Ok st
       /\ all_cells (fun v => sixteenths3 v /\ in_range3 v)
            (MinecraftDitherer.image_array st).
Proof.
  assert (forall x y, (x, y) ∈ [(0, 0); (1, 0); (0, 1)] ->
            x < width dim_source /\ y < height dim_source) as Hl.
  { intros x y Hq. simpl.
    repeat (apply elem_of_cons in Hq as [[= -> ->]|Hq]; [lia|]).
    by apply elem_of_nil in Hq. }
  split; [exact black_ditherer_wf|]. split; [exact dim_source_wf|].
  split; [exact dim_source_bytes|]. split; [exact Hl|].
  eexists. split; [vm_compute; reflexivity|].
  apply (working_buffer_exact (ditherer_of black_only) dim_source
           [(0, 0); (1, 0); (0, 1)] _
           black_ditherer_wf dim_source_wf dim_source_bytes Hl).
  vm_compute; reflexivity.
Defined.
